(** * The Hatchery: the simulation engine, embedded and verified

    A shallow embedding of the engine of the game (engine/rng.ts,
    engine/state.ts, engine/effects.ts, engine/generator.ts,
    engine/reducer.ts and the roll loop of ui/screens/ElectionNight.tsx),
    followed by the properties of the run state machine.

    Conventions of the embedding.
    - A JavaScript [number] that the engine only ever fills with integers
      (resources, stats, cycle counters, cursors) is a [Z].  Where the source
      multiplies or divides by a non-integer constant the computation is done
      on IEEE-754 binary64 values ([F64], on top of [SpecFloat]).
    - A [Record<string, T>] is an association list in insertion order
      ([Rec]): [Object.keys] and [Object.values] enumerate it in that order,
      and the order decides which roll a union or a federation receives.
    - An [Error] thrown by the source is [None] in the monad [M].
    - Everything ambient that the engine reads ([Date.now()], the module
      counter [idCounter] of generator.ts, [Math.random()]) lives in an
      explicit [World] that is passed in and returned. *)

From Stdlib Require Import String Ascii ZArith NArith List Bool Lia.
From Stdlib Require Import Permutation.
From Stdlib Require Import DecimalString.
From Stdlib Require DecimalN.
From Stdlib Require Import Floats.SpecFloat.
Import ListNotations.

Local Open Scope Z_scope.

(* ================================================================== *)
(** ** The state-and-exception monad of the engine *)
(* ================================================================== *)

Definition M (S A : Type) : Type := S -> option (A * S).

Definition ret {S A} (a : A) : M S A := fun s => Some (a, s).

Definition bind {S A B} (c : M S A) (k : A -> M S B) : M S B :=
  fun s => match c s with
           | Some (a, s') => k a s'
           | None => None
           end.

Definition throw {S A} : M S A := fun _ => None.

Declare Scope eng_scope.
Delimit Scope eng_scope with eng.
Notation "x <- c ;; k" := (bind c (fun x => k))
  (at level 61, c at next level, right associativity) : eng_scope.
Notation "' p <- c ;; k" := (bind c (fun x => let 'p := x in k))
  (at level 61, p pattern, c at next level, right associativity) : eng_scope.
Local Open Scope eng_scope.

(** [for (let i = 0; i < n; i++) body], the body threading an accumulator. *)
Fixpoint repeatM {S A} (n : nat) (body : A -> M S A) (acc : A) : M S A :=
  match n with
  | O => ret acc
  | S n' => acc' <- body acc ;; repeatM n' body acc'
  end.

(* ================================================================== *)
(** ** 32-bit integer operators of JavaScript *)
(* ================================================================== *)

Module Int32.

(** [x >>> 0] *)
Definition toUint32 (x : Z) : Z := x mod 2^32.

(** [x | 0] *)
Definition toInt32 (x : Z) : Z := (x + 2^31) mod 2^32 - 2^31.

(** [x >>> n] *)
Definition ushr (x n : Z) : Z := Z.shiftr (toUint32 x) n.

(** [x ^ y] *)
Definition xor (x y : Z) : Z := Z.lxor (toInt32 x) (toInt32 y).

(** [x | y] *)
Definition or (x y : Z) : Z := Z.lor (toInt32 x) (toInt32 y).

(** [Math.imul(x, y)] *)
Definition imul (x y : Z) : Z := toInt32 (toInt32 x * toInt32 y).

End Int32.

(* ================================================================== *)
(** ** binary64 arithmetic *)
(* ================================================================== *)

Module F64.

Definition prec : Z := 53.
Definition emax : Z := 1024.

(** The double that an integer-valued [number] denotes. *)
Definition of_Z (z : Z) : spec_float := binary_normalize prec emax z 0 false.

Definition mul : spec_float -> spec_float -> spec_float := SFmul prec emax.
Definition div : spec_float -> spec_float -> spec_float := SFdiv prec emax.

(** [x <= y] *)
Definition leb : spec_float -> spec_float -> bool := SFleb.
(** [x > y] *)
Definition gtb (x y : spec_float) : bool := SFltb y x.

(** [Math.floor] of a finite double, as an integer.  The engine floors
    only products of an integer stat with a constant, which are finite;
    the infinities and NaN, which have no integer floor, are sent to 0. *)
Definition floor (x : spec_float) : Z :=
  match x with
  | S754_finite s m e =>
      let v := if s then Z.neg m else Z.pos m in
      if 0 <=? e then v * 2 ^ e else v / 2 ^ (- e)
  | _ => 0
  end.

(** The literals [0.6], [0.35] and [0.5] of the source. *)
Definition lit_0_6 : spec_float := S754_finite false 5404319552844595 (-53).
Definition lit_0_35 : spec_float := S754_finite false 6305039478318694 (-54).
Definition lit_0_5 : spec_float := S754_finite false 4503599627370496 (-53).

End F64.

(* ================================================================== *)
(** ** engine/rng.ts: Mulberry32 *)
(* ================================================================== *)

Module Rng.
Import Int32.

(** The generator object is its closure variable [a]; a method that
    cannot throw is a function from the old value of [a] to a result and
    the new value, a method that can throw is a computation in [M Z]. *)

(** [createRNG(seed)]: [let a = seed >>> 0]. *)
Definition createRNG (seed : Z) : Z := toUint32 seed.

(** [next()].  The result is a double [u / 4294967296] with
    [0 <= u < 2^32]; such a quotient is exact, and [next] returns its
    numerator [u]. *)
Definition next (a : Z) : Z * Z :=
  let a := toInt32 a in
  let a := toInt32 (a + 1831565813) in
  let t := imul (xor a (ushr a 15)) (or 1 a) in
  let t := xor t (t + imul (xor t (ushr t 7)) (or 61 t)) in
  (toUint32 (xor t (ushr t 14)), a).

(** [nextInt(min, max)]: [Math.floor(next() * (max - min + 1)) + min].
    For the small integer ranges of the engine the product
    [u * (max - min + 1) / 2^32] is exact in binary64, so that its floor is
    the integer quotient. *)
Definition nextInt (min max : Z) (a : Z) : Z * Z :=
  let '(u, a) := next a in
  (u * (max - min + 1) / 2^32 + min, a).

(** [pick(items)] *)
Definition pick {A} (items : list A) : M Z A := fun a =>
  match items with
  | [] => None
  | d :: _ =>
      let '(i, a) := nextInt 0 (Z.of_nat (length items) - 1) a in
      Some (nth (Z.to_nat i) items d, a)
  end.

(** The loop of [weightedPick]: [roll] is kept scaled by [2^32]. *)
Fixpoint weightedLoop {A} (items : list A) (weights : list Z) (roll : Z)
  : option A :=
  match items, weights with
  | x :: items', w :: weights' =>
      let roll := roll - w * 2^32 in
      if roll <=? 0 then Some x else weightedLoop items' weights' roll
  | _, _ => None
  end.

(** [weightedPick(items, weights)], for integer weights (the only ones the
    engine passes): [next() * totalWeight] and the running differences are
    exact multiples of [2^-32]. *)
Definition weightedPick {A} (items : list A) (weights : list Z) : M Z A :=
  fun a =>
  if negb (Nat.eqb (length items) (length weights)) then None
  else
    match items with
    | [] => None
    | d :: _ =>
        let totalWeight := fold_left Z.add weights 0 in
        let '(u, a) := next a in
        match weightedLoop items weights (u * totalWeight) with
        | Some x => Some (x, a)
        | None => Some (last items d, a)
        end
    end.

(** [getCursor()] *)
Definition getCursor (a : Z) : Z := a.

(** [result[i] = x] on an index of the array. *)
Fixpoint setAt {A} (i : nat) (x : A) (l : list A) : list A :=
  match l, i with
  | [], _ => []
  | _ :: l', O => x :: l'
  | y :: l', S i' => y :: setAt i' x l'
  end.

(** [[result[i], result[j]] = [result[j], result[i]]], both indices being
    indices of the array. *)
Definition swap {A} (i j : nat) (result : list A) : list A :=
  match nth_error result i, nth_error result j with
  | Some ri, Some rj => setAt j ri (setAt i rj result)
  | _, _ => result
  end.

(** [for (let i = n; i > 0; i--) { const j = nextInt(0, i); swap }] *)
Fixpoint shuffleLoop {A} (i : nat) (result : list A) (a : Z) : list A * Z :=
  match i with
  | O => (result, a)
  | S i' =>
      let '(j, a) := nextInt 0 (Z.of_nat i) a in
      shuffleLoop i' (swap i (Z.to_nat j) result) a
  end.

(** [shuffle(items)] *)
Definition shuffle {A} (items : list A) (a : Z) : list A * Z :=
  shuffleLoop (length items - 1) items a.

(** [pickN(items, n)], for a count [n] that is a natural number. *)
Definition pickN {A} (items : list A) (n : nat) : M Z (list A) := fun a =>
  if (length items <? n)%nat then None
  else
    let '(shuffled, a) := shuffle items a in
    Some (firstn n shuffled, a).

End Rng.

(* ================================================================== *)
(** ** Records keyed by strings *)
(* ================================================================== *)

Module Rec.

(** A [Record<string, V>] whose keys are not array indices (the ids of
    the engine start with [union_] or [fed_]): the properties in
    insertion order. *)
Definition t (V : Type) : Type := list (string * V).

(** [m[k]] *)
Fixpoint get {V} (k : string) (m : t V) : option V :=
  match m with
  | [] => None
  | (k', v) :: m' => if String.eqb k' k then Some v else get k m'
  end.

(** [m[k] = v], and [{ ...m, [k]: v }]: an existing property keeps its
    place, a new one goes last. *)
Fixpoint set {V} (k : string) (v : V) (m : t V) : t V :=
  match m with
  | [] => [(k, v)]
  | (k', v') :: m' =>
      if String.eqb k' k then (k, v) :: m' else (k', v') :: set k v m'
  end.

(** [const { [k]: removed, ...rest } = m] *)
Definition remove {V} (k : string) (m : t V) : t V :=
  filter (fun kv => negb (String.eqb (fst kv) k)) m.

(** [Object.keys(m)] and [Object.values(m)] *)
Definition keys {V} (m : t V) : list string := map fst m.
Definition values {V} (m : t V) : list V := map snd m.

End Rec.

(** [xs.includes(x)] on strings. *)
Definition includes (x : string) (xs : list string) : bool :=
  existsb (String.eqb x) xs.

(** [[...new Set(xs)]]: the first occurrence of every element, in order. *)
Fixpoint dedupFrom (seen xs : list string) : list string :=
  match xs with
  | [] => []
  | x :: xs' =>
      if includes x seen then dedupFrom seen xs'
      else x :: dedupFrom (x :: seen) xs'
  end.
Definition dedup (xs : list string) : list string := dedupFrom [] xs.

(** A non-negative integer inside a template literal. *)
Definition showN (n : N) : string := NilZero.string_of_uint (N.to_uint n).

(* ================================================================== *)
(** ** What the engine reads from its surroundings *)
(* ================================================================== *)

(** [clock] holds the successive readings of [Date.now()] and [entropy] the
    successive values of [Math.floor(Math.random() * 2147483647)];
    [idCounter] is the module variable of generator.ts.  [console.log]
    only writes and is left out. *)
Record World : Type := mkWorld {
  clock : nat -> N;
  clockReads : nat;
  idCounter : N;
  entropy : nat -> Z;
  entropyReads : nat
}.

(** [Date.now()] *)
Definition Date_now (w : World) : N * World :=
  (clock w (clockReads w),
   mkWorld (clock w) (S (clockReads w)) (idCounter w) (entropy w) (entropyReads w)).

(** [++idCounter] *)
Definition incr_idCounter (w : World) : N * World :=
  let n := (idCounter w + 1)%N in
  (n, mkWorld (clock w) (clockReads w) n (entropy w) (entropyReads w)).

(** [Math.floor(Math.random() * 2147483647)] *)
Definition random_seed (w : World) : Z * World :=
  (entropy w (entropyReads w),
   mkWorld (clock w) (clockReads w) (idCounter w) (entropy w) (S (entropyReads w))).

(* ================================================================== *)
(** ** engine/state.ts *)
(* ================================================================== *)

Module Resources.
Record t : Type := mk {
  paperwork : Z;
  patronage : Z;
  legitimacy : Z;
  auditRisk : Z;
  streetHeat : Z
}.
End Resources.

Inductive IncubationMode : Type := mode_paperwork | mode_discipline.

Module UnionEntity.
Record t : Type := mk {
  id : string;
  name : string;
  sector : string;
  plausibility : Z;
  loyalty : Z;
  integrity : Z;
  maintenanceCost : Z;
  tags : list string;
  isIncubated : bool;
  isLicensed : bool;
  isCracked : bool;
  incubationMode : option IncubationMode
}.
End UnionEntity.

Inductive Recognition : Type := recognized | unrecognized.

Module FederationEntity.
Record t : Type := mk {
  id : string;
  name : string;
  unionIds : list string;
  delegates : Z;
  recognition : Recognition;
  visibility : Z
}.
End FederationEntity.

Inductive GamePhase : Type := menu | playing | event | election | ended.

Inductive Ending : Type := capture | collapse | whistleblower.

Record RunState : Type := mkRunState {
  seed : Z;
  rngCursor : Z;
  cycle : Z;
  maxCycles : Z;
  phase : GamePhase;
  resources : Resources.t;
  unions : Rec.t UnionEntity.t;
  federations : Rec.t FederationEntity.t;
  eventHistory : list string;
  currentEventId : option string;
  unlockedFootnotes : list string;
  ending : option Ending;
  showTips : bool;
  unionsGeneratedInCycle : bool
}.

Definition DEFAULT_RESOURCES : Resources.t :=
  Resources.mk 3 5 70 10 5.

(** [createInitialState(seed?, showTips = false)] *)
Definition createInitialState (seed' : option Z) (showTips' : option bool)
    (w : World) : RunState * World :=
  let '(actualSeed, w) :=
    match seed' with
    | Some s => (s, w)
    | None => random_seed w
    end in
  (mkRunState actualSeed actualSeed 1 5 menu DEFAULT_RESOURCES [] [] [] None []
     None (match showTips' with Some b => b | None => false end) false,
   w).

Definition is_recognized (f : FederationEntity.t) : bool :=
  match FederationEntity.recognition f with
  | recognized => true
  | unrecognized => false
  end.

(** The sum of the delegates of the recognized federations, as
    [getTotalDelegates], [calculateUpkeep] and [ELECTION_RESOLVE] each
    compute it. *)
Definition recognizedDelegates (fs : Rec.t FederationEntity.t) : Z :=
  fold_left (fun sum f => sum + FederationEntity.delegates f)
            (filter is_recognized (Rec.values fs)) 0.

Definition getTotalDelegates (state : RunState) : Z :=
  recognizedDelegates (federations state).

Definition getAvailableUnions (state : RunState) : list UnionEntity.t :=
  let usedUnionIds :=
    flat_map FederationEntity.unionIds (Rec.values (federations state)) in
  filter (fun u => UnionEntity.isLicensed u
                   && negb (includes (UnionEntity.id u) usedUnionIds))
         (Rec.values (unions state)).

Inductive LoseCondition : Type := lose_legitimacy | lose_audit | lose_street.

Definition checkLoseCondition (state : RunState) : option LoseCondition :=
  if Resources.legitimacy (resources state) <=? 0 then Some lose_legitimacy
  else if 100 <=? Resources.auditRisk (resources state) then Some lose_audit
  else if 100 <=? Resources.streetHeat (resources state) then Some lose_street
  else None.

Definition getTotalMaintenanceCost (state : RunState) : Z :=
  fold_left (fun sum u => sum + UnionEntity.maintenanceCost u)
            (Rec.values (unions state)) 0.

(** [Math.min(95, 30 + Math.floor(union.plausibility * 0.6))] *)
Definition getLicenseChance (union : UnionEntity.t) : Z :=
  Z.min 95
    (30 + F64.floor (F64.mul (F64.of_Z (UnionEntity.plausibility union))
                             F64.lit_0_6)).

(** [Math.max(5, 40 - Math.floor(union.integrity * 0.35))] *)
Definition getCrackRisk (union : UnionEntity.t) : Z :=
  Z.max 5
    (40 - F64.floor (F64.mul (F64.of_Z (UnionEntity.integrity union))
                             F64.lit_0_35)).

(** [(union.loyalty / 100) * 2] *)
Definition getDelegateReliability (union : UnionEntity.t) : spec_float :=
  F64.mul (F64.div (F64.of_Z (UnionEntity.loyalty union)) (F64.of_Z 100))
          (F64.of_Z 2).

(** [ids.map(id => unions[id]).filter(Boolean)] *)
Fixpoint lookupAll {V} (ids : list string) (m : Rec.t V) : list V :=
  match ids with
  | [] => []
  | i :: ids' =>
      match Rec.get i m with
      | Some v => v :: lookupAll ids' m
      | None => lookupAll ids' m
      end
  end.

Definition getFederationReliability (federation : FederationEntity.t)
    (unions : Rec.t UnionEntity.t) : spec_float :=
  let memberUnions := lookupAll (FederationEntity.unionIds federation) unions in
  match memberUnions with
  | [] => F64.of_Z 0
  | _ =>
      let avgLoyalty :=
        F64.div
          (F64.of_Z (fold_left (fun sum u => sum + UnionEntity.loyalty u)
                               memberUnions 0))
          (F64.of_Z (Z.of_nat (length memberUnions))) in
      F64.mul (F64.div avgLoyalty (F64.of_Z 100)) (F64.of_Z 2)
  end.

(** [1 + Math.floor(union.plausibility / 30)] *)
Definition getDissolveReward (union : UnionEntity.t) : Z :=
  1 + F64.floor (F64.div (F64.of_Z (UnionEntity.plausibility union))
                         (F64.of_Z 30)).

(** [1 + Math.floor(union.loyalty / 25)] *)
Definition getReassignReward (union : UnionEntity.t) : Z :=
  1 + F64.floor (F64.div (F64.of_Z (UnionEntity.loyalty union))
                         (F64.of_Z 25)).

(* ================================================================== *)
(** ** engine/effects.ts *)
(* ================================================================== *)

Module Clamp.
Record t : Type := mk { min : Z; max : Z }.
End Clamp.

Module CLAMPS.
Definition paperwork := Clamp.mk 0 10.
Definition patronage := Clamp.mk 0 20.
Definition legitimacy := Clamp.mk 0 100.
Definition auditRisk := Clamp.mk 0 100.
Definition streetHeat := Clamp.mk 0 100.
Definition plausibility := Clamp.mk 0 100.
Definition loyalty := Clamp.mk 0 100.
Definition integrity := Clamp.mk 0 100.
End CLAMPS.

(** [Math.max(min, Math.min(max, value))] *)
Definition clamp (value min max : Z) : Z := Z.max min (Z.min max value).

(** [effects.field ?? 0] *)
Definition orZero (x : option Z) : Z :=
  match x with Some v => v | None => 0 end.

(** [Partial<Resources>] *)
Module ResourceEffects.
Record t : Type := mk {
  paperwork : option Z;
  patronage : option Z;
  legitimacy : option Z;
  auditRisk : option Z;
  streetHeat : option Z
}.
Definition empty : t := mk None None None None None.
End ResourceEffects.

Definition applyResourceEffects (resources : Resources.t)
    (effects : ResourceEffects.t) : Resources.t :=
  Resources.mk
    (clamp (Resources.paperwork resources
            + orZero (ResourceEffects.paperwork effects))
           (Clamp.min CLAMPS.paperwork) (Clamp.max CLAMPS.paperwork))
    (clamp (Resources.patronage resources
            + orZero (ResourceEffects.patronage effects))
           (Clamp.min CLAMPS.patronage) (Clamp.max CLAMPS.patronage))
    (clamp (Resources.legitimacy resources
            + orZero (ResourceEffects.legitimacy effects))
           (Clamp.min CLAMPS.legitimacy) (Clamp.max CLAMPS.legitimacy))
    (clamp (Resources.auditRisk resources
            + orZero (ResourceEffects.auditRisk effects))
           (Clamp.min CLAMPS.auditRisk) (Clamp.max CLAMPS.auditRisk))
    (clamp (Resources.streetHeat resources
            + orZero (ResourceEffects.streetHeat effects))
           (Clamp.min CLAMPS.streetHeat) (Clamp.max CLAMPS.streetHeat)).

Module UnionStatEffects.
Record t : Type := mk {
  plausibility : option Z;
  loyalty : option Z;
  integrity : option Z
}.
End UnionStatEffects.

(** [{ ...union, plausibility: p, loyalty: l, integrity: i }] *)
Definition withStats (union : UnionEntity.t) (p l i : Z) : UnionEntity.t :=
  UnionEntity.mk (UnionEntity.id union) (UnionEntity.name union)
    (UnionEntity.sector union) p l i (UnionEntity.maintenanceCost union)
    (UnionEntity.tags union) (UnionEntity.isIncubated union)
    (UnionEntity.isLicensed union) (UnionEntity.isCracked union)
    (UnionEntity.incubationMode union).

(** [{ ...union, isCracked: c, isLicensed: l }] *)
Definition withStatus (union : UnionEntity.t) (cracked licensed : bool)
    : UnionEntity.t :=
  UnionEntity.mk (UnionEntity.id union) (UnionEntity.name union)
    (UnionEntity.sector union) (UnionEntity.plausibility union)
    (UnionEntity.loyalty union) (UnionEntity.integrity union)
    (UnionEntity.maintenanceCost union) (UnionEntity.tags union)
    (UnionEntity.isIncubated union) licensed cracked
    (UnionEntity.incubationMode union).

Definition applyUnionEffects (union : UnionEntity.t)
    (effects : UnionStatEffects.t) : UnionEntity.t :=
  withStats union
    (clamp (UnionEntity.plausibility union
            + orZero (UnionStatEffects.plausibility effects))
           (Clamp.min CLAMPS.plausibility) (Clamp.max CLAMPS.plausibility))
    (clamp (UnionEntity.loyalty union
            + orZero (UnionStatEffects.loyalty effects))
           (Clamp.min CLAMPS.loyalty) (Clamp.max CLAMPS.loyalty))
    (clamp (UnionEntity.integrity union
            + orZero (UnionStatEffects.integrity effects))
           (Clamp.min CLAMPS.integrity) (Clamp.max CLAMPS.integrity)).

Definition isShell (u : UnionEntity.t) : bool :=
  includes "compliant" (UnionEntity.tags u) || includes "shell" (UnionEntity.tags u).

Definition calculateUpkeep (state : RunState) : ResourceEffects.t :=
  let unionCount := Z.of_nat (length (Rec.keys (unions state))) in
  let federationCount := Z.of_nat (length (Rec.keys (federations state))) in
  let unions := Rec.values (unions state) in
  let shellCount := Z.of_nat (length (filter isShell unions)) in
  let auditIncrease :=
    F64.floor (F64.div (F64.of_Z unionCount) (F64.of_Z 5))
    + federationCount + shellCount in
  let paperworkRefresh := 6 - Resources.paperwork (resources state) in
  let totalDelegates := recognizedDelegates (federations state) in
  let patronageIncome := 7 + totalDelegates * 1 in
  let streetHeatDecay :=
    if 0 <? Resources.streetHeat (resources state) then -2 else 0 in
  let legitimacyDecay := if 2 <? shellCount then - (shellCount - 2) else 0 in
  ResourceEffects.mk (Some paperworkRefresh) (Some patronageIncome)
    (Some legitimacyDecay) (Some auditIncrease) (Some streetHeatDecay).

(** What the loop of [processCrackChecks] holds: the copy of the unions,
    the two penalties, and the generator. *)
Record CrackState : Type := mkCrackState {
  crack_unions : Rec.t UnionEntity.t;
  legitimacyPenalty : Z;
  auditPenalty : Z;
  crack_rng : Z
}.

(** [for (const unionId of Object.keys(unions)) { ... }].  A key of the
    record always has a value; the loop does nothing where it has none. *)
Fixpoint crackLoop (keys : list string) (s : CrackState) : CrackState :=
  match keys with
  | [] => s
  | unionId :: keys' =>
      match Rec.get unionId (crack_unions s) with
      | None => crackLoop keys' s
      | Some union =>
          if UnionEntity.isCracked union || negb (UnionEntity.isLicensed union)
          then crackLoop keys' s
          else
            let crackRisk := getCrackRisk union in
            let '(roll, a) := Rng.nextInt 1 100 (crack_rng s) in
            if roll <=? crackRisk then
              crackLoop keys'
                (mkCrackState
                   (Rec.set unionId (withStatus union true false) (crack_unions s))
                   (legitimacyPenalty s - 2) (auditPenalty s + 2) a)
            else
              crackLoop keys'
                (mkCrackState (crack_unions s) (legitimacyPenalty s)
                              (auditPenalty s) a)
      end
  end.

(** The state of the loop of [processCrackChecks] when it ends. *)
Definition crackChecks (state : RunState) : CrackState :=
  crackLoop (Rec.keys (unions state))
    (mkCrackState (unions state) 0 0 (Rng.createRNG (rngCursor state))).

(** [processCrackChecks(state)] returns the unions and the penalties, and
    drops the generator. *)
Definition processCrackChecks (state : RunState)
    : Rec.t UnionEntity.t * ResourceEffects.t :=
  let s := crackChecks state in
  (crack_unions s,
   ResourceEffects.mk None None (Some (legitimacyPenalty s))
                      (Some (auditPenalty s)) None).

Definition applyCycleEnd (state : RunState) : RunState :=
  let upkeep := calculateUpkeep state in
  let '(updatedUnions, penalties) := processCrackChecks state in
  let combinedEffects :=
    ResourceEffects.mk
      (ResourceEffects.paperwork upkeep)
      (ResourceEffects.patronage upkeep)
      (Some (orZero (ResourceEffects.legitimacy upkeep)
             + orZero (ResourceEffects.legitimacy penalties)))
      (Some (orZero (ResourceEffects.auditRisk upkeep)
             + orZero (ResourceEffects.auditRisk penalties)))
      (ResourceEffects.streetHeat upkeep) in
  let newResources := applyResourceEffects (resources state) combinedEffects in
  mkRunState (seed state) (rngCursor state) (cycle state + 1) (maxCycles state)
    (phase state) newResources updatedUnions (federations state)
    (eventHistory state) (currentEventId state) (unlockedFootnotes state)
    (ending state) (showTips state) false.

(* ================================================================== *)
(** ** engine/generator.ts *)
(* ================================================================== *)

Module Generator.
Local Open Scope string_scope.

Module NAME_PARTS.
Definition prefixes : list string :=
  [ "United"; "Democratic"; "Free"; "National"; "Workers'"; "People's";
    "Progressive"; "Independent"; "Sovereign"; "Authentic"; "Reformed";
    "New" ].
Definition sectors : list string :=
  [ "Textile"; "Transport"; "Municipal"; "Agricultural"; "Hospitality";
    "Construction"; "Maritime"; "Printing"; "Banking";
    "Telecommunications"; "Postal"; "Railway" ].
Definition suffixes : list string :=
  [ "Federation"; "Syndicate"; "Brotherhood"; "Assembly"; "Council";
    "Alliance"; "Union"; "Collective"; "Association"; "Movement" ].
Definition modifiers : list string :=
  [ "of Greater Beirut"; "of the North"; "of the South"; "of the Coast";
    "of Mount Lebanon"; "(Reformed)"; "(Unified)"; "(Traditional)";
    "(Modernized)"; EmptyString; EmptyString; EmptyString ].
End NAME_PARTS.

Definition FEDERATION_PREFIXES : list string :=
  [ "General"; "Central"; "National"; "United"; "Federated"; "Allied";
    "Combined" ].

Definition FEDERATION_SUFFIXES : list string :=
  [ "Labor Coalition"; "Workers' Federation"; "Trade Council";
    "Syndicate Alliance"; "Union Bloc" ].

(** The generator functions run on a generator object and on the world. *)
Definition Gen (A : Type) : Type := M (Z * World) A.

Definition onRng {A} (c : M Z A) : Gen A := fun '(a, w) =>
  match c a with
  | Some (x, a') => Some (x, (a', w))
  | None => None
  end.

Definition onRngTotal {A} (c : Z -> A * Z) : Gen A := fun '(a, w) =>
  let '(x, a') := c a in Some (x, (a', w)).

Definition onWorld {A} (c : World -> A * World) : Gen A := fun '(a, w) =>
  let '(x, w') := c w in Some (x, (a, w')).

(** [`union_${Date.now()}_${++idCounter}`] *)
Definition generateId (w : World) : string * World :=
  let '(now, w) := Date_now w in
  let '(n, w) := incr_idCounter w in
  ("union_" ++ showN now ++ "_" ++ showN n, w).

Definition isSpace (c : ascii) : bool :=
  let n := nat_of_ascii c in
  (Nat.eqb n 32 || (Nat.leb 9 n && Nat.leb n 13))%bool.

Fixpoint trimStart (s : string) : string :=
  match s with
  | String c s' => if isSpace c then trimStart s' else s
  | EmptyString => s
  end.

Fixpoint trimEnd (s : string) : string :=
  match s with
  | String c s' =>
      match trimEnd s' with
      | EmptyString => if isSpace c then EmptyString else String c EmptyString
      | t => String c t
      end
  | EmptyString => s
  end.

(** [s.trim()], on the ASCII strings of the tables. *)
Definition trim (s : string) : string := trimEnd (trimStart s).

Definition generateUnionName : Gen (string * string) :=
  prefix <- onRng (Rng.pick NAME_PARTS.prefixes) ;;
  sector <- onRng (Rng.pick NAME_PARTS.sectors) ;;
  suffix <- onRng (Rng.pick NAME_PARTS.suffixes) ;;
  modifier <- onRng (Rng.pick NAME_PARTS.modifiers) ;;
  let name :=
    match modifier with
    | EmptyString => prefix ++ " " ++ sector ++ " " ++ suffix
    | _ => prefix ++ " " ++ sector ++ " " ++ suffix ++ " " ++ modifier
    end in
  ret (trim name, sector).

Record Stats : Type := mkStats {
  st_plausibility : Z;
  st_loyalty : Z;
  st_integrity : Z;
  st_maintenanceCost : Z;
  st_tags : list string
}.

Definition generateUnionStats : Gen Stats :=
  archetype <- onRng (Rng.weightedPick
                        ["shell"; "captured"; "authentic"; "volatile"]
                        [40; 30; 20; 10]%Z) ;;
  if String.eqb archetype "shell" then
    plausibility <- onRngTotal (Rng.nextInt 70 95) ;;
    loyalty <- onRngTotal (Rng.nextInt 80 100) ;;
    integrity <- onRngTotal (Rng.nextInt 5 20) ;;
    ret (mkStats plausibility loyalty integrity 0 [archetype; "compliant"])
  else if String.eqb archetype "captured" then
    plausibility <- onRngTotal (Rng.nextInt 50 75) ;;
    loyalty <- onRngTotal (Rng.nextInt 60 85) ;;
    integrity <- onRngTotal (Rng.nextInt 30 50) ;;
    ret (mkStats plausibility loyalty integrity 1 [archetype])
  else if String.eqb archetype "authentic" then
    plausibility <- onRngTotal (Rng.nextInt 30 60) ;;
    loyalty <- onRngTotal (Rng.nextInt 20 50) ;;
    integrity <- onRngTotal (Rng.nextInt 70 95) ;;
    maintenanceCost <- onRngTotal (Rng.nextInt 3 5) ;;
    ret (mkStats plausibility loyalty integrity maintenanceCost
                 [archetype; "restless"])
  else if String.eqb archetype "volatile" then
    plausibility <- onRngTotal (Rng.nextInt 20 80) ;;
    loyalty <- onRngTotal (Rng.nextInt 10 40) ;;
    integrity <- onRngTotal (Rng.nextInt 40 70) ;;
    maintenanceCost <- onRngTotal (Rng.nextInt 2 4) ;;
    ret (mkStats plausibility loyalty integrity maintenanceCost
                 [archetype; "unpredictable"])
  else
    ret (mkStats 50 50 50 2 [archetype]).

(** [generateUnion(rng)], as the reducer calls it: on a generator object. *)
Definition generateUnion : Gen UnionEntity.t :=
  '(name, sector) <- generateUnionName ;;
  stats <- generateUnionStats ;;
  id <- onWorld generateId ;;
  ret (UnionEntity.mk id name sector (st_plausibility stats)
         (st_loyalty stats) (st_integrity stats) (st_maintenanceCost stats)
         (st_tags stats) false false false None).

Definition generateFederationName (unions : list UnionEntity.t) : Gen string :=
  prefix <- onRng (Rng.pick FEDERATION_PREFIXES) ;;
  suffix <- onRng (Rng.pick FEDERATION_SUFFIXES) ;;
  match unions with
  | [] => ret (prefix ++ " " ++ suffix)
  | _ :: _ =>
      (* [rng.next() > 0.5]: the double is [u / 2^32] *)
      u <- onRngTotal Rng.next ;;
      if (2^31 <? u)%Z then
        member <- onRng (Rng.pick unions) ;;
        ret (prefix ++ " " ++ UnionEntity.sector member ++ " " ++ suffix)
      else ret (prefix ++ " " ++ suffix)
  end.

(** [generateUnions(rng, count)]: [Array.from({ length: count }, ...)]. *)
Fixpoint generateUnions (count : nat) : Gen (list UnionEntity.t) :=
  match count with
  | O => ret []
  | S count' =>
      union <- generateUnion ;;
      rest <- generateUnions count' ;;
      ret (union :: rest)
  end.

End Generator.

(* ================================================================== *)
(** ** engine/reducer.ts *)
(* ================================================================== *)

Inductive GameAction : Type :=
| RUN_START (seed : option Z) (showTips : option bool)
| RUN_RESET
| TURN_ADVANCE
| UNION_GENERATE (count : Z)
| UNION_LICENSE (unionId : string)
| UNION_LICENSE_RESULT (unionId : string) (success : bool)
| UNION_INCUBATE (unionId : string) (mode : IncubationMode)
| UNION_DISSOLVE (unionId : string)
| UNION_REASSIGN (unionId : string)
| FEDERATION_CREATE (unionIds : list string)
| EVENT_DRAW (eventId : string)
| EVENT_CHOOSE (eventId choiceId : string) (effects : ResourceEffects.t)
               (unlocks : option (list string))
| EVENT_DISMISS
| ELECTION_RESOLVE
| TUTORIAL_DISMISS
| SET_PHASE (phase : GamePhase).

Module COSTS.
Definition license_paperwork : Z := 1.
Definition license_patronage : Z := 1.
Definition incubate_patronage : Z := 2.
Definition generateUnions_paperwork : Z := 1.
Definition createFederation_paperwork : Z := 2.
Definition createFederation_patronage : Z := 3.
End COSTS.

(** The spreads [{ ...state, field: value }] of the reducer. *)
Definition with_phase (p : GamePhase) (s : RunState) : RunState :=
  mkRunState (seed s) (rngCursor s) (cycle s) (maxCycles s) p (resources s)
    (unions s) (federations s) (eventHistory s) (currentEventId s)
    (unlockedFootnotes s) (ending s) (showTips s) (unionsGeneratedInCycle s).

Definition with_ending (e : option Ending) (s : RunState) : RunState :=
  mkRunState (seed s) (rngCursor s) (cycle s) (maxCycles s) (phase s)
    (resources s) (unions s) (federations s) (eventHistory s)
    (currentEventId s) (unlockedFootnotes s) e (showTips s)
    (unionsGeneratedInCycle s).

Definition with_resources (r : Resources.t) (s : RunState) : RunState :=
  mkRunState (seed s) (rngCursor s) (cycle s) (maxCycles s) (phase s) r
    (unions s) (federations s) (eventHistory s) (currentEventId s)
    (unlockedFootnotes s) (ending s) (showTips s) (unionsGeneratedInCycle s).

Definition with_unions (u : Rec.t UnionEntity.t) (s : RunState) : RunState :=
  mkRunState (seed s) (rngCursor s) (cycle s) (maxCycles s) (phase s)
    (resources s) u (federations s) (eventHistory s) (currentEventId s)
    (unlockedFootnotes s) (ending s) (showTips s) (unionsGeneratedInCycle s).

Definition with_federations (f : Rec.t FederationEntity.t) (s : RunState)
    : RunState :=
  mkRunState (seed s) (rngCursor s) (cycle s) (maxCycles s) (phase s)
    (resources s) (unions s) f (eventHistory s) (currentEventId s)
    (unlockedFootnotes s) (ending s) (showTips s) (unionsGeneratedInCycle s).

Definition with_rngCursor (c : Z) (s : RunState) : RunState :=
  mkRunState (seed s) c (cycle s) (maxCycles s) (phase s) (resources s)
    (unions s) (federations s) (eventHistory s) (currentEventId s)
    (unlockedFootnotes s) (ending s) (showTips s) (unionsGeneratedInCycle s).

Definition with_unionsGeneratedInCycle (b : bool) (s : RunState) : RunState :=
  mkRunState (seed s) (rngCursor s) (cycle s) (maxCycles s) (phase s)
    (resources s) (unions s) (federations s) (eventHistory s)
    (currentEventId s) (unlockedFootnotes s) (ending s) (showTips s) b.

Definition with_currentEventId (e : option string) (s : RunState) : RunState :=
  mkRunState (seed s) (rngCursor s) (cycle s) (maxCycles s) (phase s)
    (resources s) (unions s) (federations s) (eventHistory s) e
    (unlockedFootnotes s) (ending s) (showTips s) (unionsGeneratedInCycle s).

Definition with_eventHistory (h : list string) (s : RunState) : RunState :=
  mkRunState (seed s) (rngCursor s) (cycle s) (maxCycles s) (phase s)
    (resources s) (unions s) (federations s) h (currentEventId s)
    (unlockedFootnotes s) (ending s) (showTips s) (unionsGeneratedInCycle s).

Definition with_unlockedFootnotes (l : list string) (s : RunState) : RunState :=
  mkRunState (seed s) (rngCursor s) (cycle s) (maxCycles s) (phase s)
    (resources s) (unions s) (federations s) (eventHistory s)
    (currentEventId s) l (ending s) (showTips s) (unionsGeneratedInCycle s).

Definition with_showTips (b : bool) (s : RunState) : RunState :=
  mkRunState (seed s) (rngCursor s) (cycle s) (maxCycles s) (phase s)
    (resources s) (unions s) (federations s) (eventHistory s)
    (currentEventId s) (unlockedFootnotes s) (ending s) b
    (unionsGeneratedInCycle s).

(** [Object.values(state.federations).some(f => f.unionIds.includes(id))] *)
Definition isInFederation (state : RunState) (unionId : string) : bool :=
  existsb (fun f => includes unionId (FederationEntity.unionIds f))
          (Rec.values (federations state)).

(** The body of the loop of [UNION_GENERATE]. *)
Definition generateInto (newUnions : Rec.t UnionEntity.t)
    : Generator.Gen (Rec.t UnionEntity.t) :=
  union <- Generator.generateUnion ;;
  ret (Rec.set (UnionEntity.id union) union newUnions).

(** The two updated unions of [UNION_INCUBATE]. *)
Definition incubated (union : UnionEntity.t) (mode : IncubationMode)
    : UnionEntity.t :=
  match mode with
  | mode_paperwork =>
      UnionEntity.mk (UnionEntity.id union) (UnionEntity.name union)
        (UnionEntity.sector union)
        (Z.min 100 (UnionEntity.plausibility union + 15))
        (Z.max 0 (UnionEntity.loyalty union - 10))
        (Z.min 100 (UnionEntity.integrity union + 10))
        (UnionEntity.maintenanceCost union) (UnionEntity.tags union)
        true (UnionEntity.isLicensed union) (UnionEntity.isCracked union)
        (Some mode_paperwork)
  | mode_discipline =>
      UnionEntity.mk (UnionEntity.id union) (UnionEntity.name union)
        (UnionEntity.sector union)
        (Z.max 0 (UnionEntity.plausibility union - 10))
        (Z.min 100 (UnionEntity.loyalty union + 15))
        (Z.min 100 (UnionEntity.integrity union + 10))
        (UnionEntity.maintenanceCost union) (UnionEntity.tags union)
        true (UnionEntity.isLicensed union) (UnionEntity.isCracked union)
        (Some mode_discipline)
  end.

(** [{ ...union, isLicensed: true }] *)
Definition licensed (union : UnionEntity.t) : UnionEntity.t :=
  withStatus union (UnionEntity.isCracked union) true.

(** The tail shared by [TURN_ADVANCE] and [EVENT_CHOOSE]: upkeep, then
    the loss check. *)
Definition endCycle (state : RunState) : RunState :=
  let newState := applyCycleEnd state in
  match checkLoseCondition newState with
  | Some _ => with_ending (Some collapse) (with_phase ended newState)
  | None => with_phase playing newState
  end.

Definition gameReducer (state : RunState) (action : GameAction) (w : World)
    : option (RunState * World) :=
  match action with
  | RUN_START seed showTips =>
      let '(initialState, w) := createInitialState seed showTips w in
      Some (with_phase playing initialState, w)

  | RUN_RESET =>
      Some (createInitialState None None w)

  | TURN_ADVANCE =>
      if maxCycles state <=? cycle state then
        Some (with_phase election state, w)
      else Some (endCycle state, w)

  | UNION_GENERATE count =>
      if (Resources.paperwork (resources state) <? COSTS.generateUnions_paperwork)
         || unionsGeneratedInCycle state
      then Some (state, w)
      else
        match repeatM (Z.to_nat count) generateInto (unions state)
                      (Rng.createRNG (rngCursor state), w) with
        | None => None
        | Some (newUnions, (rng, w)) =>
            Some (with_resources
                    (applyResourceEffects (resources state)
                       (ResourceEffects.mk
                          (Some (- COSTS.generateUnions_paperwork))
                          None None None None))
                    (with_unionsGeneratedInCycle true
                       (with_rngCursor (Rng.getCursor rng)
                          (with_unions newUnions state))),
                  w)
        end

  | UNION_LICENSE unionId =>
      match Rec.get unionId (unions state) with
      | None => Some (state, w)
      | Some union =>
          if UnionEntity.isLicensed union || UnionEntity.isCracked union
          then Some (state, w)
          else if Resources.paperwork (resources state) <? COSTS.license_paperwork
          then Some (state, w)
          else
            let rng := Rng.createRNG (rngCursor state) in
            let licenseChance := getLicenseChance union in
            let '(roll, rng) := Rng.nextInt 1 100 rng in
            let success := roll <=? licenseChance in
            if success then
              Some (with_rngCursor (Rng.getCursor rng)
                      (with_resources
                         (applyResourceEffects (resources state)
                            (ResourceEffects.mk
                               (Some (- COSTS.license_paperwork))
                               None None None None))
                         (with_unions
                            (Rec.set unionId (licensed union) (unions state))
                            state)),
                    w)
            else
              Some (with_rngCursor (Rng.getCursor rng)
                      (with_resources
                         (applyResourceEffects (resources state)
                            (ResourceEffects.mk
                               (Some (- COSTS.license_paperwork))
                               None None (Some 3) None))
                         state),
                    w)
      end

  | UNION_INCUBATE unionId mode =>
      match Rec.get unionId (unions state) with
      | None => Some (state, w)
      | Some union =>
          if UnionEntity.isIncubated union || UnionEntity.isCracked union
          then Some (state, w)
          else if Resources.patronage (resources state) <? COSTS.incubate_patronage
          then Some (state, w)
          else
            let updatedUnion := incubated union mode in
            let resourceEffects :=
              ResourceEffects.mk None (Some (- COSTS.incubate_patronage)) None None
                match mode with
                | mode_paperwork => Some 2
                | mode_discipline => None
                end in
            Some (with_resources
                    (applyResourceEffects (resources state) resourceEffects)
                    (with_unions (Rec.set unionId updatedUnion (unions state))
                                 state),
                  w)
      end

  | UNION_DISSOLVE unionId =>
      match Rec.get unionId (unions state) with
      | None => Some (state, w)
      | Some union =>
          if isInFederation state unionId then Some (state, w)
          else
            let paperworkReward := getDissolveReward union in
            let remainingUnions := Rec.remove unionId (unions state) in
            Some (with_resources
                    (applyResourceEffects (resources state)
                       (ResourceEffects.mk (Some paperworkReward)
                                           None None None None))
                    (with_unions remainingUnions state),
                  w)
      end

  | UNION_REASSIGN unionId =>
      match Rec.get unionId (unions state) with
      | None => Some (state, w)
      | Some union =>
          if isInFederation state unionId then Some (state, w)
          else
            let patronageReward := getReassignReward union in
            let remainingUnions := Rec.remove unionId (unions state) in
            Some (with_resources
                    (applyResourceEffects (resources state)
                       (ResourceEffects.mk None (Some patronageReward)
                                           None None None))
                    (with_unions remainingUnions state),
                  w)
      end

  | FEDERATION_CREATE unionIds =>
      if (length unionIds <? 2)%nat then Some (state, w)
      else
        let unions := lookupAll unionIds (unions state) in
        if negb (Nat.eqb (length unions) (length unionIds)) then Some (state, w)
        else if negb (forallb UnionEntity.isLicensed unions) then Some (state, w)
        else
          let existingFederatedUnions :=
            flat_map FederationEntity.unionIds
                     (Rec.values (federations state)) in
          if existsb (fun id => includes id existingFederatedUnions) unionIds
          then Some (state, w)
          else if (Resources.paperwork (resources state)
                     <? COSTS.createFederation_paperwork)
                  || (Resources.patronage (resources state)
                     <? COSTS.createFederation_patronage)
          then Some (state, w)
          else
            match Generator.generateFederationName unions
                    (Rng.createRNG (rngCursor state), w) with
            | None => None
            | Some (name, (rng, w)) =>
                let '(now, w) := Date_now w in
                let federation :=
                  FederationEntity.mk (String.append "fed_" (showN now)) name
                    unionIds 2 recognized 50 in
                Some (with_resources
                        (applyResourceEffects (resources state)
                           (ResourceEffects.mk
                              (Some (- COSTS.createFederation_paperwork))
                              (Some (- COSTS.createFederation_patronage))
                              None (Some 5) None))
                        (with_rngCursor (Rng.getCursor rng)
                           (with_federations
                              (Rec.set (FederationEntity.id federation)
                                       federation (federations state))
                              state)),
                      w)
            end

  | EVENT_DRAW eventId =>
      Some (with_currentEventId (Some eventId) (with_phase event state), w)

  | EVENT_CHOOSE eventId choiceId effects unlocks =>
      let newResources := applyResourceEffects (resources state) effects in
      let newUnlocks :=
        match unlocks with
        | Some l => dedup (unlockedFootnotes state ++ l)
        | None => unlockedFootnotes state
        end in
      let intermediateState :=
        with_currentEventId None
          (with_eventHistory (eventHistory state ++ [eventId])
             (with_unlockedFootnotes newUnlocks
                (with_resources newResources state))) in
      match checkLoseCondition intermediateState with
      | Some _ =>
          Some (with_ending (Some collapse) (with_phase ended intermediateState),
                w)
      | None =>
          if maxCycles intermediateState <=? cycle intermediateState then
            Some (with_phase election intermediateState, w)
          else Some (endCycle intermediateState, w)
      end

  | EVENT_DISMISS =>
      Some (with_currentEventId None (with_phase playing state), w)

  | ELECTION_RESOLVE =>
      let totalDelegates := recognizedDelegates (federations state) in
      let ending := if 6 <=? totalDelegates then capture else collapse in
      Some (with_ending (Some ending) (with_phase ended state), w)

  | SET_PHASE phase =>
      Some (with_phase phase state, w)

  | TUTORIAL_DISMISS =>
      Some (with_showTips false state, w)

  | UNION_LICENSE_RESULT _ _ => Some (state, w)
  end.

(* ================================================================== *)
(** ** ui/screens/ElectionNight.tsx: the delegate rolls *)
(* ================================================================== *)

Module ElectionNight.

Definition DELEGATE_THRESHOLD : Z := 6.

Record DelegateRoll : Type := mkDelegateRoll {
  federationId : string;
  federationName : string;
  expected : Z;
  secured : Z;
  rolls : list bool
}.

(** [for (let i = 0; i < 2; i++) { ... }]: the rolls pushed so far, the
    delegates secured so far, and the generator. *)
Fixpoint rollDelegates (n : nat) (loyaltyPercent : spec_float)
    (delegateRolls : list bool) (secured : Z) (rng : Z)
    : list bool * Z * Z :=
  match n with
  | O => (delegateRolls, secured, rng)
  | S n' =>
      let '(roll, rng) := Rng.nextInt 1 100 rng in
      let success := F64.leb (F64.of_Z roll) loyaltyPercent in
      rollDelegates n' loyaltyPercent (delegateRolls ++ [success])
        (if success then secured + 1 else secured) rng
  end.

(** [for (const federation of federations) { ... }] *)
Fixpoint rollFederations (federations : list FederationEntity.t)
    (unions : Rec.t UnionEntity.t) (rolls : list DelegateRoll) (rng : Z)
    : list DelegateRoll * Z :=
  match federations with
  | [] => (rolls, rng)
  | federation :: rest =>
      if negb (is_recognized federation)
      then rollFederations rest unions rolls rng
      else
        let reliability := getFederationReliability federation unions in
        let loyaltyPercent :=
          F64.mul (F64.div reliability (F64.of_Z 2)) (F64.of_Z 100) in
        let '(delegateRolls, secured, rng) :=
          rollDelegates 2 loyaltyPercent [] 0 rng in
        rollFederations rest unions
          (rolls ++ [mkDelegateRoll (FederationEntity.id federation)
                       (FederationEntity.name federation) 2 secured
                       delegateRolls])
          rng
  end.

(** The rolls that the effect hook stores when the screen mounts. *)
Definition delegateRolls (state : RunState) : list DelegateRoll :=
  fst (rollFederations (Rec.values (federations state)) (unions state) []
         (Rng.createRNG (rngCursor state + 999))).

Definition expectedDelegates (state : RunState) : Z :=
  getTotalDelegates state.

Definition securedDelegates (state : RunState) : Z :=
  fold_left (fun sum roll => sum + secured roll) (delegateRolls state) 0.

(** [willWin] once the rolls are in. *)
Definition willWin (state : RunState) : bool :=
  DELEGATE_THRESHOLD <=? securedDelegates state.

End ElectionNight.

(* ================================================================== *)
(** ** content/types.ts, content/loadContent.ts, content/schemas.ts *)
(* ================================================================== *)

Module EventConditions.
Record t : Type := mk {
  patronageMin : option Z;
  patronageMax : option Z;
  legitimacyMin : option Z;
  legitimacyMax : option Z;
  auditRiskMin : option Z;
  auditRiskMax : option Z;
  streetHeatMin : option Z;
  streetHeatMax : option Z;
  cycleMin : option Z;
  cycleMax : option Z;
  federationCountMin : option Z;
  unionCountMin : option Z
}.
End EventConditions.

Module EventChoice.
Record t : Type := mk {
  id : string;
  label : string;
  conditions : option EventConditions.t;
  effects : ResourceEffects.t;
  unlocks : option (list string);
  outcome : option string
}.
End EventChoice.

Inductive EventCategory : Type :=
  cat_audit | cat_political | cat_labor | cat_economic | cat_media | cat_general.

(** The draw weight is kept to the integers, as [weightedPick] is. *)
Module EventCard.
Record t : Type := mk {
  id : string;
  category : EventCategory;
  headline : string;
  flavor : string;
  image : option string;
  weight : Z;
  conditions : option EventConditions.t;
  choices : list EventChoice.t
}.
End EventCard.

Module FootnoteCard.
Record t : Type := mk {
  id : string;
  title : string;
  summary : string;
  content : string;
  era : string;
  date : string;
  source : option string
}.
End FootnoteCard.

Module Content.

(** [bound !== undefined && value < bound] *)
Definition below (value : Z) (bound : option Z) : bool :=
  match bound with
  | Some b => value <? b
  | None => false
  end.

(** [bound !== undefined && value > bound] *)
Definition above (value : Z) (bound : option Z) : bool :=
  match bound with
  | Some b => b <? value
  | None => false
  end.

Definition checkConditions (conditions : option EventConditions.t)
    (state : RunState) : bool :=
  match conditions with
  | None => true
  | Some c =>
      let r := resources state in
      if below (Resources.patronage r) (EventConditions.patronageMin c) then false
      else if above (Resources.patronage r) (EventConditions.patronageMax c) then false
      else if below (Resources.legitimacy r) (EventConditions.legitimacyMin c) then false
      else if above (Resources.legitimacy r) (EventConditions.legitimacyMax c) then false
      else if below (Resources.auditRisk r) (EventConditions.auditRiskMin c) then false
      else if above (Resources.auditRisk r) (EventConditions.auditRiskMax c) then false
      else if below (Resources.streetHeat r) (EventConditions.streetHeatMin c) then false
      else if above (Resources.streetHeat r) (EventConditions.streetHeatMax c) then false
      else if below (cycle state) (EventConditions.cycleMin c) then false
      else if above (cycle state) (EventConditions.cycleMax c) then false
      else if below (Z.of_nat (length (Rec.keys (federations state))))
                    (EventConditions.federationCountMin c) then false
      else if below (Z.of_nat (length (Rec.keys (unions state))))
                    (EventConditions.unionCountMin c) then false
      else true
  end.

Definition checkChoiceConditions (conditions : option EventConditions.t)
    (state : RunState) : bool :=
  checkConditions conditions state.

Definition getEligibleEvents (events : list EventCard.t) (state : RunState)
    : list EventCard.t :=
  filter (fun card =>
            if negb (checkConditions (EventCard.conditions card) state)
            then false
            else
              existsb (fun choice =>
                         checkChoiceConditions (EventChoice.conditions choice)
                                               state)
                      (EventCard.choices card))
         events.

Definition getEligibleChoices (card : EventCard.t) (state : RunState)
    : list EventChoice.t :=
  filter (fun choice =>
            checkChoiceConditions (EventChoice.conditions choice) state)
         (EventCard.choices card).

(** [drawRandomEvent] of app/GameProvider.tsx, once the content is loaded:
    the action it dispatches, if it dispatches one. *)
Definition drawRandomEvent (events : list EventCard.t) (state : RunState)
    : option (option GameAction) :=
  let eligible := getEligibleEvents events state in
  match eligible with
  | [] => Some None
  | _ :: _ =>
      let rng := Rng.createRNG (rngCursor state) in
      let weights := map EventCard.weight eligible in
      match Rng.weightedPick eligible weights rng with
      | None => None
      | Some (card, _) => Some (Some (EVENT_DRAW (EventCard.id card)))
      end
  end.

(** [chooseEventOption] of app/GameProvider.tsx, once the content is
    loaded: the action it dispatches, if it dispatches one. *)
Definition chooseEventOption (events : list EventCard.t)
    (eventId choiceId : string) : option GameAction :=
  match find (fun e => String.eqb (EventCard.id e) eventId) events with
  | None => None
  | Some card =>
      match find (fun c => String.eqb (EventChoice.id c) choiceId)
                 (EventCard.choices card) with
      | None => None
      | Some choice =>
          Some (EVENT_CHOOSE eventId choiceId (EventChoice.effects choice)
                             (EventChoice.unlocks choice))
      end
  end.

(** The loop over the choices of one event in [runContentSanityChecks]:
    the set of choice ids seen and the errors pushed. *)
Fixpoint checkChoiceIds (eventId : string) (choices : list EventChoice.t)
    (choiceIds errors : list string) : list string * list string :=
  match choices with
  | [] => (choiceIds, errors)
  | choice :: rest =>
      let errors :=
        if includes (EventChoice.id choice) choiceIds
        then errors ++ [String.append "Duplicate choice ID in event "
                          (String.append eventId
                             (String.append ": " (EventChoice.id choice)))]
        else errors in
      checkChoiceIds eventId rest (EventChoice.id choice :: choiceIds) errors
  end.

(** The first loop of [runContentSanityChecks], over the events. *)
Fixpoint checkEventIds (events : list EventCard.t)
    (eventIds errors : list string) : list string * list string :=
  match events with
  | [] => (eventIds, errors)
  | card :: rest =>
      let errors :=
        if includes (EventCard.id card) eventIds
        then errors ++ [String.append "Duplicate event ID: " (EventCard.id card)]
        else errors in
      let eventIds := EventCard.id card :: eventIds in
      let '(_, errors) :=
        checkChoiceIds (EventCard.id card) (EventCard.choices card) [] errors in
      checkEventIds rest eventIds errors
  end.

(** The second loop, over the footnotes. *)
Fixpoint checkFootnoteIds (footnotes : list FootnoteCard.t)
    (footnoteIds errors : list string) : list string * list string :=
  match footnotes with
  | [] => (footnoteIds, errors)
  | footnote :: rest =>
      let errors :=
        if includes (FootnoteCard.id footnote) footnoteIds
        then errors ++ [String.append "Duplicate footnote ID: "
                          (FootnoteCard.id footnote)]
        else errors in
      checkFootnoteIds rest (FootnoteCard.id footnote :: footnoteIds) errors
  end.

(** The loop over the unlocks of one choice. *)
Fixpoint checkUnlockIds (eventId choiceId : string) (unlocks : list string)
    (footnoteIds errors : list string) : list string :=
  match unlocks with
  | [] => errors
  | unlockId :: rest =>
      let errors :=
        if negb (includes unlockId footnoteIds)
        then errors ++ [String.append "Event "
                          (String.append eventId
                             (String.append " choice "
                                (String.append choiceId
                                   (String.append " unlocks unknown footnote: "
                                                  unlockId))))]
        else errors in
      checkUnlockIds eventId choiceId rest footnoteIds errors
  end.

(** The third loop, over the choices of one event and over the events. *)
Fixpoint checkChoiceUnlocks (eventId : string) (choices : list EventChoice.t)
    (footnoteIds errors : list string) : list string :=
  match choices with
  | [] => errors
  | choice :: rest =>
      let errors :=
        match EventChoice.unlocks choice with
        | Some unlocks =>
            checkUnlockIds eventId (EventChoice.id choice) unlocks footnoteIds
                           errors
        | None => errors
        end in
      checkChoiceUnlocks eventId rest footnoteIds errors
  end.

Fixpoint checkEventUnlocks (events : list EventCard.t)
    (footnoteIds errors : list string) : list string :=
  match events with
  | [] => errors
  | card :: rest =>
      checkEventUnlocks rest footnoteIds
        (checkChoiceUnlocks (EventCard.id card) (EventCard.choices card)
                            footnoteIds errors)
  end.

Definition runContentSanityChecks (events : list EventCard.t)
    (footnotes : list FootnoteCard.t) : list string :=
  let '(_, errors) := checkEventIds events [] [] in
  let '(footnoteIds, errors) := checkFootnoteIds footnotes [] errors in
  checkEventUnlocks events footnoteIds errors.

End Content.

(* ================================================================== *)
(** ** Invariants of the data model and sample states *)
(* ================================================================== *)

(** The declared range of every resource (section 3 of the specification). *)
Definition resourcesWithinBounds (r : Resources.t) : Prop :=
  0 <= Resources.paperwork r <= 10 /\
  0 <= Resources.patronage r <= 20 /\
  0 <= Resources.legitimacy r <= 100 /\
  0 <= Resources.auditRisk r <= 100 /\
  0 <= Resources.streetHeat r <= 100.

(** The declared range of the three stats of a union. *)
Definition statsWithinBounds (u : UnionEntity.t) : Prop :=
  0 <= UnionEntity.plausibility u <= 100 /\
  0 <= UnionEntity.loyalty u <= 100 /\
  0 <= UnionEntity.integrity u <= 100.

(** A world whose clock starts at some instant and advances one
    millisecond per reading. *)
Definition sampleWorld : World :=
  mkWorld (fun n => (1700000000000 + N.of_nat n)%N) 0 0 (fun _ => 12345) 0.

(** A union with the given id, stats and licence, otherwise plain. *)
Definition sampleUnion (id : string) (p l i : Z) (isLicensed : bool)
    : UnionEntity.t :=
  UnionEntity.mk id "Free Postal Union" "Postal" p l i 1 ["captured"%string]
    false isLicensed false None.

(** A run in play, in its first cycle, with the given unions and
    federations. *)
Definition sampleState (us : list UnionEntity.t)
    (fs : list FederationEntity.t) : RunState :=
  mkRunState 42 42 1 5 playing DEFAULT_RESOURCES
    (map (fun u => (UnionEntity.id u, u)) us)
    (map (fun f => (FederationEntity.id f, f)) fs)
    [] None [] None false false.

(** The actions that replace the run by a fresh one. *)
Definition startsRun (a : GameAction) : bool :=
  match a with
  | RUN_START _ _ | RUN_RESET => true
  | _ => false
  end.

(** The actions dispatched one after the other, as the shell does. *)
Fixpoint dispatch (actions : list GameAction) (state : RunState) (w : World)
    : option (RunState * World) :=
  match actions with
  | [] => Some (state, w)
  | a :: rest =>
      match gameReducer state a w with
      | Some (state', w') => dispatch rest state' w'
      | None => None
      end
  end.

(** When a federation may be created from the given union ids: at least
    two ids, each naming a licensed union of the state, none a member of a
    federation, and the paperwork and patronage to pay for it. *)
Definition canFederate (st : RunState) (unionIds : list string) : Prop :=
  (2 <= length unionIds)%nat /\
  (forall id, In id unionIds ->
     exists u, Rec.get id (unions st) = Some u /\
               UnionEntity.isLicensed u = true) /\
  (forall id f, In id unionIds -> In f (Rec.values (federations st)) ->
     ~ In id (FederationEntity.unionIds f)) /\
  2 <= Resources.paperwork (resources st) /\
  3 <= Resources.patronage (resources st).

(** The tests of [FEDERATION_CREATE], in the order of the source. *)
Definition federationGuard (st : RunState) (unionIds : list string) : bool :=
  negb (length unionIds <? 2)%nat
  && Nat.eqb (length (lookupAll unionIds (unions st))) (length unionIds)
  && forallb UnionEntity.isLicensed (lookupAll unionIds (unions st))
  && negb (existsb
             (fun id => includes id
                          (flat_map FederationEntity.unionIds
                                    (Rec.values (federations st))))
             unionIds)
  && negb ((Resources.paperwork (resources st) <? 2)
           || (Resources.patronage (resources st) <? 3)).

(** One licensed union, named twice in a request to federate. *)
Definition loneUnionState : RunState :=
  sampleState [sampleUnion "union_1_1" 60 70 40 true] [].

(** The actions whose result has a phase set by the reducer. *)
Definition assignsPhase (a : GameAction) : bool :=
  match a with
  | RUN_START _ _ | RUN_RESET | TURN_ADVANCE | EVENT_DRAW _
  | EVENT_CHOOSE _ _ _ _ | EVENT_DISMISS | ELECTION_RESOLVE | SET_PHASE _ => true
  | _ => false
  end.

(** The phase a cycle end leaves, as [TURN_ADVANCE] and the last part of
    [EVENT_CHOOSE] decide it: [election] once the last cycle is played,
    else [ended] when a lose condition holds after [applyCycleEnd], else
    [playing]. *)
Definition phaseAfterCycle (st : RunState) : GamePhase :=
  if maxCycles st <=? cycle st then election
  else match checkLoseCondition (applyCycleEnd st) with
       | Some _ => ended
       | None => playing
       end.

(** A run that has ended in collapse, with paperwork left. *)
Definition endedState : RunState :=
  mkRunState 42 42 3 5 ended DEFAULT_RESOURCES [] [] [] None [] (Some collapse)
    false false.

(** A run in its second cycle with one licensed union and one unlicensed. *)
Definition crackState : RunState :=
  mkRunState 42 42 2 5 playing DEFAULT_RESOURCES
    [("union_1_1"%string, sampleUnion "union_1_1" 60 70 40 true);
     ("union_1_2"%string, sampleUnion "union_1_2" 55 65 45 false)]
    [] [] None [] None false true.

(** A union that the crack checks roll for. *)
Definition rollsForCrack (u : UnionEntity.t) : Prop :=
  UnionEntity.isLicensed u = true /\ UnionEntity.isCracked u = false.

(** Reading back a number written by [showN]. *)
Definition readN (s : string) : option N :=
  option_map N.of_uint (NilZero.uint_of_string s).

(** Strings of decimal digits. *)
Definition isDigit (c : ascii) : bool :=
  (Nat.leb 48 (nat_of_ascii c) && Nat.leb (nat_of_ascii c) 57)%bool.

Fixpoint digitsOnly (s : string) : bool :=
  match s with
  | EmptyString => true
  | String c s' => (isDigit c && digitsOnly s')%bool
  end.

(** Twelve licensed unions of loyalty 0, federated two by two into six
    recognized federations, on election night. *)
Definition disloyalUnion (n : N) : UnionEntity.t :=
  sampleUnion (String.append "union_1_" (showN n)) 80 0 15 true.

Definition paperFederation (n : N) : FederationEntity.t :=
  FederationEntity.mk (String.append "fed_" (showN n)) "General Labor Coalition"
    [String.append "union_1_" (showN (2 * n - 1));
     String.append "union_1_" (showN (2 * n))]
    2 recognized 50.

Definition electionState : RunState :=
  mkRunState 42 42 5 5 election DEFAULT_RESOURCES
    (map (fun n => (UnionEntity.id (disloyalUnion n), disloyalUnion n))
         [1; 2; 3; 4; 5; 6; 7; 8; 9; 10; 11; 12]%N)
    (map (fun n => (FederationEntity.id (paperFederation n), paperFederation n))
         [1; 2; 3; 4; 5; 6]%N)
    [] None [] None false true.

(** The same world with its clock stopped at one instant. *)
Definition frozenWorld (w : World) (now : N) : World :=
  mkWorld (fun _ => now) (clockReads w) (idCounter w) (entropy w)
          (entropyReads w).

(** The numerators of the next [n] results of [next()]. *)
Fixpoint drawMany (n : nat) (a : Z) : list Z :=
  match n with
  | O => []
  | S n' => let '(u, a') := Rng.next a in u :: drawMany n' a'
  end.

(** The states a run can be in: those that some sequence of actions
    beginning with [RUN_START] leads to, from any state and world. *)
Definition reachable (st' : RunState) : Prop :=
  exists (seed : option Z) (showTips : option bool) (actions : list GameAction)
         (st : RunState) (w w' : World),
    dispatch (RUN_START seed showTips :: actions) st w = Some (st', w').



(** How one action relates the unions before and after it. *)
Definition unionsStep (st st' : RunState) : Prop :=
  unions st' = unions st
  \/ (unions st' = [] /\ federations st' = [])
  \/ (exists (n : nat) (ctx ctx' : Z * World),
        repeatM n generateInto (unions st) ctx = Some (unions st', ctx'))
  \/ (exists (id : string) (u : UnionEntity.t),
        Rec.get id (unions st) = Some u /\
        UnionEntity.isLicensed u = false /\ UnionEntity.isCracked u = false /\
        unions st' = Rec.set id (licensed u) (unions st))
  \/ (exists (id : string) (u : UnionEntity.t) (mode : IncubationMode),
        Rec.get id (unions st) = Some u /\
        UnionEntity.isIncubated u = false /\ UnionEntity.isCracked u = false /\
        unions st' = Rec.set id (incubated u mode) (unions st))
  \/ (exists id : string,
        isInFederation st id = false /\
        federations st' = federations st /\
        unions st' = Rec.remove id (unions st))
  \/ (exists c : Z,
        unions st'
        = crack_unions
            (crackLoop (Rec.keys (unions st))
                       (mkCrackState (unions st) 0 0 c))).

(** How one action relates the federations before and after it. *)
Definition federationsStep (st st' : RunState) : Prop :=
  federations st' = federations st
  \/ (federations st' = [] /\ unions st' = [])
  \/ (exists (ids : list string) (fid name : string),
        canFederate st ids /\
        unions st' = unions st /\
        federations st'
        = Rec.set fid (FederationEntity.mk fid name ids 2 recognized 50)
                  (federations st)).

(** The four archetypes of [generateUnionStats], each with its ranges. *)
Definition archetypeRanges (u : UnionEntity.t) : Prop :=
  (UnionEntity.tags u = ["shell"; "compliant"]%string /\
   70 <= UnionEntity.plausibility u <= 95 /\
   80 <= UnionEntity.loyalty u <= 100 /\
   5 <= UnionEntity.integrity u <= 20 /\
   UnionEntity.maintenanceCost u = 0)
  \/ (UnionEntity.tags u = ["captured"]%string /\
      50 <= UnionEntity.plausibility u <= 75 /\
      60 <= UnionEntity.loyalty u <= 85 /\
      30 <= UnionEntity.integrity u <= 50 /\
      UnionEntity.maintenanceCost u = 1)
  \/ (UnionEntity.tags u = ["authentic"; "restless"]%string /\
      30 <= UnionEntity.plausibility u <= 60 /\
      20 <= UnionEntity.loyalty u <= 50 /\
      70 <= UnionEntity.integrity u <= 95 /\
      3 <= UnionEntity.maintenanceCost u <= 5)
  \/ (UnionEntity.tags u = ["volatile"; "unpredictable"]%string /\
      20 <= UnionEntity.plausibility u <= 80 /\
      10 <= UnionEntity.loyalty u <= 40 /\
      40 <= UnionEntity.integrity u <= 70 /\
      2 <= UnionEntity.maintenanceCost u <= 4).

(** A union as the engine keeps it: stored under its own id, its stats
    within their bounds, its upkeep between 0 and 5, and unlicensed once
    cracked. *)
Definition unionWellFormed (kv : string * UnionEntity.t) : Prop :=
  UnionEntity.id (snd kv) = fst kv /\
  statsWithinBounds (snd kv) /\
  0 <= UnionEntity.maintenanceCost (snd kv) <= 5 /\
  (UnionEntity.isCracked (snd kv) = true ->
   UnionEntity.isLicensed (snd kv) = false).




(** The number of cracked unions of a record. *)
Definition crackedCount (m : Rec.t UnionEntity.t) : Z :=
  Z.of_nat (length (filter UnionEntity.isCracked (Rec.values m))).

(** A double that is not a negative finite number. *)
Definition notNegative (x : spec_float) : Prop :=
  match x with
  | S754_finite true _ _ => False
  | _ => True
  end.


(** [value] respects the optional bounds [lo] and [hi], both inclusive. *)
Definition withinBounds (value : Z) (lo hi : option Z) : Prop :=
  (forall b, lo = Some b -> b <= value) /\ (forall b, hi = Some b -> value <= b).

(** The conditions of an event or of a choice hold in a state: every bound
    that is given is respected; conditions that are absent always hold. *)
Definition conditionsHold (conditions : option EventConditions.t)
    (st : RunState) : Prop :=
  match conditions with
  | None => True
  | Some c =>
      withinBounds (Resources.patronage (resources st))
        (EventConditions.patronageMin c) (EventConditions.patronageMax c) /\
      withinBounds (Resources.legitimacy (resources st))
        (EventConditions.legitimacyMin c) (EventConditions.legitimacyMax c) /\
      withinBounds (Resources.auditRisk (resources st))
        (EventConditions.auditRiskMin c) (EventConditions.auditRiskMax c) /\
      withinBounds (Resources.streetHeat (resources st))
        (EventConditions.streetHeatMin c) (EventConditions.streetHeatMax c) /\
      withinBounds (cycle st)
        (EventConditions.cycleMin c) (EventConditions.cycleMax c) /\
      withinBounds (Z.of_nat (length (Rec.keys (federations st))))
        (EventConditions.federationCountMin c) None /\
      withinBounds (Z.of_nat (length (Rec.keys (unions st))))
        (EventConditions.unionCountMin c) None
  end.

(** An event that can be drawn in a state: its conditions hold and so do
    those of one of its choices. *)
Definition eligible (card : EventCard.t) (st : RunState) : Prop :=
  conditionsHold (EventCard.conditions card) st /\
  exists choice,
    In choice (EventCard.choices card) /\
    conditionsHold (EventChoice.conditions choice) st.


(** The keys of a record of unions are ids made by [generateId] from a
    counter value no greater than [bound]. *)
Definition idsBelow (m : Rec.t UnionEntity.t) (bound : N) : Prop :=
  forall id, In id (Rec.keys m) ->
    exists now n : N,
      id = String.append "union_"
             (String.append (showN now) (String.append "_" (showN n))) /\
      (n <= bound)%N.

(** A run has reached the state [st'] with its surroundings in [w']. *)
Definition runReaches (st' : RunState) (w' : World) : Prop :=
  exists (seed : option Z) (showTips : option bool) (actions : list GameAction)
         (st : RunState) (w : World),
    dispatch (RUN_START seed showTips :: actions) st w = Some (st', w').

(* ================================================================== *)
(** * Properties *)
(* ================================================================== *)

(** ** Clamping *)

Lemma clamp_within (v lo hi : Z) : lo <= hi -> lo <= clamp v lo hi <= hi.
Proof. unfold clamp. lia. Qed.

Lemma clamp_id (v lo hi : Z) : lo <= v <= hi -> clamp v lo hi = v.
Proof. unfold clamp. lia. Qed.

Lemma applyResourceEffects_within (r : Resources.t) (e : ResourceEffects.t) :
  resourcesWithinBounds (applyResourceEffects r e).
Proof.
  unfold resourcesWithinBounds, applyResourceEffects; cbn.
  repeat split; apply clamp_within; lia.
Qed.

Lemma applyUnionEffects_within (u : UnionEntity.t) (e : UnionStatEffects.t) :
  statsWithinBounds (applyUnionEffects u e).
Proof.
  unfold statsWithinBounds, applyUnionEffects, withStats; cbn.
  repeat split; apply clamp_within; lia.
Qed.

(** C5. For every resources record and every resource delta, of any
    magnitude and sign, [applyResourceEffects] returns paperwork in
    [0,10], patronage in [0,20] and legitimacy, audit risk and street heat
    in [0,100]; for every union and every stat delta, [applyUnionEffects]
    returns plausibility, loyalty and integrity in [0,100]. *)
Theorem clamping_invariant :
  forall (r : Resources.t) (e : ResourceEffects.t)
         (u : UnionEntity.t) (d : UnionStatEffects.t),
    (0 <= Resources.paperwork (applyResourceEffects r e) <= 10 /\
     0 <= Resources.patronage (applyResourceEffects r e) <= 20 /\
     0 <= Resources.legitimacy (applyResourceEffects r e) <= 100 /\
     0 <= Resources.auditRisk (applyResourceEffects r e) <= 100 /\
     0 <= Resources.streetHeat (applyResourceEffects r e) <= 100) /\
    (0 <= UnionEntity.plausibility (applyUnionEffects u d) <= 100 /\
     0 <= UnionEntity.loyalty (applyUnionEffects u d) <= 100 /\
     0 <= UnionEntity.integrity (applyUnionEffects u d) <= 100).
Proof.
  intros r e u d. split.
  - exact (applyResourceEffects_within r e).
  - exact (applyUnionEffects_within u d).
Qed.

(** ** The probability formulas *)

(** A property of the integers from 0 to 100 that a computation checks
    holds of each of them. *)
Lemma upto_100 (P : Z -> bool) :
  forallb P (map Z.of_nat (seq 0 101)) = true ->
  forall z, 0 <= z <= 100 -> P z = true.
Proof.
  intros Hall z Hz.
  rewrite forallb_forall in Hall. apply Hall.
  apply in_map_iff. exists (Z.to_nat z). split; [lia |].
  apply in_seq. lia.
Qed.

(** On the stats of a union the rounding of [plausibility * 0.6] never
    crosses an integer: its floor is that of the exact product. *)
Lemma floor_times_0_6 (p : Z) :
  0 <= p <= 100 ->
  F64.floor (F64.mul (F64.of_Z p) F64.lit_0_6) = p * 6 / 10.
Proof.
  intros Hp. apply Z.eqb_eq.
  apply (upto_100 (fun z =>
           F64.floor (F64.mul (F64.of_Z z) F64.lit_0_6) =? z * 6 / 10));
    [vm_compute; reflexivity | exact Hp].
Qed.

Lemma floor_times_0_35 (i : Z) :
  0 <= i <= 100 ->
  F64.floor (F64.mul (F64.of_Z i) F64.lit_0_35) = i * 35 / 100.
Proof.
  intros Hi. apply Z.eqb_eq.
  apply (upto_100 (fun z =>
           F64.floor (F64.mul (F64.of_Z z) F64.lit_0_35) =? z * 35 / 100));
    [vm_compute; reflexivity | exact Hi].
Qed.

(** The constants are the doubles nearest to 6/10, 35/100 and 1/2. *)
Lemma literals_rounded :
  F64.lit_0_6 = F64.div (F64.of_Z 6) (F64.of_Z 10) /\
  F64.lit_0_35 = F64.div (F64.of_Z 35) (F64.of_Z 100) /\
  F64.lit_0_5 = F64.div (F64.of_Z 1) (F64.of_Z 2).
Proof. vm_compute. auto. Qed.

(** C7. For every union with plausibility and integrity in [0,100],
    [getLicenseChance] returns min(95, 30 + floor(plausibility * 0.6)),
    which lies in [30,95], and [getCrackRisk] returns
    max(5, 40 - floor(integrity * 0.35)), which lies in [5,40]. *)
Theorem license_chance_and_crack_risk :
  forall u : UnionEntity.t,
    0 <= UnionEntity.plausibility u <= 100 ->
    0 <= UnionEntity.integrity u <= 100 ->
    getLicenseChance u = Z.min 95 (30 + UnionEntity.plausibility u * 6 / 10) /\
    30 <= getLicenseChance u <= 95 /\
    getCrackRisk u = Z.max 5 (40 - UnionEntity.integrity u * 35 / 100) /\
    5 <= getCrackRisk u <= 40.
Proof.
  intros u Hp Hi. unfold getLicenseChance, getCrackRisk.
  rewrite (floor_times_0_6 _ Hp), (floor_times_0_35 _ Hi).
  assert (0 <= UnionEntity.plausibility u * 6 / 10)
    by (apply Z.div_pos; lia).
  assert (0 <= UnionEntity.integrity u * 35 / 100)
    by (apply Z.div_pos; lia).
  repeat split; lia.
Qed.

Lemma license_chance_and_crack_risk_witness :
  getLicenseChance (sampleUnion "u" 50 60 50 false) = 60 /\
  getCrackRisk (sampleUnion "u" 50 60 50 false) = 23.
Proof.
  destruct (license_chance_and_crack_risk (sampleUnion "u" 50 60 50 false))
    as (Hl & _ & Hc & _); [cbn; lia | cbn; lia |].
  split; [rewrite Hl | rewrite Hc]; reflexivity.
Defined.

(** ** Arithmetic of the generator *)

Lemma toInt32_mod (x : Z) : Int32.toInt32 x mod 2^32 = x mod 2^32.
Proof.
  unfold Int32.toInt32.
  rewrite <- Zminus_mod_idemp_l, Z.mod_mod by lia.
  rewrite Zminus_mod_idemp_l. f_equal. lia.
Qed.

Lemma toInt32_congr (x y : Z) :
  x mod 2^32 = y mod 2^32 -> Int32.toInt32 x = Int32.toInt32 y.
Proof.
  intros H. unfold Int32.toInt32.
  rewrite <- (Zplus_mod_idemp_l x), <- (Zplus_mod_idemp_l y), H.
  reflexivity.
Qed.

(** One call of [next] moves the cursor by the Mulberry32 increment. *)
Lemma next_cursor (a : Z) :
  snd (Rng.next a) = Int32.toInt32 (a + 1831565813).
Proof.
  unfold Rng.next; cbn [snd]. apply toInt32_congr.
  rewrite <- Zplus_mod_idemp_l, toInt32_mod, Zplus_mod_idemp_l.
  reflexivity.
Qed.

Lemma nextInt_cursor (lo hi a : Z) :
  snd (Rng.nextInt lo hi a) = Int32.toInt32 (a + 1831565813).
Proof.
  unfold Rng.nextInt. rewrite <- next_cursor.
  destruct (Rng.next a); reflexivity.
Qed.

Lemma createRNG_next_cursor (c : Z) :
  snd (Rng.next (Rng.createRNG c)) = Int32.toInt32 (c + 1831565813).
Proof.
  rewrite next_cursor. apply toInt32_congr. unfold Rng.createRNG, Int32.toUint32.
  rewrite Zplus_mod_idemp_l. reflexivity.
Qed.

Lemma next_range (a : Z) : 0 <= fst (Rng.next a) < 2^32.
Proof. unfold Rng.next; cbn [fst]. apply Z.mod_pos_bound. lia. Qed.

(** [nextInt(min, max)] stays between its bounds. *)
Lemma nextInt_range (lo hi a : Z) :
  lo <= hi -> lo <= fst (Rng.nextInt lo hi a) <= hi.
Proof.
  intros Hle. unfold Rng.nextInt.
  pose proof (next_range a) as Hu. destruct (Rng.next a) as [u a']; cbn [fst] in *.
  assert (0 <= u * (hi - lo + 1) / 2^32 < hi - lo + 1).
  { split.
    - apply Z.div_pos; nia.
    - apply Z.div_lt_upper_bound; nia. }
  lia.
Qed.

(** ** The reducer keeps the resources within their bounds *)


(** Within the bounds, a delta that stays within them is applied as it is. *)
Lemma applyResourceEffects_exact (r : Resources.t) (e : ResourceEffects.t) :
  resourcesWithinBounds r ->
  resourcesWithinBounds
    (Resources.mk
       (Resources.paperwork r + orZero (ResourceEffects.paperwork e))
       (Resources.patronage r + orZero (ResourceEffects.patronage e))
       (Resources.legitimacy r + orZero (ResourceEffects.legitimacy e))
       (Resources.auditRisk r + orZero (ResourceEffects.auditRisk e))
       (Resources.streetHeat r + orZero (ResourceEffects.streetHeat e))) ->
  applyResourceEffects r e =
    Resources.mk
       (Resources.paperwork r + orZero (ResourceEffects.paperwork e))
       (Resources.patronage r + orZero (ResourceEffects.patronage e))
       (Resources.legitimacy r + orZero (ResourceEffects.legitimacy e))
       (Resources.auditRisk r + orZero (ResourceEffects.auditRisk e))
       (Resources.streetHeat r + orZero (ResourceEffects.streetHeat e)).
Proof.
  unfold resourcesWithinBounds, applyResourceEffects; cbn.
  intros _ (H1 & H2 & H3 & H4 & H5).
  rewrite !clamp_id by lia. reflexivity.
Qed.

(** ** The last cycle *)

(** C10. When [EVENT_CHOOSE] is processed with cycle >= maxCycles and the
    state after the choice's effects passes the loss check, and likewise
    when [TURN_ADVANCE] is processed with cycle >= maxCycles, the reducer
    moves to phase [election] without upkeep or crack checks: the cycle
    counter, the unions, the RNG cursor and (beyond the direct effects of
    the choice) the resources are unchanged. *)
Theorem last_cycle_goes_to_election :
  forall (st : RunState) (w : World),
    maxCycles st <= cycle st ->
    gameReducer st TURN_ADVANCE w = Some (with_phase election st, w) /\
    forall (eventId choiceId : string) (effects : ResourceEffects.t)
           (unlocks : option (list string)),
      let r := applyResourceEffects (resources st) effects in
      0 < Resources.legitimacy r ->
      Resources.auditRisk r < 100 ->
      Resources.streetHeat r < 100 ->
      exists st',
        gameReducer st (EVENT_CHOOSE eventId choiceId effects unlocks) w
          = Some (st', w) /\
        phase st' = election /\
        cycle st' = cycle st /\
        unions st' = unions st /\
        rngCursor st' = rngCursor st /\
        resources st' = r /\
        federations st' = federations st /\
        unionsGeneratedInCycle st' = unionsGeneratedInCycle st /\
        ending st' = ending st.
Proof.
  intros st w Hlast. split.
  - cbn. destruct (Z.leb_spec (maxCycles st) (cycle st)); [reflexivity | lia].
  - intros eventId choiceId effects unlocks r Hleg Haud Hheat.
    eexists. split.
    + unfold gameReducer, checkLoseCondition.
      cbn -[applyResourceEffects]. fold r.
      destruct (Z.leb_spec (Resources.legitimacy r) 0); [lia |].
      destruct (Z.leb_spec 100 (Resources.auditRisk r)); [lia |].
      destruct (Z.leb_spec 100 (Resources.streetHeat r)); [lia |].
      destruct (Z.leb_spec (maxCycles st) (cycle st)); [reflexivity | lia].
    + cbn. repeat split; reflexivity.
Qed.

Lemma last_cycle_goes_to_election_witness :
  let st := mkRunState 42 42 5 5 event DEFAULT_RESOURCES [] [] [] (Some "strike"%string)
              [] None false true in
  gameReducer st TURN_ADVANCE sampleWorld
    = Some (with_phase election st, sampleWorld) /\
  exists st',
    gameReducer st
      (EVENT_CHOOSE "strike" "concede"
         (ResourceEffects.mk None None (Some (-5)) (Some 10) None) None)
      sampleWorld = Some (st', sampleWorld) /\
    phase st' = election /\ cycle st' = 5.
Proof.
  intros st.
  destruct (last_cycle_goes_to_election st sampleWorld) as [Hadv Hchoose];
    [cbn; lia |].
  split; [exact Hadv |].
  destruct (Hchoose "strike"%string "concede"%string
              (ResourceEffects.mk None None (Some (-5)) (Some 10) None) None)
    as (st' & Hred & Hphase & Hcycle & _); [cbn; lia | cbn; lia | cbn; lia |].
  exists st'. repeat split; assumption.
Defined.

(** ** Licensing *)

(** C9. For every state and union id such that the union exists, is
    unlicensed and uncracked, and paperwork >= 1: when the roll of
    [UNION_LICENSE] exceeds the licence chance of the union, the unions are
    unchanged, paperwork decreases by 1, audit risk increases by 3
    (clamped at 100), the RNG cursor advances by exactly the one roll, and
    every other field of the state is unchanged.  States are those of the
    data model: their resources lie within the declared bounds. *)
Theorem license_failure :
  forall (st : RunState) (unionId : string) (union : UnionEntity.t)
         (w : World) (roll rng' : Z),
    Rec.get unionId (unions st) = Some union ->
    UnionEntity.isLicensed union = false ->
    UnionEntity.isCracked union = false ->
    1 <= Resources.paperwork (resources st) ->
    resourcesWithinBounds (resources st) ->
    Rng.nextInt 1 100 (Rng.createRNG (rngCursor st)) = (roll, rng') ->
    getLicenseChance union < roll ->
    gameReducer st (UNION_LICENSE unionId) w =
      Some (mkRunState (seed st) rng' (cycle st) (maxCycles st) (phase st)
              (Resources.mk
                 (Resources.paperwork (resources st) - 1)
                 (Resources.patronage (resources st))
                 (Resources.legitimacy (resources st))
                 (Z.min 100 (Resources.auditRisk (resources st) + 3))
                 (Resources.streetHeat (resources st)))
              (unions st) (federations st) (eventHistory st)
              (currentEventId st) (unlockedFootnotes st) (ending st)
              (showTips st) (unionsGeneratedInCycle st),
            w) /\
    rng' = Int32.toInt32 (rngCursor st + 1831565813).
Proof.
  intros st unionId union w roll rng' Hget Hlic Hcr Hpaper Hb Hroll Hfail.
  split.
  - unfold gameReducer. rewrite Hget, Hlic, Hcr. cbn [orb].
    unfold COSTS.license_paperwork.
    destruct (Z.ltb_spec (Resources.paperwork (resources st)) 1); [lia |].
    rewrite Hroll.
    destruct (Z.leb_spec roll (getLicenseChance union)); [lia |].
    unfold with_rngCursor, with_resources, Rng.getCursor; cbn.
    do 2 f_equal. f_equal.
    destruct Hb as (H1 & H2 & H3 & H4 & H5).
    unfold applyResourceEffects, clamp; cbn. f_equal; lia.
  - pose proof (nextInt_cursor 1 100 (Rng.createRNG (rngCursor st))) as Hc.
    rewrite Hroll in Hc; cbn [snd] in Hc. rewrite Hc.
    apply toInt32_congr. unfold Rng.createRNG, Int32.toUint32.
    rewrite Zplus_mod_idemp_l. reflexivity.
Qed.

Lemma license_failure_witness :
  let u := sampleUnion "union_1_1" 50 60 50 false in
  let st := sampleState [u] [] in
  exists st',
    gameReducer st (UNION_LICENSE "union_1_1") sampleWorld
      = Some (st', sampleWorld) /\
    unions st' = unions st /\
    Resources.paperwork (resources st') = 2 /\
    Resources.auditRisk (resources st') = 13 /\
    rngCursor st' = 1831565855.
Proof.
  intros u st.
  destruct (license_failure st "union_1_1" u sampleWorld 61 1831565855)
    as [Hred _].
  - reflexivity.
  - reflexivity.
  - reflexivity.
  - cbn; lia.
  - unfold resourcesWithinBounds; cbn; lia.
  - vm_compute; reflexivity.
  - vm_compute; reflexivity.
  - eexists. split; [exact Hred |]. cbn. repeat split; reflexivity.
Defined.

(** ** Generation *)

Ltac step_gen :=
  match goal with
  | |- context [Rng.nextInt ?x ?y ?z] => destruct (Rng.nextInt x y z)
  | |- context [Rng.next ?a] => destruct (Rng.next a)
  | |- context [Rng.weightedLoop ?i ?w ?r] => destruct (Rng.weightedLoop i w r)
  | |- context [if ?b then _ else _] => destruct b
  | |- context [match ?s with EmptyString => _ | String _ _ => _ end] =>
      destruct s
  end.

Ltac simpl_gen :=
  cbn -[Rng.nextInt Rng.next Rng.weightedLoop Generator.generateId nth
        Z.mul Z.pow Generator.trim String.append].

(** [generateUnion] never throws: the tables it picks from are not empty.
    The id of the union is the one [generateId] makes, and the world is
    touched by [generateId] only. *)
Lemma generateUnion_total (a : Z) (w : World) :
  exists u a',
    Generator.generateUnion (a, w) = Some (u, (a', snd (Generator.generateId w)))
    /\ UnionEntity.id u = fst (Generator.generateId w).
Proof.
  unfold Generator.generateUnion, Generator.generateUnionName,
    Generator.generateUnionStats, Generator.onRng, Generator.onRngTotal,
    Generator.onWorld, Rng.pick, Rng.weightedPick, bind, ret.
  simpl_gen.
  repeat (step_gen; simpl_gen);
    destruct (Generator.generateId w); cbn [fst snd]; eauto.
Qed.

Lemma generateInto_total (acc : Rec.t UnionEntity.t) (a : Z) (w : World) :
  exists u a',
    generateInto acc (a, w)
      = Some (Rec.set (fst (Generator.generateId w)) u acc,
              (a', snd (Generator.generateId w)))
    /\ UnionEntity.id u = fst (Generator.generateId w).
Proof.
  destruct (generateUnion_total a w) as (u & a' & Hgen & Hid).
  exists u, a'. unfold generateInto, bind, ret. rewrite Hgen, Hid. auto.
Qed.

Lemma generate_loop_total (n : nat) :
  forall (acc : Rec.t UnionEntity.t) (a : Z) (w : World),
    exists r, repeatM n generateInto acc (a, w) = Some r.
Proof.
  induction n as [| n IH]; intros acc a w; cbn [repeatM].
  - eexists; reflexivity.
  - destruct (generateInto_total acc a w) as (u & a' & Hgen & _).
    unfold bind. rewrite Hgen. apply IH.
Qed.

(** What one action does to the cycle counter and to the generation flag,
    inside a run. *)
Lemma step_cycle_flag (st : RunState) (a : GameAction) (w : World)
    (st' : RunState) (w' : World) :
  startsRun a = false ->
  gameReducer st a w = Some (st', w') ->
  (cycle st' = cycle st /\
   (unionsGeneratedInCycle st = true -> unionsGeneratedInCycle st' = true))
  \/ (cycle st' = cycle st + 1 /\ unionsGeneratedInCycle st' = false /\
      (a = TURN_ADVANCE \/
       exists e c eff un, a = EVENT_CHOOSE e c eff un)).
Proof.
  intros Hrun Hred.
  destruct a; try discriminate Hrun; unfold gameReducer in Hred;
    repeat match type of Hred with
           | context [match ?x with _ => _ end] => destruct x
           end;
    try discriminate Hred;
    injection Hred as <- <-;
    try (left; split; [reflexivity | cbn; auto]; fail).
  all: right; unfold endCycle; destruct (checkLoseCondition _); cbn; eauto 10.
Qed.

(** Inside a run the cycle counter never goes back, and while it stands
    still the generation flag stays set. *)
Lemma dispatch_cycle_flag (actions : list GameAction) :
  forall (st : RunState) (w : World) (st' : RunState) (w' : World),
    Forall (fun a => startsRun a = false) actions ->
    dispatch actions st w = Some (st', w') ->
    cycle st <= cycle st' /\
    (cycle st' = cycle st -> unionsGeneratedInCycle st = true ->
     unionsGeneratedInCycle st' = true).
Proof.
  induction actions as [| a rest IH]; intros st w st' w' Hall Hrun;
    cbn [dispatch] in Hrun.
  - injection Hrun as <- <-. split; [lia | auto].
  - inversion Hall as [| ? ? Ha Hrest]; subst.
    destruct (gameReducer st a w) as [[st1 w1] |] eqn:Hstep; [| discriminate].
    destruct (IH _ _ _ _ Hrest Hrun) as [Hle Hkeep].
    destruct (step_cycle_flag _ _ _ _ _ Ha Hstep)
      as [[Hc Hf] | (Hc & _ & _)].
    + rewrite Hc in *. split; [lia | auto].
    + split; [lia | intros; lia].
Qed.

(** C8. Within a single cycle of a run, a second [UNION_GENERATE],
    dispatched when the per-cycle flag is already set by an earlier
    successful generation, returns the state completely unchanged: no
    unions are added and no paperwork is deducted.  The flag is set by a
    successful generation and only the cycle-end transition sets it back
    to false. *)
Theorem generation_throttle :
  forall (st : RunState) (w : World) (count : Z),
    unionsGeneratedInCycle st = false ->
    1 <= Resources.paperwork (resources st) ->
    (* the generation succeeds and sets the flag *)
    exists st1 w1,
      gameReducer st (UNION_GENERATE count) w = Some (st1, w1) /\
      unionsGeneratedInCycle st1 = true /\
      (* whatever is dispatched next in this run, as long as the cycle is
         the same, a further generation changes nothing *)
      (forall (actions : list GameAction) (st2 : RunState) (w2 : World)
              (count2 : Z),
          Forall (fun a => startsRun a = false) actions ->
          dispatch actions st1 w1 = Some (st2, w2) ->
          cycle st2 = cycle st1 ->
          gameReducer st2 (UNION_GENERATE count2) w2 = Some (st2, w2)) /\
      (* inside the run, the flag goes back to false only where a cycle ends *)
      (forall (a : GameAction) (s : RunState) (v : World) (s' : RunState)
              (v' : World),
          startsRun a = false ->
          unionsGeneratedInCycle s = true ->
          gameReducer s a v = Some (s', v') ->
          unionsGeneratedInCycle s' = false ->
          cycle s' = cycle s + 1 /\
          (a = TURN_ADVANCE \/ exists e c eff un, a = EVENT_CHOOSE e c eff un)) /\
      (forall s : RunState, unionsGeneratedInCycle (applyCycleEnd s) = false).
Proof.
  intros st w count Hflag Hpaper.
  destruct (generate_loop_total (Z.to_nat count) (unions st)
              (Rng.createRNG (rngCursor st)) w) as ([us [rng w1]] & Hloop).
  eexists. exists w1. split; [| split; [| split; [| split]]].
  - unfold gameReducer. rewrite Hflag, Hloop.
    unfold COSTS.generateUnions_paperwork.
    destruct (Z.ltb_spec (Resources.paperwork (resources st)) 1); [lia |].
    reflexivity.
  - reflexivity.
  - intros actions st2 w2 count2 Hall Hrun Hsame.
    destruct (dispatch_cycle_flag _ _ _ _ _ Hall Hrun) as [_ Hkeep].
    unfold gameReducer. rewrite (Hkeep Hsame eq_refl).
    rewrite orb_true_r. reflexivity.
  - intros a s v s' v' Ha Hset Hred Hreset.
    destruct (step_cycle_flag _ _ _ _ _ Ha Hred) as [[_ Hf] | (Hc & _ & Hact)].
    + rewrite (Hf Hset) in Hreset. discriminate.
    + auto.
  - intros s. reflexivity.
Qed.

Lemma generation_throttle_witness :
  exists st1 w1,
    gameReducer (sampleState [] []) (UNION_GENERATE 3) sampleWorld
      = Some (st1, w1) /\
    unionsGeneratedInCycle st1 = true /\
    gameReducer st1 (UNION_GENERATE 3) w1 = Some (st1, w1).
Proof.
  destruct (generation_throttle (sampleState [] []) sampleWorld 3)
    as (st1 & w1 & Hgen & Hflag & Hagain & _).
  - reflexivity.
  - cbn; lia.
  - exists st1, w1. split; [exact Hgen | split; [exact Hflag |]].
    apply (Hagain [] st1 w1 3).
    + constructor.
    + reflexivity.
    + reflexivity.
Defined.

(** ** Federations *)

Lemma includes_In (x : string) (xs : list string) :
  includes x xs = true <-> In x xs.
Proof.
  unfold includes. rewrite existsb_exists. split.
  - intros (y & Hin & Heq). apply String.eqb_eq in Heq. subst. exact Hin.
  - intros Hin. exists x. split; [exact Hin | apply String.eqb_refl].
Qed.

Lemma get_set_same {V} (k : string) (v : V) (m : Rec.t V) :
  Rec.get k (Rec.set k v m) = Some v.
Proof.
  induction m as [| [k' v'] m IH]; cbn.
  - rewrite String.eqb_refl. reflexivity.
  - destruct (String.eqb k' k) eqn:E; cbn.
    + rewrite String.eqb_refl. reflexivity.
    + rewrite E. exact IH.
Qed.

Lemma lookupAll_length_le {V} (ids : list string) (m : Rec.t V) :
  (length (lookupAll ids m) <= length ids)%nat.
Proof.
  induction ids as [| i ids IH]; cbn; [lia |].
  destruct (Rec.get i m); cbn; lia.
Qed.

(** Every id is found, and the union found is licensed. *)
Lemma lookupAll_licensed (ids : list string) (m : Rec.t UnionEntity.t) :
  Nat.eqb (length (lookupAll ids m)) (length ids)
  && forallb UnionEntity.isLicensed (lookupAll ids m) = true
  <-> forall id, In id ids ->
        exists u, Rec.get id m = Some u /\ UnionEntity.isLicensed u = true.
Proof.
  rewrite andb_true_iff, Nat.eqb_eq.
  induction ids as [| i ids IH]; cbn.
  - split; [intros _ id [] | auto].
  - pose proof (lookupAll_length_le ids m) as Hle.
    destruct (Rec.get i m) as [u |] eqn:Hget; cbn.
    + rewrite andb_true_iff. split.
      * intros [Hlen [Hlic Hall]] id [<- | Hin].
        -- exists u. auto.
        -- apply IH; [split; [lia | exact Hall] | exact Hin].
      * intros H.
        destruct (H i (or_introl eq_refl)) as (u' & Hu' & Hlic).
        rewrite Hget in Hu'. injection Hu' as <-.
        destruct IH as [_ IH]. destruct IH as [Hlen Hall].
        { intros id Hin. apply H. right. exact Hin. }
        repeat split; [lia | exact Hlic | exact Hall].
    + split.
      * intros [Hlen _]. lia.
      * intros H. destruct (H i (or_introl eq_refl)) as (u' & Hu' & _).
        rewrite Hget in Hu'. discriminate.
Qed.

(** No id belongs to a federation. *)
Lemma none_federated (ids : list string) (fs : list FederationEntity.t) :
  existsb (fun id => includes id (flat_map FederationEntity.unionIds fs)) ids
    = false
  <-> forall id f, In id ids -> In f fs ->
        ~ In id (FederationEntity.unionIds f).
Proof.
  rewrite <- not_true_iff_false, existsb_exists. split.
  - intros Hnone id f Hid Hf Hmem. apply Hnone. exists id. split; [exact Hid |].
    apply includes_In, in_flat_map. exists f. auto.
  - intros Hnone (id & Hid & Hinc).
    apply includes_In, in_flat_map in Hinc. destruct Hinc as (f & Hf & Hmem).
    exact (Hnone id f Hid Hf Hmem).
Qed.

Lemma federationGuard_spec (st : RunState) (ids : list string) :
  federationGuard st ids = true <-> canFederate st ids.
Proof.
  unfold federationGuard, canFederate.
  rewrite <- (lookupAll_licensed ids (unions st)).
  rewrite <- (none_federated ids (Rec.values (federations st))).
  rewrite !andb_true_iff, !negb_true_iff, orb_false_iff, !Z.ltb_ge, Nat.ltb_ge.
  tauto.
Qed.

(** [generateFederationName] never throws for the member list the reducer
    gives it, and leaves the world alone. *)
Lemma generateFederationName_total (us : list UnionEntity.t) (a : Z) (w : World) :
  exists name a',
    Generator.generateFederationName us (a, w) = Some (name, (a', w)).
Proof.
  unfold Generator.generateFederationName, Generator.onRng,
    Generator.onRngTotal, Rng.pick, bind, ret.
  simpl_gen. destruct us as [| u us]; simpl_gen.
  - repeat (step_gen; simpl_gen); eauto.
  - repeat (step_gen; simpl_gen); eauto.
Qed.

(** The reducer creates the federation when the guard holds and returns
    the state otherwise. *)
Lemma federation_create_guarded (st : RunState) (ids : list string) (w : World) :
  gameReducer st (FEDERATION_CREATE ids) w =
    if federationGuard st ids then
      match Generator.generateFederationName (lookupAll ids (unions st))
              (Rng.createRNG (rngCursor st), w) with
      | None => None
      | Some (name, (rng, w)) =>
          let federation :=
            FederationEntity.mk (String.append "fed_" (showN (fst (Date_now w))))
              name ids 2 recognized 50 in
          Some (with_resources
                  (applyResourceEffects (resources st)
                     (ResourceEffects.mk (Some (-2)) (Some (-3)) None (Some 5)
                                         None))
                  (with_rngCursor rng
                     (with_federations
                        (Rec.set (FederationEntity.id federation) federation
                                 (federations st))
                        st)),
                snd (Date_now w))
      end
    else Some (st, w).
Proof.
  unfold gameReducer, federationGuard.
  destruct (length ids <? 2)%nat; cbn [negb andb]; [reflexivity |].
  destruct (Nat.eqb _ _); cbn [negb andb]; [| reflexivity].
  destruct (forallb _ _); cbn [negb andb]; [| reflexivity].
  destruct (existsb _ _); cbn [negb andb]; [reflexivity |].
  unfold COSTS.createFederation_paperwork, COSTS.createFederation_patronage.
  destruct (_ || _); cbn [negb]; [reflexivity |].
  destruct (Generator.generateFederationName _ _) as [[name [rng w']] |];
    reflexivity.
Qed.

(** C3, as the code has it.  [FEDERATION_CREATE] produces a new federation
    exactly when the supplied union ids number at least 2 (they need not be
    distinct), each names an existing licensed union, none is already a
    member of a federation, and paperwork >= 2 and patronage >= 3.  The
    federation created has the supplied ids as members, delegates = 2 and
    recognition [recognized]; 2 paperwork and 3 patronage are deducted and
    audit risk rises by 5 (clamped at 100).  In every other case the state
    is returned unchanged. *)
Theorem federation_create_exactly_when :
  forall (st : RunState) (unionIds : list string) (w : World),
    (canFederate st unionIds ->
     exists (st' : RunState) (w' : World) (fed : FederationEntity.t),
       gameReducer st (FEDERATION_CREATE unionIds) w = Some (st', w') /\
       Rec.get (FederationEntity.id fed) (federations st') = Some fed /\
       federations st'
         = Rec.set (FederationEntity.id fed) fed (federations st) /\
       FederationEntity.unionIds fed = unionIds /\
       FederationEntity.delegates fed = 2 /\
       FederationEntity.recognition fed = recognized /\
       resources st'
         = applyResourceEffects (resources st)
             (ResourceEffects.mk (Some (-2)) (Some (-3)) None (Some 5) None) /\
       (resourcesWithinBounds (resources st) ->
        resources st'
          = Resources.mk
              (Resources.paperwork (resources st) - 2)
              (Resources.patronage (resources st) - 3)
              (Resources.legitimacy (resources st))
              (Z.min 100 (Resources.auditRisk (resources st) + 5))
              (Resources.streetHeat (resources st))) /\
       unions st' = unions st /\
       phase st' = phase st /\
       cycle st' = cycle st) /\
    (~ canFederate st unionIds ->
     gameReducer st (FEDERATION_CREATE unionIds) w = Some (st, w)).
Proof.
  intros st ids w. rewrite federation_create_guarded. split.
  - intros Hcan. pose proof Hcan as Hguard.
    apply federationGuard_spec in Hguard. rewrite Hguard.
    destruct (generateFederationName_total (lookupAll ids (unions st))
                (Rng.createRNG (rngCursor st)) w) as (name & rng & Hname).
    rewrite Hname. cbv zeta.
    eexists. eexists. eexists. split; [reflexivity |].
    cbn [federations with_resources with_rngCursor with_federations
         resources unions phase cycle FederationEntity.id
         FederationEntity.unionIds FederationEntity.delegates
         FederationEntity.recognition].
    split; [apply get_set_same |].
    repeat split.
    intros (H1 & H2 & H3 & H4 & H5).
    destruct Hcan as (_ & _ & _ & Hp & Hq).
    unfold applyResourceEffects, clamp; cbn. f_equal; lia.
  - intros Hno.
    destruct (federationGuard st ids) eqn:Hguard; [| reflexivity].
    apply federationGuard_spec in Hguard. contradiction.
Qed.


(** C3 as it is written fails: two ids that are not distinct, naming the
    one licensed union of the state, are accepted, and a federation with
    that union listed twice is created. *)
Lemma federation_create_accepts_duplicates :
  ~ NoDup ["union_1_1"; "union_1_1"]%string /\
  federations loneUnionState = [] /\
  option_map (fun r => federations (fst r))
    (gameReducer loneUnionState
       (FEDERATION_CREATE ["union_1_1"; "union_1_1"]%string) sampleWorld)
  = Some [("fed_1700000000000"%string,
           FederationEntity.mk "fed_1700000000000"
             "Federated Postal Trade Council"
             ["union_1_1"; "union_1_1"]%string 2 recognized 50)] /\
  gameReducer loneUnionState
    (FEDERATION_CREATE ["union_1_1"; "union_1_1"]%string) sampleWorld
  <> Some (loneUnionState, sampleWorld).
Proof.
  split; [| split; [| split]].
  - intros Hnd. inversion Hnd as [| ? ? Hnotin _]; subst.
    apply Hnotin. left. reflexivity.
  - reflexivity.
  - vm_compute. reflexivity.
  - intros Heq.
    apply (f_equal (option_map (fun r => federations (fst r)))) in Heq.
    vm_compute in Heq. discriminate Heq.
Qed.
Lemma federation_create_exactly_when_witness :
  let st := sampleState [sampleUnion "union_1_1" 60 70 40 true;
                         sampleUnion "union_1_2" 55 65 45 true] [] in
  (exists (st' : RunState) (w' : World) (fed : FederationEntity.t),
      gameReducer st (FEDERATION_CREATE ["union_1_1"; "union_1_2"]%string)
                  sampleWorld = Some (st', w') /\
      Rec.get (FederationEntity.id fed) (federations st') = Some fed /\
      FederationEntity.delegates fed = 2 /\
      resources st' = Resources.mk 1 2 70 15 5) /\
  gameReducer st (FEDERATION_CREATE ["union_1_1"; "union_9_9"]%string)
              sampleWorld = Some (st, sampleWorld).
Proof.
  intros st. split.
  - destruct (federation_create_exactly_when st
                ["union_1_1"; "union_1_2"]%string sampleWorld) as [Hyes _].
    destruct Hyes as (st' & w' & fed & Hred & Hget & _ & _ & Hdel & _ & _ & Hres & _).
    + unfold canFederate. split; [cbn; lia |]. split; [| split].
      * intros id [<- | [<- | []]]; eexists; split; reflexivity.
      * intros id f _ [].
      * cbn; lia.
    + exists st', w', fed. repeat split; try assumption.
      rewrite Hres; [reflexivity |].
      unfold resourcesWithinBounds; cbn; lia.
  - destruct (federation_create_exactly_when st
                ["union_1_1"; "union_9_9"]%string sampleWorld) as [_ Hno].
    apply Hno. intros (_ & Hall & _).
    destruct (Hall "union_9_9"%string) as (u & Hu & _); [cbn; auto |].
    discriminate Hu.
Defined.


(** ** Phases *)

Lemma applyCycleEnd_with_phase (p : GamePhase) (st : RunState) :
  applyCycleEnd (with_phase p st) = with_phase p (applyCycleEnd st).
Proof. reflexivity. Qed.

Lemma endCycle_with_phase (p : GamePhase) (st : RunState) :
  endCycle (with_phase p st) = endCycle st.
Proof.
  unfold endCycle. rewrite applyCycleEnd_with_phase.
  change (checkLoseCondition (with_phase p (applyCycleEnd st)))
    with (checkLoseCondition (applyCycleEnd st)).
  destruct (checkLoseCondition (applyCycleEnd st)); reflexivity.
Qed.

Lemma endCycle_phase (st : RunState) :
  phase (endCycle st) = playing \/ phase (endCycle st) = ended.
Proof.
  unfold endCycle. destruct (checkLoseCondition _); cbn; auto.
Qed.

(** C6, as the code has it.  The reducer validates no phase.  No branch
    reads the phase: dispatching an action on a state whose phase is set to
    [p] gives what dispatching it on the state gives, an action that assigns
    no phase ([UNION_GENERATE], [UNION_LICENSE], [UNION_LICENSE_RESULT],
    [UNION_INCUBATE], [UNION_DISSOLVE], [UNION_REASSIGN],
    [FEDERATION_CREATE], [TUTORIAL_DISMISS]) carrying [p] over.  The phase
    of the result is [playing] after [RUN_START] and [EVENT_DISMISS], [menu]
    after [RUN_RESET], [event] after [EVENT_DRAW], [ended] after
    [ELECTION_RESOLVE], [q] after [SET_PHASE q]; after [TURN_ADVANCE] it is
    [election] when the last cycle is played, else [ended] when a lose
    condition holds after the cycle end and [playing] when none does; after
    [EVENT_CHOOSE] it is [ended] when a lose condition holds after the
    effects of the choice, else what [TURN_ADVANCE] gives on the state with
    those effects; after the other actions it is the phase of the state.
    So [ended] is not terminal for the reducer: on a state in phase [ended]
    every action gives the phase of this table and the other fields it
    gives in any other phase. *)
Theorem reducer_ignores_phase :
  forall (st : RunState) (a : GameAction) (w : World) (p : GamePhase),
    gameReducer (with_phase p st) a w =
      match gameReducer st a w with
      | Some (st', w') =>
          Some (if assignsPhase a then st' else with_phase p st', w')
      | None => None
      end /\
    forall (st' : RunState) (w' : World),
      gameReducer st a w = Some (st', w') ->
      match a with
      | RUN_START _ _ => phase st' = playing
      | RUN_RESET => phase st' = menu
      | EVENT_DRAW _ => phase st' = event
      | EVENT_DISMISS => phase st' = playing
      | ELECTION_RESOLVE => phase st' = ended
      | SET_PHASE q => phase st' = q
      | TURN_ADVANCE => phase st' = phaseAfterCycle st
      | EVENT_CHOOSE _ _ effects _ =>
          let chosen :=
            with_resources (applyResourceEffects (resources st) effects) st in
          phase st' = match checkLoseCondition chosen with
                      | Some _ => ended
                      | None => phaseAfterCycle chosen
                      end
      | _ => phase st' = phase st
      end.
Proof.
  intros st a w p. split.
  - destruct a; unfold gameReducer, assignsPhase;
      cbn [resources unions federations cycle maxCycles rngCursor
           unionsGeneratedInCycle unlockedFootnotes eventHistory with_phase].
    + (* RUN_START *)
      destruct (createInitialState seed0 showTips0 w); reflexivity.
    + (* RUN_RESET *)
      destruct (createInitialState None None w); reflexivity.
    + (* TURN_ADVANCE *)
      destruct (maxCycles st <=? cycle st); [reflexivity |].
      rewrite endCycle_with_phase. reflexivity.
    + (* UNION_GENERATE *)
      destruct (_ || _); [reflexivity |].
      destruct (repeatM _ _ _ _) as [[us [rng w']] |]; reflexivity.
    + (* UNION_LICENSE *)
      destruct (Rec.get unionId (unions st)) as [u |]; [| reflexivity].
      destruct (_ || _); [reflexivity |].
      destruct (_ <? _); [reflexivity |].
      destruct (Rng.nextInt _ _ _) as [roll rng].
      destruct (roll <=? _); reflexivity.
    + (* UNION_LICENSE_RESULT *) reflexivity.
    + (* UNION_INCUBATE *)
      destruct (Rec.get unionId (unions st)) as [u |]; [| reflexivity].
      destruct (_ || _); [reflexivity |].
      destruct (_ <? _); reflexivity.
    + (* UNION_DISSOLVE *)
      destruct (Rec.get unionId (unions st)) as [u |]; [| reflexivity].
      change (isInFederation (with_phase p st) unionId)
        with (isInFederation st unionId).
      destruct (isInFederation st unionId); reflexivity.
    + (* UNION_REASSIGN *)
      destruct (Rec.get unionId (unions st)) as [u |]; [| reflexivity].
      change (isInFederation (with_phase p st) unionId)
        with (isInFederation st unionId).
      destruct (isInFederation st unionId); reflexivity.
    + (* FEDERATION_CREATE *)
      destruct (length unionIds <? 2)%nat; [reflexivity |].
      destruct (negb (Nat.eqb _ _)); [reflexivity |].
      destruct (negb (forallb _ _)); [reflexivity |].
      destruct (existsb _ _); [reflexivity |].
      destruct (_ || _); [reflexivity |].
      destruct (Generator.generateFederationName _ _) as [[name [rng w']] |];
        [| reflexivity].
      destruct (Date_now w'); reflexivity.
    + (* EVENT_DRAW *) reflexivity.
    + (* EVENT_CHOOSE *)
      match goal with
      | |- context [checkLoseCondition ?s] =>
          change (checkLoseCondition s)
            with (checkLoseCondition
                    (with_resources
                       (applyResourceEffects (resources st) effects) st))
      end.
      match goal with
      | |- _ = match match checkLoseCondition ?s with _ => _ end with _ => _ end =>
          change (checkLoseCondition s)
            with (checkLoseCondition
                    (with_resources
                       (applyResourceEffects (resources st) effects) st))
      end.
      destruct (checkLoseCondition _); [reflexivity |].
      cbn [cycle maxCycles with_currentEventId with_eventHistory
           with_unlockedFootnotes with_resources with_phase].
      destruct (maxCycles st <=? cycle st); [reflexivity |].
      match goal with
      | |- Some (endCycle ?s1, _) = Some (endCycle ?s2, _) =>
          change s1 with (with_phase p s2)
      end.
      rewrite endCycle_with_phase. reflexivity.
    + (* EVENT_DISMISS *) reflexivity.
    + (* ELECTION_RESOLVE *) reflexivity.
    + (* TUTORIAL_DISMISS *) reflexivity.
    + (* SET_PHASE *) reflexivity.
  - intros st' w' Hred.
    destruct a;
      try (unfold gameReducer in Hred;
           repeat match type of Hred with
                  | context [match ?x with _ => _ end] => destruct x
                  end;
           try discriminate Hred; injection Hred as <- <-;
           reflexivity).
    + (* TURN_ADVANCE *)
      unfold gameReducer in Hred. unfold phaseAfterCycle.
      destruct (maxCycles st <=? cycle st); injection Hred as <- <-;
        [reflexivity |].
      unfold endCycle. destruct (checkLoseCondition _); reflexivity.
    + (* EVENT_CHOOSE *)
      unfold gameReducer in Hred. cbv zeta. unfold phaseAfterCycle.
      match type of Hred with
      | context [checkLoseCondition ?s] =>
          change (checkLoseCondition s)
            with (checkLoseCondition
                    (with_resources
                       (applyResourceEffects (resources st) effects) st))
            in Hred
      end.
      destruct (checkLoseCondition
                  (with_resources
                     (applyResourceEffects (resources st) effects) st));
        [injection Hred as <- <-; reflexivity |].
      cbn [cycle maxCycles with_currentEventId with_eventHistory
           with_unlockedFootnotes with_resources] in Hred |- *.
      destruct (maxCycles st <=? cycle st); injection Hred as <- <-;
        [reflexivity |].
      unfold endCycle.
      match goal with
      | |- context [checkLoseCondition (applyCycleEnd ?s)] =>
          change (checkLoseCondition (applyCycleEnd s))
            with (checkLoseCondition
                    (applyCycleEnd
                       (with_resources
                          (applyResourceEffects (resources st) effects) st)))
      end.
      destruct (checkLoseCondition _); reflexivity.
Qed.

Lemma reducer_ignores_phase_witness :
  exists (st' : RunState) (w' : World),
    gameReducer endedState (EVENT_DRAW "strike") sampleWorld = Some (st', w') /\
    phase st' = event /\
    gameReducer (with_phase menu endedState) (EVENT_DRAW "strike") sampleWorld
      = Some (st', w').
Proof.
  destruct (reducer_ignores_phase endedState (EVENT_DRAW "strike") sampleWorld
              menu) as [Hsame Htable].
  eexists. eexists. split; [reflexivity |]. split.
  - exact (Htable _ _ eq_refl).
  - exact Hsame.
Defined.

(** C6 as it is written fails: in phase [ended], [SET_PHASE] puts the run
    back in play, and [UNION_GENERATE] is accepted, adds three unions and
    charges one paperwork; neither is a reset. *)
Lemma ended_is_not_terminal :
  phase endedState = ended /\
  gameReducer endedState (SET_PHASE playing) sampleWorld
    = Some (with_phase playing endedState, sampleWorld) /\
  with_phase playing endedState <> endedState /\
  unions endedState = [] /\
  option_map (fun r => (length (unions (fst r)),
                        Resources.paperwork (resources (fst r)),
                        phase (fst r)))
    (gameReducer endedState (UNION_GENERATE 3) sampleWorld)
  = Some (3%nat, 2, ended).
Proof.
  split; [reflexivity |]. split; [reflexivity |]. split; [| split].
  - intros Heq. apply (f_equal phase) in Heq. discriminate Heq.
  - reflexivity.
  - vm_compute. reflexivity.
Qed.

(** ** The end of a cycle *)

Lemma get_Some_key {V} (k : string) (v : V) (m : Rec.t V) :
  Rec.get k m = Some v -> In k (Rec.keys m).
Proof.
  induction m as [| [k' v'] m IH]; cbn; [discriminate |].
  destruct (String.eqb_spec k' k); [auto | intros H; right; auto].
Qed.

(** The loop of [processCrackChecks] draws once for every union it rolls
    for: it leaves the generator [k] Mulberry32 steps further, with [k] at
    most the number of keys and at least 1 when one of the keys names a
    union to roll for. *)
Lemma crackLoop_draws (keys : list string) :
  forall s : CrackState,
    exists k : nat,
      (k <= length keys)%nat /\
      crack_rng (crackLoop keys s) mod 2^32
        = (crack_rng s + Z.of_nat k * 1831565813) mod 2^32 /\
      ((exists id u, In id keys /\ Rec.get id (crack_unions s) = Some u /\
                     rollsForCrack u) -> (1 <= k)%nat).
Proof.
  induction keys as [| key keys IH]; intros s; cbn [crackLoop].
  - exists 0%nat. split; [cbn; lia |]. split.
    + f_equal. lia.
    + intros (id & u & [] & _).
  - assert (Hskip :
      (forall u, Rec.get key (crack_unions s) = Some u -> ~ rollsForCrack u) ->
      exists k : nat,
        (k <= length (key :: keys))%nat /\
        crack_rng (crackLoop keys s) mod 2^32
          = (crack_rng s + Z.of_nat k * 1831565813) mod 2^32 /\
        ((exists id u, In id (key :: keys) /\
                       Rec.get id (crack_unions s) = Some u /\
                       rollsForCrack u) -> (1 <= k)%nat)).
    { intros Hno. destruct (IH s) as (k & Hk & Hrng & Hpos).
      exists k. split; [cbn; lia |]. split; [exact Hrng |].
      intros (id & u & [<- | Hin] & Hget & Hroll).
      - exfalso. exact (Hno u Hget Hroll).
      - apply Hpos. eauto. }
    destruct (Rec.get key (crack_unions s)) as [union |] eqn:Hget.
    + destruct (UnionEntity.isCracked union || negb (UnionEntity.isLicensed union))
        eqn:Hflags.
      * apply Hskip. intros u [= <-] [Hl Hc]. rewrite Hl, Hc in Hflags.
        discriminate Hflags.
      * pose proof (nextInt_cursor 1 100 (crack_rng s)) as Hcur.
        destruct (Rng.nextInt 1 100 (crack_rng s)) as [roll a].
        cbn [snd] in Hcur.
        assert (Hstep : forall s', crack_rng s' = a ->
          exists k : nat,
            (k <= length (key :: keys))%nat /\
            crack_rng (crackLoop keys s') mod 2^32
              = (crack_rng s + Z.of_nat k * 1831565813) mod 2^32 /\
            ((exists id u, In id (key :: keys) /\
                           Rec.get id (crack_unions s) = Some u /\
                           rollsForCrack u) -> (1 <= k)%nat)).
        { intros s' Hs'. destruct (IH s') as (k & Hk & Hrng & _).
          exists (S k). split; [cbn; lia |]. split; [| lia].
          rewrite Hrng, Hs', Hcur.
          rewrite <- Zplus_mod_idemp_l, toInt32_mod, Zplus_mod_idemp_l.
          f_equal. lia. }
        destruct (roll <=? getCrackRisk union); apply Hstep; reflexivity.
    + apply Hskip. intros u Hu. discriminate Hu.
Qed.

(** The increment of Mulberry32 is odd: a number of steps that brings the
    cursor back is a multiple of [2^32]. *)
Lemma steps_back_to_start (c : Z) (k : nat) :
  (c + Z.of_nat k * 1831565813) mod 2^32 = c mod 2^32 ->
  (2^32 | Z.of_nat k).
Proof.
  intros Heq.
  assert (Hdiv : (2^32 | Z.of_nat k * 1831565813)).
  { apply Z.mod_divide; [lia |].
    replace (Z.of_nat k * 1831565813)
      with ((c + Z.of_nat k * 1831565813) - c) by lia.
    rewrite Zminus_mod, Heq, Z.sub_diag. reflexivity. }
  rewrite Z.mul_comm in Hdiv.
  apply Z.gauss in Hdiv; [exact Hdiv | reflexivity].
Qed.

(** C4 does not hold of the code.  For every state with at least one
    licensed, non-cracked union (and fewer than 2^32 unions), the crack
    checks of [applyCycleEnd] draw from a generator started at the cursor
    of the state, and the state returned keeps the input cursor: it is not
    the cursor of the generator after the rolls.  [TURN_ADVANCE] returns
    that cursor too. *)
Theorem cycle_end_keeps_cursor :
  forall (st : RunState) (id : string) (u : UnionEntity.t),
    Rec.get id (unions st) = Some u ->
    UnionEntity.isLicensed u = true ->
    UnionEntity.isCracked u = false ->
    Z.of_nat (length (unions st)) < 2^32 ->
    rngCursor (applyCycleEnd st) = rngCursor st /\
    crack_rng (crackChecks st) <> rngCursor (applyCycleEnd st) /\
    forall w : World,
      cycle st < maxCycles st ->
      exists st',
        gameReducer st TURN_ADVANCE w = Some (st', w) /\
        rngCursor st' = rngCursor st.
Proof.
  intros st id u Hget Hlic Hcr Hsize.
  split; [reflexivity |]. split.
  - change (rngCursor (applyCycleEnd st)) with (rngCursor st).
    unfold crackChecks.
    destruct (crackLoop_draws (Rec.keys (unions st))
                (mkCrackState (unions st) 0 0 (Rng.createRNG (rngCursor st))))
      as (k & Hk & Hrng & Hpos).
    cbn [crack_rng crack_unions] in Hrng, Hpos.
    assert (H1 : (1 <= k)%nat).
    { apply Hpos. exists id, u. split; [exact (get_Some_key _ _ _ Hget) |].
      split; [exact Hget | split; assumption]. }
    unfold Rec.keys in Hk. rewrite length_map in Hk.
    intros Heq. rewrite Heq in Hrng.
    unfold Rng.createRNG, Int32.toUint32 in Hrng.
    rewrite Zplus_mod_idemp_l in Hrng. symmetry in Hrng.
    apply steps_back_to_start in Hrng. destruct Hrng as [q Hq]. nia.
  - intros w Hcycle. unfold gameReducer.
    destruct (Z.leb_spec (maxCycles st) (cycle st)); [lia |].
    eexists. split; [reflexivity |].
    unfold endCycle. destruct (checkLoseCondition _); reflexivity.
Qed.

Lemma cycle_end_keeps_cursor_witness :
  rngCursor (applyCycleEnd crackState) = 42 /\
  crack_rng (crackChecks crackState) <> 42.
Proof.
  destruct (cycle_end_keeps_cursor crackState "union_1_1"
              (sampleUnion "union_1_1" 60 70 40 true))
    as (Hkeep & Hdiff & _).
  - reflexivity.
  - reflexivity.
  - reflexivity.
  - cbn; lia.
  - split; [exact Hkeep |]. rewrite Hkeep in Hdiff. exact Hdiff.
Defined.

(** ** The election *)

(** C1 does not hold of the code.  [ELECTION_RESOLVE] decides the ending
    from the nominal delegates of the recognized federations alone: the
    unions, their loyalty and the delegate rolls play no part.  With six
    recognized federations whose twelve members all have loyalty 0, the
    rolls of the election screen secure 0 delegates of the 12 expected,
    and the reducer ends the run with [capture], not [collapse]. *)
Theorem election_resolve_counts_nominal_delegates :
  (forall (st : RunState) (us : Rec.t UnionEntity.t) (w : World),
      option_map (fun r => ending (fst r))
        (gameReducer (with_unions us st) ELECTION_RESOLVE w)
      = option_map (fun r => ending (fst r))
          (gameReducer st ELECTION_RESOLVE w)) /\
  Forall (fun u => UnionEntity.loyalty u = 0) (Rec.values (unions electionState)) /\
  ElectionNight.expectedDelegates electionState = 12 /\
  ElectionNight.securedDelegates electionState = 0 /\
  ElectionNight.willWin electionState = false /\
  option_map (fun r => (phase (fst r), ending (fst r)))
    (gameReducer electionState ELECTION_RESOLVE sampleWorld)
  = Some (ended, Some capture).
Proof.
  split; [intros st us w; reflexivity |].
  split; [repeat constructor |].
  repeat split; vm_compute; reflexivity.
Qed.

(** ** Ids *)

Lemma readN_showN (n : N) : readN (showN n) = Some n.
Proof.
  unfold readN, showN.
  destruct (N.to_uint n) eqn:Hd;
    try (rewrite NilZero.usu by discriminate; cbn [option_map];
         rewrite <- Hd, DecimalN.Unsigned.of_to; reflexivity).
  cbn. f_equal. rewrite <- (DecimalN.Unsigned.of_to n), Hd. reflexivity.
Qed.

Lemma showN_inj (n m : N) : showN n = showN m -> n = m.
Proof.
  intros H. apply (f_equal readN) in H. rewrite !readN_showN in H.
  injection H as ->. reflexivity.
Qed.

Lemma NilEmpty_digitsOnly (d : Decimal.uint) :
  digitsOnly (NilEmpty.string_of_uint d) = true.
Proof. induction d; cbn; auto. Qed.

Lemma showN_digitsOnly (n : N) : digitsOnly (showN n) = true.
Proof.
  unfold showN, NilZero.string_of_uint.
  destruct (N.to_uint n) eqn:Hd; try (rewrite <- Hd at 1); try reflexivity;
    rewrite ?Hd; apply NilEmpty_digitsOnly.
Qed.

(** Two strings of digits followed by an underscore and a rest: equal
    wholes have equal parts. *)
Lemma digits_underscore_inj (s1 : string) :
  forall s2 r1 r2 : string,
    digitsOnly s1 = true -> digitsOnly s2 = true ->
    String.append s1 (String "_" r1) = String.append s2 (String "_" r2) ->
    s1 = s2 /\ r1 = r2.
Proof.
  induction s1 as [| c s1 IH]; intros [| c2 s2] r1 r2 H1 H2 Heq; cbn in *.
  - injection Heq as ->. auto.
  - injection Heq as <- _. discriminate H2.
  - injection Heq as -> _. discriminate H1.
  - injection Heq as <- Heq.
    apply andb_true_iff in H1, H2. destruct H1 as [_ H1], H2 as [_ H2].
    destruct (IH _ _ _ H1 H2 Heq) as [-> ->]. auto.
Qed.

(** The id made by [generateId] determines the counter it was made from. *)
Lemma generateId_counter (w1 w2 : World) :
  fst (Generator.generateId w1) = fst (Generator.generateId w2) ->
  idCounter w1 = idCounter w2.
Proof.
  unfold Generator.generateId, Date_now, incr_idCounter; cbn.
  intros Heq. injection Heq as Heq.
  apply digits_underscore_inj in Heq; try apply showN_digitsOnly.
  destruct Heq as [_ Heq]. apply showN_inj in Heq. lia.
Qed.

(** C2 does not hold of the code.  The ids of generated unions are made
    from [Date.now()] and from a counter that lives outside the state:
    the same state and action (hence the same RNG cursor), reduced twice
    in a row, give two different results, whatever the clock reads, even
    when it does not move. *)
Theorem generated_ids_depend_on_the_world :
  forall (st : RunState) (w : World),
    unions st = [] ->
    unionsGeneratedInCycle st = false ->
    1 <= Resources.paperwork (resources st) ->
    exists (st1 : RunState) (w1 : World) (st2 : RunState) (w2 : World),
      gameReducer st (UNION_GENERATE 1) w = Some (st1, w1) /\
      gameReducer st (UNION_GENERATE 1) w1 = Some (st2, w2) /\
      Rec.keys (unions st1) <> Rec.keys (unions st2) /\
      st1 <> st2.
Proof.
  intros st w Hnone Hflag Hpaper.
  assert (Hgen : forall w0 : World,
    exists (u : UnionEntity.t) (a' : Z),
      gameReducer st (UNION_GENERATE 1) w0
      = Some (with_resources
                (applyResourceEffects (resources st)
                   (ResourceEffects.mk (Some (-1)) None None None None))
                (with_unionsGeneratedInCycle true
                   (with_rngCursor a'
                      (with_unions [(fst (Generator.generateId w0), u)] st))),
              snd (Generator.generateId w0))).
  { intros w0.
    destruct (generateInto_total (unions st) (Rng.createRNG (rngCursor st)) w0)
      as (u & a' & Hg & _).
    exists u, a'. unfold gameReducer. rewrite Hflag.
    unfold COSTS.generateUnions_paperwork.
    destruct (Z.ltb_spec (Resources.paperwork (resources st)) 1); [lia |].
    change (Z.to_nat 1) with 1%nat. cbn [orb repeatM]. unfold bind.
    rewrite Hg, Hnone. reflexivity. }
  destruct (Hgen w) as (u1 & a1 & H1).
  destruct (Hgen (snd (Generator.generateId w))) as (u2 & a2 & H2).
  do 4 eexists. split; [exact H1 |]. split; [exact H2 |].
  assert (Hkeys :
    Rec.keys (unions
      (with_resources
         (applyResourceEffects (resources st)
            (ResourceEffects.mk (Some (-1)) None None None None))
         (with_unionsGeneratedInCycle true
            (with_rngCursor a1
               (with_unions [(fst (Generator.generateId w), u1)] st)))))
    <> Rec.keys (unions
      (with_resources
         (applyResourceEffects (resources st)
            (ResourceEffects.mk (Some (-1)) None None None None))
         (with_unionsGeneratedInCycle true
            (with_rngCursor a2
               (with_unions
                  [(fst (Generator.generateId (snd (Generator.generateId w))),
                    u2)] st)))))).
  { cbn [unions with_resources with_unionsGeneratedInCycle with_rngCursor
         with_unions Rec.keys map fst].
    intros Heq. apply (f_equal (hd EmptyString)) in Heq. cbn [hd] in Heq.
    apply generateId_counter in Heq.
    unfold Generator.generateId, Date_now, incr_idCounter in Heq.
    cbn in Heq. lia. }
  split; [exact Hkeys |].
  intros Heq. apply Hkeys. rewrite Heq. reflexivity.
Qed.

Lemma generated_ids_depend_on_the_world_witness :
  exists (st1 : RunState) (w1 : World) (st2 : RunState) (w2 : World),
    gameReducer (sampleState [] []) (UNION_GENERATE 1)
                (frozenWorld sampleWorld 1700000000000) = Some (st1, w1) /\
    gameReducer (sampleState [] []) (UNION_GENERATE 1) w1 = Some (st2, w2) /\
    st1 <> st2.
Proof.
  destruct (generated_ids_depend_on_the_world (sampleState [] [])
              (frozenWorld sampleWorld 1700000000000))
    as (st1 & w1 & st2 & w2 & H1 & H2 & _ & Hdiff).
  - reflexivity.
  - reflexivity.
  - cbn; lia.
  - exists st1, w1, st2, w2. auto.
Defined.

(** The two runs of the witness, evaluated: with the clock stopped the
    first call names its union [union_1700000000000_1] and the second
    [union_1700000000000_2]; [FEDERATION_CREATE] names the federation
    after the clock, and [RUN_RESET] seeds the run from [Math.random()]. *)
Lemma ids_of_two_calls :
  let w := frozenWorld sampleWorld 1700000000000 in
  let ids (r : option (RunState * World)) :=
    option_map (fun r => Rec.keys (unions (fst r))) r in
  ids (gameReducer (sampleState [] []) (UNION_GENERATE 1) w)
    = Some ["union_1700000000000_1"%string] /\
  ids (match gameReducer (sampleState [] []) (UNION_GENERATE 1) w with
       | Some (_, w1) => gameReducer (sampleState [] []) (UNION_GENERATE 1) w1
       | None => None
       end)
    = Some ["union_1700000000000_2"%string] /\
  option_map (fun r => seed (fst r)) (gameReducer endedState RUN_RESET w)
    = Some 12345.
Proof. vm_compute. auto. Qed.

(* ================================================================== *)
(** * Further properties of the engine *)
(* ================================================================== *)

(** ** The generator *)



(** A generator recreated from the cursor of another continues its
    sequence: [createRNG(rng.getCursor())] yields the same numbers as
    [rng], however many are drawn. *)
Theorem rng_restart_from_cursor :
  forall (n : nat) (a : Z),
    drawMany n (Rng.createRNG (Rng.getCursor a)) = drawMany n a.
Proof.
  intros n a. destruct n as [| n]; [reflexivity |].
  cbn [drawMany].
  assert (Hnext : Rng.next (Rng.createRNG (Rng.getCursor a)) = Rng.next a).
  { unfold Rng.next, Rng.createRNG, Rng.getCursor.
    replace (Int32.toInt32 (Int32.toUint32 a)) with (Int32.toInt32 a);
      [reflexivity |].
    apply toInt32_congr. unfold Int32.toUint32.
    rewrite Z.mod_mod by lia. reflexivity. }
  rewrite Hnext. reflexivity.
Qed.

(** [pick] throws on the empty array and on no other; what it returns is
    an element of the array, and it draws once. *)
Theorem rng_pick_spec :
  forall (A : Type) (items : list A) (a : Z),
    (items = [] -> Rng.pick items a = None) /\
    (items <> [] ->
     exists x, Rng.pick items a = Some (x, snd (Rng.next a)) /\ In x items).
Proof.
  intros A items a. split.
  - intros ->. reflexivity.
  - intros Hne. destruct items as [| d rest]; [contradiction |].
    unfold Rng.pick.
    pose proof (nextInt_range 0 (Z.of_nat (length (d :: rest)) - 1) a) as Hr.
    pose proof (nextInt_cursor 0 (Z.of_nat (length (d :: rest)) - 1) a) as Hc.
    rewrite <- next_cursor in Hc.
    destruct (Rng.nextInt 0 (Z.of_nat (length (d :: rest)) - 1) a) as [i a'].
    cbn [fst snd] in Hr, Hc. subst a'.
    eexists. split; [reflexivity |].
    apply nth_In. cbn [length] in *. lia.
Qed.

Lemma rng_pick_spec_witness :
  exists x, Rng.pick [10; 20; 30] 42 = Some (x, snd (Rng.next 42)) /\
            In x [10; 20; 30].
Proof.
  destruct (rng_pick_spec Z [10; 20; 30] 42) as [_ H].
  apply H. discriminate.
Defined.

Lemma weightedLoop_In {A} (items : list A) :
  forall (weights : list Z) (roll : Z) (x : A),
    Rng.weightedLoop items weights roll = Some x -> In x items.
Proof.
  induction items as [| y items IH]; intros [| w ws] roll x; cbn;
    try discriminate.
  destruct (_ <=? 0).
  - intros [= ->]. auto.
  - intros H. right. exact (IH _ _ _ H).
Qed.

(** [weightedPick] throws when the two arrays differ in length or are
    empty, and otherwise returns an element of [items], drawing once. *)
Theorem rng_weightedPick_spec :
  forall (A : Type) (items : list A) (weights : list Z) (a : Z),
    (length items <> length weights \/ items = [] ->
     Rng.weightedPick items weights a = None) /\
    (length items = length weights -> items <> [] ->
     exists x,
       Rng.weightedPick items weights a = Some (x, snd (Rng.next a)) /\
       In x items).
Proof.
  intros A items weights a. unfold Rng.weightedPick. split.
  - intros [Hlen | ->].
    + apply Nat.eqb_neq in Hlen. rewrite Hlen. reflexivity.
    + destruct (negb _); reflexivity.
  - intros Hlen Hne. rewrite Hlen, Nat.eqb_refl. cbn [negb].
    destruct items as [| d rest]; [contradiction |].
    destruct (Rng.next a) as [u a']. cbn [snd].
    destruct (Rng.weightedLoop (d :: rest) weights _) as [x |] eqn:Hloop.
    + exists x. split; [reflexivity | exact (weightedLoop_In _ _ _ _ Hloop)].
    + eexists. split; [reflexivity |].
      destruct (exists_last (l := d :: rest)) as (l' & z & Hz); [discriminate |].
      rewrite Hz, last_last. apply in_or_app. right. left. reflexivity.
Qed.

Lemma rng_weightedPick_spec_witness :
  exists x,
    Rng.weightedPick ["shell"; "captured"]%string [40; 60] 42
      = Some (x, snd (Rng.next 42)) /\
    In x ["shell"; "captured"]%string.
Proof.
  destruct (rng_weightedPick_spec string ["shell"; "captured"]%string
              [40; 60] 42) as [_ H].
  apply H; [reflexivity | discriminate].
Defined.

(** *** Shuffling *)

Lemma setAt_length {A} (i : nat) (x : A) (l : list A) :
  length (Rng.setAt i x l) = length l.
Proof.
  revert i. induction l as [| y l IH]; intros [| i]; cbn; auto.
Qed.

(** Writing [y] over the [x] at index [i] trades an [x] for a [y]. *)
Lemma setAt_permutation {A} (l : list A) :
  forall (i : nat) (x y : A),
    nth_error l i = Some x ->
    Permutation (y :: l) (x :: Rng.setAt i y l).
Proof.
  induction l as [| z l IH]; intros [| i] x y Hx; cbn in *; try discriminate.
  - injection Hx as ->. apply perm_swap.
  - rewrite perm_swap. rewrite (IH i x y Hx).
    rewrite (perm_swap z x). reflexivity.
Qed.

Lemma nth_error_setAt {A} (l : list A) :
  forall (i j : nat) (x y z : A),
    nth_error l i = Some x -> nth_error l j = Some y ->
    nth_error (Rng.setAt i y l) j = Some y.
Proof.
  induction l as [| h l IH]; intros [| i] [| j] x y z Hi Hj; cbn in *;
    try discriminate; auto.
  eauto.
Qed.

Lemma swap_permutation {A} (i j : nat) (l : list A) :
  Permutation l (Rng.swap i j l).
Proof.
  unfold Rng.swap.
  destruct (nth_error l i) as [ri |] eqn:Hi; [| reflexivity].
  destruct (nth_error l j) as [rj |] eqn:Hj; [| reflexivity].
  apply (Permutation_cons_inv (a := rj)).
  rewrite (setAt_permutation l i ri rj Hi).
  apply setAt_permutation.
  exact (nth_error_setAt l i j ri rj ri Hi Hj).
Qed.

Lemma shuffleLoop_permutation {A} (i : nat) :
  forall (result : list A) (a : Z),
    Permutation result (fst (Rng.shuffleLoop i result a)).
Proof.
  induction i as [| i IH]; intros result a; cbn [Rng.shuffleLoop].
  - reflexivity.
  - destruct (Rng.nextInt 0 (Z.of_nat (S i)) a) as [j a'].
    rewrite <- IH. apply swap_permutation.
Qed.

Lemma NoDup_firstn {A} (n : nat) (l : list A) : NoDup l -> NoDup (firstn n l).
Proof.
  intros H. rewrite <- (firstn_skipn n l) in H.
  exact (NoDup_app_remove_r _ _ H).
Qed.

(** [shuffle] returns the items in some order: nothing is lost, added or
    repeated.  [pickN] throws exactly when more items are asked for than
    there are; otherwise it returns [n] of the items, distinct when the
    items are. *)
Theorem rng_shuffle_and_pickN :
  forall (A : Type) (items : list A) (n : nat) (a : Z),
    Permutation items (fst (Rng.shuffle items a)) /\
    ((length items < n)%nat -> Rng.pickN items n a = None) /\
    ((n <= length items)%nat ->
     exists picked a',
       Rng.pickN items n a = Some (picked, a') /\
       length picked = n /\
       (forall x, In x picked -> In x items) /\
       (NoDup items -> NoDup picked)).
Proof.
  intros A items n a.
  assert (Hperm : Permutation items (fst (Rng.shuffle items a)))
    by apply shuffleLoop_permutation.
  split; [exact Hperm |]. unfold Rng.pickN. split.
  - intros Hlt. apply Nat.ltb_lt in Hlt. rewrite Hlt. reflexivity.
  - intros Hle. destruct (Nat.ltb_spec (length items) n); [lia |].
    destruct (Rng.shuffle items a) as [shuffled a']. cbn [fst] in Hperm.
    exists (firstn n shuffled), a'. split; [reflexivity |].
    split; [| split].
    + rewrite length_firstn, <- (Permutation_length Hperm). lia.
    + intros x Hx. apply (Permutation_in x (Permutation_sym Hperm)).
      rewrite <- (firstn_skipn n shuffled). apply in_or_app. auto.
    + intros Hnd. apply NoDup_firstn.
      exact (Permutation_NoDup Hperm Hnd).
Qed.

Lemma rng_shuffle_and_pickN_witness :
  exists picked a',
    Rng.pickN [1; 2; 3; 4; 5] 2 42 = Some (picked, a') /\ length picked = 2%nat.
Proof.
  destruct (rng_shuffle_and_pickN Z [1; 2; 3; 4; 5] 2 42)
    as (_ & _ & H).
  destruct H as (picked & a' & Hp & Hl & _); [cbn; lia |].
  exists picked, a'. auto.
Defined.

(** ** The shape of a step *)

Lemma endCycle_unions (st : RunState) :
  unions (endCycle st)
  = crack_unions (crackLoop (Rec.keys (unions st))
                   (mkCrackState (unions st) 0 0
                                 (Rng.createRNG (rngCursor st)))).
Proof. unfold endCycle. destruct (checkLoseCondition _); reflexivity. Qed.

Lemma endCycle_federations (st : RunState) :
  federations (endCycle st) = federations st.
Proof. unfold endCycle. destruct (checkLoseCondition _); reflexivity. Qed.

(** What an action can do to the unions and to the federations. *)
Lemma reducer_shape (st : RunState) (a : GameAction) (w : World)
    (st' : RunState) (w' : World) :
  gameReducer st a w = Some (st', w') ->
  unionsStep st st' /\ federationsStep st st'.
Proof.
  intros Hred. destruct a.
  - (* RUN_START *)
    unfold gameReducer, createInitialState in Hred.
    destruct seed0; cbn in Hred; injection Hred as <- <-.
    all: split; right; left; split; reflexivity.
  - (* RUN_RESET *)
    cbn in Hred. injection Hred as <- <-.
    split; right; left; split; reflexivity.
  - (* TURN_ADVANCE *)
    unfold gameReducer in Hred.
    destruct (maxCycles st <=? cycle st); injection Hred as <- <-.
    + split; left; reflexivity.
    + split; [| left; apply endCycle_federations].
      do 6 right. eexists. apply endCycle_unions.
  - (* UNION_GENERATE *)
    unfold gameReducer in Hred.
    destruct (_ || _); [injection Hred as <- <-; split; left; reflexivity |].
    destruct (repeatM _ _ _ _) as [[us [rng w1]] |] eqn:Hloop; [| discriminate].
    injection Hred as <- <-.
    split; [| left; reflexivity].
    right; right; left. do 3 eexists. exact Hloop.
  - (* UNION_LICENSE *)
    unfold gameReducer in Hred.
    destruct (Rec.get unionId (unions st)) as [u |] eqn:Hget;
      [| injection Hred as <- <-; split; left; reflexivity].
    destruct (UnionEntity.isLicensed u) eqn:Hl;
      [injection Hred as <- <-; split; left; reflexivity |].
    destruct (UnionEntity.isCracked u) eqn:Hc;
      [injection Hred as <- <-; split; left; reflexivity |].
    cbn [orb] in Hred.
    destruct (_ <? _); [injection Hred as <- <-; split; left; reflexivity |].
    destruct (Rng.nextInt _ _ _) as [roll rng].
    destruct (roll <=? _); injection Hred as <- <-;
      (split; [| left; reflexivity]).
    + do 3 right; left. exists unionId, u. auto.
    + left; reflexivity.
  - (* UNION_LICENSE_RESULT *)
    injection Hred as <- <-. split; left; reflexivity.
  - (* UNION_INCUBATE *)
    unfold gameReducer in Hred.
    destruct (Rec.get unionId (unions st)) as [u |] eqn:Hget;
      [| injection Hred as <- <-; split; left; reflexivity].
    destruct (UnionEntity.isIncubated u) eqn:Hi;
      [injection Hred as <- <-; split; left; reflexivity |].
    destruct (UnionEntity.isCracked u) eqn:Hc;
      [injection Hred as <- <-; split; left; reflexivity |].
    cbn [orb] in Hred.
    destruct (_ <? _); injection Hred as <- <-;
      (split; [| left; reflexivity]).
    + left; reflexivity.
    + do 4 right; left. exists unionId, u, mode. auto.
  - (* UNION_DISSOLVE *)
    unfold gameReducer in Hred.
    destruct (Rec.get unionId (unions st)) as [u |] eqn:Hget;
      [| injection Hred as <- <-; split; left; reflexivity].
    destruct (isInFederation st unionId) eqn:Hin; injection Hred as <- <-;
      (split; [| left; reflexivity]).
    + left; reflexivity.
    + do 5 right; left. exists unionId. auto.
  - (* UNION_REASSIGN *)
    unfold gameReducer in Hred.
    destruct (Rec.get unionId (unions st)) as [u |] eqn:Hget;
      [| injection Hred as <- <-; split; left; reflexivity].
    destruct (isInFederation st unionId) eqn:Hin; injection Hred as <- <-;
      (split; [| left; reflexivity]).
    + left; reflexivity.
    + do 5 right; left. exists unionId. auto.
  - (* FEDERATION_CREATE *)
    rewrite federation_create_guarded in Hred.
    destruct (federationGuard st unionIds) eqn:Hguard;
      [| injection Hred as <- <-; split; left; reflexivity].
    destruct (Generator.generateFederationName _ _) as [[name [rng w1]] |];
      [| discriminate].
    cbv zeta in Hred. injection Hred as <- <-.
    split; [left; reflexivity |].
    right; right. do 3 eexists.
    split; [apply federationGuard_spec; exact Hguard |].
    split; reflexivity.
  - (* EVENT_DRAW *)
    injection Hred as <- <-. split; left; reflexivity.
  - (* EVENT_CHOOSE *)
    unfold gameReducer in Hred.
    destruct (checkLoseCondition _);
      [injection Hred as <- <-; split; left; reflexivity |].
    destruct (_ <=? _); injection Hred as <- <-.
    + split; left; reflexivity.
    + split; [| left; rewrite endCycle_federations; reflexivity].
      do 6 right. eexists. rewrite endCycle_unions. reflexivity.
  - (* EVENT_DISMISS *)
    injection Hred as <- <-. split; left; reflexivity.
  - (* ELECTION_RESOLVE *)
    injection Hred as <- <-. split; left; reflexivity.
  - (* TUTORIAL_DISMISS *)
    injection Hred as <- <-. split; left; reflexivity.
  - (* SET_PHASE *)
    injection Hred as <- <-. split; left; reflexivity.
Qed.

(** A property that the first state of a run has and that every action
    keeps holds of every state of the run. *)
Lemma reachable_ind (P : RunState -> Prop) :
  (forall seed showTips w,
      P (with_phase playing (fst (createInitialState seed showTips w)))) ->
  (forall st a w st' w', P st -> gameReducer st a w = Some (st', w') -> P st') ->
  forall st, reachable st -> P st.
Proof.
  intros Hinit Hstep st' (seed0 & tips & actions & st & w & w' & Hrun).
  cbn [dispatch] in Hrun.
  assert (Hfirst : gameReducer st (RUN_START seed0 tips) w
            = Some (with_phase playing (fst (createInitialState seed0 tips w)),
                    snd (createInitialState seed0 tips w))).
  { cbn. destruct seed0; reflexivity. }
  rewrite Hfirst in Hrun.
  pose proof (Hinit seed0 tips w) as H0.
  revert Hrun H0.
  generalize (with_phase playing (fst (createInitialState seed0 tips w))).
  generalize (snd (createInitialState seed0 tips w)).
  clear Hfirst. induction actions as [| a rest IH]; intros w0 s0 Hrun H0.
  - cbn in Hrun. injection Hrun as <- <-. exact H0.
  - cbn [dispatch] in Hrun.
    destruct (gameReducer s0 a w0) as [[s1 w1] |] eqn:Hred; [| discriminate].
    exact (IH _ _ Hrun (Hstep _ _ _ _ _ H0 Hred)).
Qed.

(** ** Generated unions *)

Lemma weightedPick_some {A} (d : A) (rest : list A) (weights : list Z) (a : Z) :
  length (d :: rest) = length weights ->
  exists x, Rng.weightedPick (d :: rest) weights a = Some (x, snd (Rng.next a))
            /\ In x (d :: rest).
Proof.
  intros Hlen. unfold Rng.weightedPick. rewrite Hlen, Nat.eqb_refl. cbn [negb].
  destruct (Rng.next a) as [u a']. cbn [snd].
  destruct (Rng.weightedLoop (d :: rest) weights _) as [x |] eqn:Hloop.
  - exists x. split; [reflexivity | exact (weightedLoop_In _ _ _ _ Hloop)].
  - eexists. split; [reflexivity |].
    destruct (exists_last (l := d :: rest)) as (l' & z & Hz); [discriminate |].
    rewrite Hz, last_last. apply in_or_app. right. left. reflexivity.
Qed.

Lemma generateUnionName_total (a : Z) (w : World) :
  exists name sector a',
    Generator.generateUnionName (a, w) = Some ((name, sector), (a', w)).
Proof.
  unfold Generator.generateUnionName, Generator.onRng, Rng.pick, bind, ret.
  simpl_gen. repeat (step_gen; simpl_gen); eauto.
Qed.

Ltac roll_in_range :=
  match goal with
  | |- context [Rng.nextInt ?lo ?hi ?a] =>
      let H := fresh "Hroll" in
      pose proof (nextInt_range lo hi a ltac:(lia)) as H;
      destruct (Rng.nextInt lo hi a); cbn [fst] in H
  end.

(** The stats rolled by [generateUnionStats] lie in the ranges of the
    archetype drawn. *)
Lemma generateUnionStats_ranges (a : Z) (w : World) :
  exists stats a',
    Generator.generateUnionStats (a, w) = Some (stats, (a', w)) /\
    forall id name sector,
      archetypeRanges
        (UnionEntity.mk id name sector (Generator.st_plausibility stats)
           (Generator.st_loyalty stats) (Generator.st_integrity stats)
           (Generator.st_maintenanceCost stats) (Generator.st_tags stats)
           false false false None).
Proof.
  unfold Generator.generateUnionStats, Generator.onRng, Generator.onRngTotal,
    bind at 1.
  destruct (weightedPick_some "shell"%string
              ["captured"; "authentic"; "volatile"]%string
              [40; 30; 20; 10] a eq_refl) as (arch & Hpick & Hin).
  rewrite Hpick.
  destruct Hin as [<- | [<- | [<- | [<- | []]]]];
    cbn [String.eqb Ascii.eqb Bool.eqb andb]; unfold bind, ret;
    repeat roll_in_range;
    (do 2 eexists; split; [reflexivity |]; intros id name sector;
     unfold archetypeRanges; cbn).
  - left. repeat split; lia.
  - right; left. repeat split; lia.
  - right; right; left. repeat split; lia.
  - right; right; right. repeat split; lia.
Qed.

(** What [generateUnion] returns. *)
Lemma generateUnion_spec (a : Z) (w : World) :
  exists u a',
    Generator.generateUnion (a, w) = Some (u, (a', snd (Generator.generateId w)))
    /\ UnionEntity.id u = fst (Generator.generateId w)
    /\ UnionEntity.isIncubated u = false
    /\ UnionEntity.isLicensed u = false
    /\ UnionEntity.isCracked u = false
    /\ UnionEntity.incubationMode u = None
    /\ archetypeRanges u.
Proof.
  destruct (generateUnionName_total a w) as (name & sector & a1 & Hname).
  destruct (generateUnionStats_ranges a1 w) as (stats & a2 & Hstats & Hr).
  unfold Generator.generateUnion, bind. rewrite Hname, Hstats.
  unfold Generator.onWorld, ret.
  destruct (Generator.generateId w) as [id w1].
  do 2 eexists. split; [reflexivity |]. cbn.
  repeat split. apply Hr.
Qed.

(** Every union that [generateUnion] makes has its stats in the ranges
    of one of the four archetypes, which lie within [0,100]; a shell costs
    nothing to maintain and any other union between 1 and 5; the union is
    neither incubated, nor licensed, nor cracked, and its id is the one
    [generateId] makes from the clock and the counter. *)
Theorem generated_union_in_archetype_ranges :
  forall (a : Z) (w : World) (u : UnionEntity.t) (ctx : Z * World),
    Generator.generateUnion (a, w) = Some (u, ctx) ->
    archetypeRanges u /\
    statsWithinBounds u /\
    0 <= UnionEntity.maintenanceCost u <= 5 /\
    (UnionEntity.maintenanceCost u = 0 <-> isShell u = true) /\
    UnionEntity.isIncubated u = false /\
    UnionEntity.isLicensed u = false /\
    UnionEntity.isCracked u = false /\
    UnionEntity.id u
      = String.append "union_"
          (String.append (showN (clock w (clockReads w)))
             (String.append "_" (showN (idCounter w + 1)))).
Proof.
  intros a w u ctx Hgen.
  destruct (generateUnion_spec a w) as (u' & a' & Hgen' & Hid & Hi & Hl & Hc & _ & Hr).
  rewrite Hgen' in Hgen. injection Hgen as <- _.
  split; [exact Hr |].
  split; [| split; [| split; [| repeat split; assumption]]].
  - unfold statsWithinBounds.
    destruct Hr as [H | [H | [H | H]]]; destruct H as (_ & ? & ? & ? & _); lia.
  - destruct Hr as [H | [H | [H | H]]]; destruct H as (_ & _ & _ & _ & ?); lia.
  - unfold isShell.
    destruct Hr as [H | [H | [H | H]]]; destruct H as (-> & _ & _ & _ & Hm);
      cbn; split; intros; try reflexivity; try discriminate; try lia.
Qed.

Lemma generated_union_in_archetype_ranges_witness :
  exists u ctx,
    Generator.generateUnion (Rng.createRNG 42, sampleWorld) = Some (u, ctx) /\
    statsWithinBounds u /\
    UnionEntity.id u = "union_1700000000000_1"%string.
Proof.
  destruct (generateUnion_spec (Rng.createRNG 42) sampleWorld)
    as (u & a' & Hgen & _).
  exists u, (a', snd (Generator.generateId sampleWorld)).
  destruct (generated_union_in_archetype_ranges _ _ _ _ Hgen)
    as (_ & Hb & _ & _ & _ & _ & _ & Hid).
  split; [exact Hgen | split; [exact Hb |]].
  rewrite Hid. vm_compute. reflexivity.
Defined.

(** ** Records *)

Lemma get_In {V} (k : string) (v : V) (m : Rec.t V) :
  Rec.get k m = Some v -> In (k, v) m.
Proof.
  induction m as [| [k' v'] m IH]; cbn; [discriminate |].
  destruct (String.eqb_spec k' k).
  - intros [= ->]. subst. auto.
  - auto.
Qed.

Lemma get_set_other {V} (k k' : string) (v : V) (m : Rec.t V) :
  k <> k' -> Rec.get k' (Rec.set k v m) = Rec.get k' m.
Proof.
  intros Hne. induction m as [| [k0 v0] m IH]; cbn.
  - destruct (String.eqb_spec k k'); [contradiction | reflexivity].
  - destruct (String.eqb_spec k0 k); cbn.
    + subst k0. destruct (String.eqb_spec k k'); [contradiction | reflexivity].
    + destruct (String.eqb_spec k0 k'); [reflexivity | exact IH].
Qed.

Lemma get_remove_same {V} (k : string) (m : Rec.t V) :
  Rec.get k (Rec.remove k m) = None.
Proof.
  induction m as [| [k0 v0] m IH]; cbn; [reflexivity |].
  destruct (String.eqb_spec k0 k); cbn; [exact IH |].
  destruct (String.eqb_spec k0 k); [contradiction | exact IH].
Qed.

Lemma get_remove_other {V} (k k' : string) (m : Rec.t V) :
  k <> k' -> Rec.get k' (Rec.remove k m) = Rec.get k' m.
Proof.
  intros Hne. induction m as [| [k0 v0] m IH]; cbn; [reflexivity |].
  destruct (String.eqb_spec k0 k); cbn.
  - subst k0. destruct (String.eqb_spec k k'); [contradiction | exact IH].
  - destruct (String.eqb_spec k0 k'); [reflexivity | exact IH].
Qed.

Lemma Forall_set {V} (P : string * V -> Prop) (k : string) (v : V)
    (m : Rec.t V) :
  Forall P m -> P (k, v) -> Forall P (Rec.set k v m).
Proof.
  intros Hall Hv. induction Hall as [| [k0 v0] m H0 Hm IH]; cbn.
  - auto.
  - destruct (String.eqb k0 k); constructor; auto.
Qed.

Lemma Forall_remove {V} (P : string * V -> Prop) (k : string) (m : Rec.t V) :
  Forall P m -> Forall P (Rec.remove k m).
Proof.
  intros Hall. unfold Rec.remove. rewrite Forall_forall in *.
  intros x Hx. apply filter_In in Hx. apply Hall, Hx.
Qed.

(** Setting a key keeps the keys when it is one of them and adds it at
    the end when it is not. *)
Lemma keys_set {V} (k : string) (v : V) (m : Rec.t V) :
  Rec.keys (Rec.set k v m)
  = if includes k (Rec.keys m) then Rec.keys m else Rec.keys m ++ [k].
Proof.
  unfold includes. induction m as [| [k0 v0] m IH]; cbn; [reflexivity |].
  rewrite (String.eqb_sym k k0).
  destruct (String.eqb_spec k0 k); cbn.
  - subst. reflexivity.
  - fold (Rec.keys (Rec.set k v m)). fold (Rec.keys m). rewrite IH.
    destruct (existsb _ _); reflexivity.
Qed.

Lemma get_Some_iff_key {V} (k : string) (m : Rec.t V) :
  In k (Rec.keys m) <-> exists v, Rec.get k m = Some v.
Proof.
  split.
  - induction m as [| [k0 v0] m IH]; cbn; [intros [] |].
    destruct (String.eqb_spec k0 k); [eauto |].
    intros [H | H]; [contradiction | auto].
  - intros [v Hv]. exact (get_Some_key _ _ _ Hv).
Qed.

Lemma NoDup_keys_set {V} (k : string) (v : V) (m : Rec.t V) :
  NoDup (Rec.keys m) -> NoDup (Rec.keys (Rec.set k v m)).
Proof.
  intros Hnd. rewrite keys_set.
  destruct (includes k (Rec.keys m)) eqn:Hin; [exact Hnd |].
  apply NoDup_app; [exact Hnd | repeat constructor; intros [] |].
  intros x Hx [<- | []].
  apply includes_In in Hx. congruence.
Qed.

Lemma NoDup_keys_remove {V} (k : string) (m : Rec.t V) :
  NoDup (Rec.keys m) -> NoDup (Rec.keys (Rec.remove k m)).
Proof.
  unfold Rec.keys, Rec.remove.
  induction m as [| [k0 v0] m IH]; cbn; [auto |].
  intros Hnd. inversion Hnd as [| ? ? Hnotin Hrest]; subst.
  destruct (String.eqb k0 k); cbn; [auto |].
  constructor; [| auto].
  intros Hin. apply Hnotin. apply in_map_iff in Hin.
  destruct Hin as (x & Hx & Hf). apply filter_In in Hf.
  apply in_map_iff. exists x. tauto.
Qed.

(** ** The unions of a run *)

Lemma crackLoop_well_formed (keys : list string) :
  forall s : CrackState,
    Forall unionWellFormed (crack_unions s) ->
    NoDup (Rec.keys (crack_unions s)) ->
    Forall unionWellFormed (crack_unions (crackLoop keys s)) /\
    NoDup (Rec.keys (crack_unions (crackLoop keys s))).
Proof.
  induction keys as [| key keys IH]; intros s Hall Hnd; cbn [crackLoop];
    [auto |].
  destruct (Rec.get key (crack_unions s)) as [union |] eqn:Hget; [| auto].
  destruct (_ || _); [auto |].
  destruct (Rng.nextInt 1 100 (crack_rng s)) as [roll a].
  destruct (roll <=? getCrackRisk union); apply IH; cbn [crack_unions]; auto.
  - apply Forall_set; [exact Hall |].
    apply get_In in Hget. rewrite Forall_forall in Hall.
    destruct (Hall _ Hget) as (Hid & Hstats & Hcost & _).
    unfold unionWellFormed; cbn in *. auto.
  - apply NoDup_keys_set. exact Hnd.
Qed.

Lemma generateInto_spec (acc : Rec.t UnionEntity.t) (a : Z) (w : World) :
  exists u a',
    generateInto acc (a, w)
      = Some (Rec.set (UnionEntity.id u) u acc,
              (a', snd (Generator.generateId w)))
    /\ UnionEntity.id u = fst (Generator.generateId w)
    /\ UnionEntity.isLicensed u = false
    /\ UnionEntity.isCracked u = false
    /\ archetypeRanges u.
Proof.
  destruct (generateUnion_spec a w)
    as (u & a' & Hgen & Hid & _ & Hl & Hc & _ & Hr).
  exists u, a'. unfold generateInto, bind, ret. rewrite Hgen. auto.
Qed.

Lemma repeatM_S {S A} (n : nat) (body : A -> M S A) (acc : A) (s : S) :
  repeatM (Datatypes.S n) body acc s
  = match body acc s with
    | Some (acc', s') => repeatM n body acc' s'
    | None => None
    end.
Proof. reflexivity. Qed.

Lemma generate_loop_well_formed (n : nat) :
  forall (acc : Rec.t UnionEntity.t) (ctx ctx' : Z * World)
         (acc' : Rec.t UnionEntity.t),
    repeatM n generateInto acc ctx = Some (acc', ctx') ->
    Forall unionWellFormed acc -> NoDup (Rec.keys acc) ->
    Forall unionWellFormed acc' /\ NoDup (Rec.keys acc').
Proof.
  induction n as [| n IH]; intros acc [a w] ctx' acc' Hloop Hall Hnd.
  - injection Hloop as <- _. auto.
  - destruct (generateInto_spec acc a w)
      as (u & a' & Hinto & Hid & Hl & Hc & Hr).
    rewrite repeatM_S, Hinto in Hloop.
    apply (IH _ _ _ _ Hloop).
    + apply Forall_set; [exact Hall |].
      unfold unionWellFormed, statsWithinBounds; cbn [fst snd].
      rewrite Hc.
      destruct Hr as [H | [H | [H | H]]];
        destruct H as (_ & ? & ? & ? & ?);
        repeat split; try lia; discriminate.
    + apply NoDup_keys_set. exact Hnd.
Qed.

Lemma incubated_well_formed (k : string) (u : UnionEntity.t)
    (mode : IncubationMode) :
  unionWellFormed (k, u) -> unionWellFormed (k, incubated u mode).
Proof.
  unfold unionWellFormed, statsWithinBounds; cbn [fst snd].
  intros (Hid & (Hp & Hl & Hi) & Hcost & Hcr).
  destruct mode; cbn; repeat split; try lia; auto.
Qed.

Lemma unionsStep_well_formed (st st' : RunState) :
  unionsStep st st' ->
  Forall unionWellFormed (unions st) /\ NoDup (Rec.keys (unions st)) ->
  Forall unionWellFormed (unions st') /\ NoDup (Rec.keys (unions st')).
Proof.
  intros Hstep [Hall Hnd].
  destruct Hstep as [-> | [[-> _] | [Hgen | [Hlic | [Hinc | [Hrem | Hcrack]]]]]].
  - auto.
  - split; constructor.
  - destruct Hgen as (n & ctx & ctx' & Hloop).
    exact (generate_loop_well_formed _ _ _ _ _ Hloop Hall Hnd).
  - destruct Hlic as (id & u & Hget & Hl & Hc & ->).
    split; [| apply NoDup_keys_set; exact Hnd].
    apply Forall_set; [exact Hall |].
    apply get_In in Hget. rewrite Forall_forall in Hall.
    destruct (Hall _ Hget) as (Hid & Hstats & Hcost & _).
    cbn [fst snd] in *.
    unfold unionWellFormed, licensed, withStatus, statsWithinBounds in *.
    cbn [fst snd UnionEntity.id UnionEntity.plausibility UnionEntity.loyalty
         UnionEntity.integrity UnionEntity.maintenanceCost
         UnionEntity.isCracked UnionEntity.isLicensed].
    rewrite Hc. repeat split; try tauto; try lia.
  - destruct Hinc as (id & u & mode & Hget & _ & _ & ->).
    split; [| apply NoDup_keys_set; exact Hnd].
    apply Forall_set; [exact Hall |].
    apply incubated_well_formed.
    apply get_In in Hget. rewrite Forall_forall in Hall. exact (Hall _ Hget).
  - destruct Hrem as (id & _ & _ & ->).
    split; [apply Forall_remove; exact Hall | apply NoDup_keys_remove; exact Hnd].
  - destruct Hcrack as (c & ->).
    apply crackLoop_well_formed; assumption.
Qed.

Lemma reachable_unions_inv (st : RunState) :
  reachable st ->
  Forall unionWellFormed (unions st) /\ NoDup (Rec.keys (unions st)).
Proof.
  apply (reachable_ind
           (fun s => Forall unionWellFormed (unions s)
                     /\ NoDup (Rec.keys (unions s)))).
  - intros sd tips w. destruct sd; cbn; split; constructor.
  - intros s a w s' w' Hinv Hred.
    exact (unionsStep_well_formed _ _ (proj1 (reducer_shape _ _ _ _ _ Hred)) Hinv).
Qed.



(** ** The federations of a run *)






Lemma isInFederation_spec (st : RunState) (id : string) :
  isInFederation st id = true <->
  exists f, In f (Rec.values (federations st)) /\
            In id (FederationEntity.unionIds f).
Proof.
  unfold isInFederation. rewrite existsb_exists.
  split; intros (f & Hf & Hid); exists f; split; auto; apply includes_In; auto.
Qed.








(** ** The counters of a run *)








(** ** Actions one by one *)


(** An event choice whose effects bring legitimacy to 0 or below, or audit
    risk or street heat to 100 or above, ends the run at once: phase
    [ended], ending [collapse], the resources clamped, the event recorded
    in the history, and neither upkeep nor crack checks: cycle, unions and
    cursor are unchanged. *)
Theorem event_choice_loss_ends_run :
  forall (st : RunState) (w : World) (eventId choiceId : string)
         (effects : ResourceEffects.t) (unlocks : option (list string)),
    Resources.legitimacy (resources st)
      + orZero (ResourceEffects.legitimacy effects) <= 0
    \/ 100 <= Resources.auditRisk (resources st)
              + orZero (ResourceEffects.auditRisk effects)
    \/ 100 <= Resources.streetHeat (resources st)
              + orZero (ResourceEffects.streetHeat effects) ->
    exists st',
      gameReducer st (EVENT_CHOOSE eventId choiceId effects unlocks) w
        = Some (st', w) /\
      phase st' = ended /\
      ending st' = Some collapse /\
      resources st' = applyResourceEffects (resources st) effects /\
      (Resources.legitimacy (resources st') = 0
       \/ Resources.auditRisk (resources st') = 100
       \/ Resources.streetHeat (resources st') = 100) /\
      eventHistory st' = eventHistory st ++ [eventId] /\
      currentEventId st' = None /\
      cycle st' = cycle st /\
      unions st' = unions st /\
      rngCursor st' = rngCursor st.
Proof.
  intros st w eventId choiceId effects unlocks Hloss.
  set (r := applyResourceEffects (resources st) effects).
  assert (Hr : Resources.legitimacy r = 0
               \/ (0 < Resources.legitimacy r /\ Resources.auditRisk r = 100)
               \/ (0 < Resources.legitimacy r /\ Resources.auditRisk r < 100
                   /\ Resources.streetHeat r = 100)).
  { unfold r, applyResourceEffects, clamp; cbn. lia. }
  eexists. split.
  - unfold gameReducer, checkLoseCondition.
    cbn -[applyResourceEffects]. fold r.
    destruct (Z.leb_spec (Resources.legitimacy r) 0); [reflexivity |].
    destruct (Z.leb_spec 100 (Resources.auditRisk r)); [reflexivity |].
    destruct (Z.leb_spec 100 (Resources.streetHeat r)); [reflexivity |].
    lia.
  - cbn -[applyResourceEffects]. fold r.
    repeat split; try reflexivity. lia.
Qed.

Lemma event_choice_loss_ends_run_witness :
  exists st',
    gameReducer
      (with_resources (Resources.mk 3 5 1 10 5) (sampleState [] []))
      (EVENT_CHOOSE "strike" "ignore"
         (ResourceEffects.mk None None (Some (-5)) None None) None)
      sampleWorld = Some (st', sampleWorld) /\
    phase st' = ended /\ ending st' = Some collapse /\
    Resources.legitimacy (resources st') = 0.
Proof.
  destruct (event_choice_loss_ends_run
              (with_resources (Resources.mk 3 5 1 10 5) (sampleState [] []))
              sampleWorld "strike" "ignore"
              (ResourceEffects.mk None None (Some (-5)) None None) None)
    as (st' & Hred & Hp & He & Hres & _).
  - left. cbn. lia.
  - exists st'. repeat split; try assumption. rewrite Hres. reflexivity.
Defined.

(** [UNION_LICENSE] on an unlicensed, uncracked union with 1 paperwork
    or more, when the roll does not exceed the licence chance: the union
    is licensed and otherwise as it was, every other union is untouched,
    paperwork decreases by 1 and no audit risk is added, and the cursor
    advances by the one roll. *)
Theorem license_success :
  forall (st : RunState) (unionId : string) (union : UnionEntity.t)
         (w : World) (roll rng' : Z),
    Rec.get unionId (unions st) = Some union ->
    UnionEntity.isLicensed union = false ->
    UnionEntity.isCracked union = false ->
    1 <= Resources.paperwork (resources st) ->
    resourcesWithinBounds (resources st) ->
    Rng.nextInt 1 100 (Rng.createRNG (rngCursor st)) = (roll, rng') ->
    roll <= getLicenseChance union ->
    exists st',
      gameReducer st (UNION_LICENSE unionId) w = Some (st', w) /\
      Rec.get unionId (unions st') = Some (withStatus union false true) /\
      (forall other, other <> unionId ->
         Rec.get other (unions st') = Rec.get other (unions st)) /\
      Rec.keys (unions st') = Rec.keys (unions st) /\
      resources st'
        = Resources.mk (Resources.paperwork (resources st) - 1)
            (Resources.patronage (resources st))
            (Resources.legitimacy (resources st))
            (Resources.auditRisk (resources st))
            (Resources.streetHeat (resources st)) /\
      rngCursor st' = Int32.toInt32 (rngCursor st + 1831565813) /\
      federations st' = federations st /\
      phase st' = phase st /\
      cycle st' = cycle st.
Proof.
  intros st unionId union w roll rng' Hget Hlic Hcr Hpaper Hb Hroll Hok.
  eexists. split.
  - unfold gameReducer. rewrite Hget, Hlic, Hcr. cbn [orb].
    unfold COSTS.license_paperwork.
    destruct (Z.ltb_spec (Resources.paperwork (resources st)) 1); [lia |].
    rewrite Hroll.
    destruct (Z.leb_spec roll (getLicenseChance union)); [reflexivity | lia].
  - cbn [unions resources rngCursor federations phase cycle with_rngCursor
         with_resources with_unions].
    split; [| split; [| split; [| split; [| split]]]].
    + rewrite get_set_same. unfold licensed. rewrite Hcr. reflexivity.
    + intros other Hne. apply get_set_other. auto.
    + rewrite keys_set.
      assert (Hin : includes unionId (Rec.keys (unions st)) = true)
        by (apply includes_In; exact (get_Some_key _ _ _ Hget)).
      rewrite Hin. reflexivity.
    + destruct Hb as (H1 & H2 & H3 & H4 & H5).
      unfold applyResourceEffects, clamp; cbn. f_equal; lia.
    + unfold Rng.getCursor.
      pose proof (nextInt_cursor 1 100 (Rng.createRNG (rngCursor st))) as Hc.
      rewrite Hroll in Hc; cbn [snd] in Hc. rewrite Hc.
      apply toInt32_congr. unfold Rng.createRNG, Int32.toUint32.
      rewrite Zplus_mod_idemp_l. reflexivity.
    + auto.
Qed.

Lemma license_success_witness :
  let u := sampleUnion "union_1_1" 60 60 50 false in
  exists st',
    gameReducer (sampleState [u] []) (UNION_LICENSE "union_1_1") sampleWorld
      = Some (st', sampleWorld) /\
    Rec.get "union_1_1" (unions st') = Some (withStatus u false true) /\
    Resources.paperwork (resources st') = 2.
Proof.
  intros u.
  destruct (license_success (sampleState [u] []) "union_1_1" u sampleWorld
              61 1831565855)
    as (st' & Hred & Hget & _ & _ & Hres & _).
  - reflexivity.
  - reflexivity.
  - reflexivity.
  - cbn; lia.
  - unfold resourcesWithinBounds; cbn; lia.
  - vm_compute; reflexivity.
  - vm_compute; discriminate.
  - exists st'. repeat split; try assumption. rewrite Hres. reflexivity.
Defined.

(** *** Incubation *)

(** [UNION_INCUBATE] on a union that is neither incubated nor cracked, with
    2 patronage or more: the union is marked incubated with the mode, its
    integrity rises by 10, and plausibility rises by 15 and loyalty falls
    by 10 in paperwork mode, loyalty rises by 15 and plausibility falls by
    10 in discipline mode, each stat held within [0,100]; patronage
    decreases by 2 and paperwork mode alone adds 2 street heat.  Incubation
    happens once: on the resulting state a further [UNION_INCUBATE] of the
    union, in either mode, changes nothing. *)
Theorem incubate_once :
  forall (st : RunState) (unionId : string) (union : UnionEntity.t)
         (mode : IncubationMode) (w : World),
    Rec.get unionId (unions st) = Some union ->
    UnionEntity.isIncubated union = false ->
    UnionEntity.isCracked union = false ->
    2 <= Resources.patronage (resources st) ->
    resourcesWithinBounds (resources st) ->
    statsWithinBounds union ->
    exists (st' : RunState) (union' : UnionEntity.t),
      gameReducer st (UNION_INCUBATE unionId mode) w = Some (st', w) /\
      Rec.get unionId (unions st') = Some union' /\
      UnionEntity.isIncubated union' = true /\
      UnionEntity.incubationMode union' = Some mode /\
      UnionEntity.isLicensed union' = UnionEntity.isLicensed union /\
      UnionEntity.integrity union'
        = Z.min 100 (UnionEntity.integrity union + 10) /\
      match mode with
      | mode_paperwork =>
          UnionEntity.plausibility union'
            = Z.min 100 (UnionEntity.plausibility union + 15) /\
          UnionEntity.loyalty union'
            = Z.max 0 (UnionEntity.loyalty union - 10) /\
          Resources.streetHeat (resources st')
            = Z.min 100 (Resources.streetHeat (resources st) + 2)
      | mode_discipline =>
          UnionEntity.loyalty union'
            = Z.min 100 (UnionEntity.loyalty union + 15) /\
          UnionEntity.plausibility union'
            = Z.max 0 (UnionEntity.plausibility union - 10) /\
          Resources.streetHeat (resources st')
            = Resources.streetHeat (resources st)
      end /\
      statsWithinBounds union' /\
      Resources.patronage (resources st')
        = Resources.patronage (resources st) - 2 /\
      Resources.paperwork (resources st')
        = Resources.paperwork (resources st) /\
      forall (mode2 : IncubationMode) (w2 : World),
        gameReducer st' (UNION_INCUBATE unionId mode2) w2 = Some (st', w2).
Proof.
  intros st unionId union mode w Hget Hinc Hcr Hpat Hb Hstats.
  assert (Hred : gameReducer st (UNION_INCUBATE unionId mode) w
    = Some (with_resources
              (applyResourceEffects (resources st)
                 (ResourceEffects.mk None (Some (-2)) None None
                    match mode with
                    | mode_paperwork => Some 2
                    | mode_discipline => None
                    end))
              (with_unions (Rec.set unionId (incubated union mode) (unions st))
                           st),
            w)).
  { unfold gameReducer. rewrite Hget, Hinc, Hcr. cbn [orb].
    unfold COSTS.incubate_patronage.
    destruct (Z.ltb_spec (Resources.patronage (resources st)) 2); [lia |].
    reflexivity. }
  eexists. exists (incubated union mode). split; [exact Hred |].
  cbn [unions resources with_resources with_unions].
  destruct Hb as (H1 & H2 & H3 & H4 & H5).
  destruct Hstats as (Hp & Hl & Hi).
  split; [apply get_set_same |].
  split; [destruct mode; reflexivity |].
  split; [destruct mode; reflexivity |].
  split; [destruct mode; reflexivity |].
  split; [destruct mode; reflexivity |].
  split; [destruct mode; unfold applyResourceEffects, clamp; cbn;
          repeat split; lia |].
  split; [unfold statsWithinBounds; destruct mode; cbn; lia |].
  split; [unfold applyResourceEffects, clamp; cbn; lia |].
  split; [unfold applyResourceEffects, clamp; cbn; lia |].
  intros mode2 w2. unfold gameReducer.
  cbn [unions with_resources with_unions]. rewrite get_set_same.
  destruct mode; reflexivity.
Qed.

Lemma incubate_once_witness :
  let u := sampleUnion "union_1_1" 60 60 50 false in
  exists (st' : RunState) (union' : UnionEntity.t),
    gameReducer (sampleState [u] []) (UNION_INCUBATE "union_1_1" mode_paperwork)
                sampleWorld = Some (st', sampleWorld) /\
    Rec.get "union_1_1" (unions st') = Some union' /\
    UnionEntity.plausibility union' = 75 /\
    gameReducer st' (UNION_INCUBATE "union_1_1" mode_discipline) sampleWorld
      = Some (st', sampleWorld).
Proof.
  intros u.
  destruct (incubate_once (sampleState [u] []) "union_1_1" u mode_paperwork
              sampleWorld)
    as (st' & u' & Hred & Hget & _ & _ & _ & _ & (Hp & _) & _ & _ & _ & Honce).
  - reflexivity.
  - reflexivity.
  - reflexivity.
  - cbn; lia.
  - unfold resourcesWithinBounds; cbn; lia.
  - unfold statsWithinBounds; cbn; lia.
  - exists st', u'.
    split; [exact Hred |]. split; [exact Hget |].
    split; [rewrite Hp; reflexivity | apply Honce].
Defined.

(** *** Dissolving and reassigning *)

Lemma floor_div_30 (p : Z) :
  0 <= p <= 100 ->
  F64.floor (F64.div (F64.of_Z p) (F64.of_Z 30)) = p / 30.
Proof.
  intros Hp. apply Z.eqb_eq.
  apply (upto_100 (fun z =>
           F64.floor (F64.div (F64.of_Z z) (F64.of_Z 30)) =? z / 30));
    [vm_compute; reflexivity | exact Hp].
Qed.

Lemma floor_div_25 (l : Z) :
  0 <= l <= 100 ->
  F64.floor (F64.div (F64.of_Z l) (F64.of_Z 25)) = l / 25.
Proof.
  intros Hl. apply Z.eqb_eq.
  apply (upto_100 (fun z =>
           F64.floor (F64.div (F64.of_Z z) (F64.of_Z 25)) =? z / 25));
    [vm_compute; reflexivity | exact Hl].
Qed.

(** For a union with stats in [0,100] the dissolve reward is
    1 + floor(plausibility / 30), between 1 and 4 paperwork, and the
    reassign reward is 1 + floor(loyalty / 25), between 1 and 5
    patronage.  [UNION_DISSOLVE] and [UNION_REASSIGN] change nothing while
    the union is a member of a federation; otherwise they take the union
    out of the state, leave the others as they are, and add the reward to
    paperwork (held at 10) or to patronage (held at 20). *)
Theorem dissolve_and_reassign :
  forall (st : RunState) (unionId : string) (union : UnionEntity.t) (w : World),
    Rec.get unionId (unions st) = Some union ->
    statsWithinBounds union ->
    resourcesWithinBounds (resources st) ->
    getDissolveReward union = 1 + UnionEntity.plausibility union / 30 /\
    1 <= getDissolveReward union <= 4 /\
    getReassignReward union = 1 + UnionEntity.loyalty union / 25 /\
    1 <= getReassignReward union <= 5 /\
    ((exists f, In f (Rec.values (federations st)) /\
                In unionId (FederationEntity.unionIds f)) ->
     gameReducer st (UNION_DISSOLVE unionId) w = Some (st, w) /\
     gameReducer st (UNION_REASSIGN unionId) w = Some (st, w)) /\
    ((forall f, In f (Rec.values (federations st)) ->
                ~ In unionId (FederationEntity.unionIds f)) ->
     exists st1 st2,
       gameReducer st (UNION_DISSOLVE unionId) w = Some (st1, w) /\
       gameReducer st (UNION_REASSIGN unionId) w = Some (st2, w) /\
       unions st1 = Rec.remove unionId (unions st) /\
       unions st2 = Rec.remove unionId (unions st) /\
       Rec.get unionId (Rec.remove unionId (unions st)) = None /\
       (forall other, other <> unionId ->
          Rec.get other (Rec.remove unionId (unions st))
          = Rec.get other (unions st)) /\
       Resources.paperwork (resources st1)
         = Z.min 10 (Resources.paperwork (resources st)
                     + getDissolveReward union) /\
       Resources.patronage (resources st1) = Resources.patronage (resources st) /\
       Resources.patronage (resources st2)
         = Z.min 20 (Resources.patronage (resources st)
                     + getReassignReward union) /\
       Resources.paperwork (resources st2) = Resources.paperwork (resources st)).
Proof.
  intros st unionId union w Hget (Hp & Hl & Hi) (H1 & H2 & H3 & H4 & H5).
  assert (Hd : getDissolveReward union = 1 + UnionEntity.plausibility union / 30)
    by (unfold getDissolveReward; rewrite (floor_div_30 _ Hp); reflexivity).
  assert (Hr : getReassignReward union = 1 + UnionEntity.loyalty union / 25)
    by (unfold getReassignReward; rewrite (floor_div_25 _ Hl); reflexivity).
  assert (Hdr : 1 <= getDissolveReward union <= 4).
  { rewrite Hd.
    pose proof (Z.div_pos (UnionEntity.plausibility union) 30).
    pose proof (Z.div_lt_upper_bound (UnionEntity.plausibility union) 30 4).
    lia. }
  assert (Hrr : 1 <= getReassignReward union <= 5).
  { rewrite Hr.
    pose proof (Z.div_pos (UnionEntity.loyalty union) 25).
    pose proof (Z.div_lt_upper_bound (UnionEntity.loyalty union) 25 5).
    lia. }
  split; [exact Hd |]. split; [exact Hdr |].
  split; [exact Hr |]. split; [exact Hrr |]. split.
  - intros Hmember. apply isInFederation_spec in Hmember.
    unfold gameReducer. rewrite Hget, Hmember. auto.
  - intros Hfree.
    assert (Hnot : isInFederation st unionId = false).
    { apply not_true_iff_false. intros Hin.
      apply isInFederation_spec in Hin. destruct Hin as (f & Hf & Hid).
      exact (Hfree f Hf Hid). }
    do 2 eexists. unfold gameReducer. rewrite Hget, Hnot.
    split; [reflexivity |]. split; [reflexivity |].
    cbn [unions resources with_resources with_unions].
    split; [reflexivity |]. split; [reflexivity |].
    split; [apply get_remove_same |].
    split; [intros other Hne; apply get_remove_other; auto |].
    unfold applyResourceEffects, clamp;
      cbn -[getDissolveReward getReassignReward Z.add].
    repeat split; lia.
Qed.

Lemma dissolve_and_reassign_witness :
  let u := sampleUnion "union_1_1" 60 60 50 false in
  getDissolveReward u = 3 /\ getReassignReward u = 3.
Proof.
  intros u.
  destruct (dissolve_and_reassign (sampleState [u] []) "union_1_1" u sampleWorld)
    as (Hd & _ & Hr & _).
  - reflexivity.
  - unfold statsWithinBounds; cbn; lia.
  - unfold resourcesWithinBounds; cbn; lia.
  - rewrite Hd, Hr. split; reflexivity.
Defined.

(** ** The end of a cycle, field by field *)

Lemma crackedCount_set (k : string) (u v : UnionEntity.t)
    (m : Rec.t UnionEntity.t) :
  Rec.get k m = Some u ->
  UnionEntity.isCracked u = false ->
  UnionEntity.isCracked v = true ->
  crackedCount (Rec.set k v m) = crackedCount m + 1.
Proof.
  unfold crackedCount. induction m as [| [k0 u0] m IH]; cbn [Rec.get Rec.set];
    [discriminate |].
  intros Hget Hu Hv.
  destruct (String.eqb_spec k0 k).
  - injection Hget as ->. unfold Rec.values. cbn [map snd filter].
    rewrite Hu, Hv. cbn [length]. lia.
  - specialize (IH Hget Hu Hv). unfold Rec.values in *. cbn [map snd filter].
    destruct (UnionEntity.isCracked u0); cbn [length]; lia.
Qed.

Lemma crackLoop_spec (orig : Rec.t UnionEntity.t) (keys : list string) :
  forall s : CrackState,
    (forall id u, Rec.get id orig = Some u ->
       Rec.get id (crack_unions s) = Some u \/
       (rollsForCrack u /\
        Rec.get id (crack_unions s) = Some (withStatus u true false))) ->
    Rec.keys (crack_unions s) = Rec.keys orig ->
    auditPenalty s = 2 * (crackedCount (crack_unions s) - crackedCount orig) ->
    legitimacyPenalty s = - auditPenalty s ->
    0 <= auditPenalty s ->
    let s' := crackLoop keys s in
    (forall id u, Rec.get id orig = Some u ->
       Rec.get id (crack_unions s') = Some u \/
       (rollsForCrack u /\
        Rec.get id (crack_unions s') = Some (withStatus u true false))) /\
    Rec.keys (crack_unions s') = Rec.keys orig /\
    auditPenalty s' = 2 * (crackedCount (crack_unions s') - crackedCount orig) /\
    legitimacyPenalty s' = - auditPenalty s' /\
    0 <= auditPenalty s'.
Proof.
  induction keys as [| key keys IH]; intros s Hu Hk Ha Hl Hpos;
    cbn [crackLoop]; [auto |].
  destruct (Rec.get key (crack_unions s)) as [union |] eqn:Hget; [| auto].
  destruct (UnionEntity.isCracked union) eqn:Hcr; cbn [orb]; [auto |].
  destruct (UnionEntity.isLicensed union) eqn:Hlic; cbn [negb]; [| auto].
  destruct (Rng.nextInt 1 100 (crack_rng s)) as [roll a].
  destruct (roll <=? getCrackRisk union); apply IH;
    cbn [crack_unions auditPenalty legitimacyPenalty]; auto; try lia.
  - intros id u Hid. destruct (String.eqb_spec key id) as [-> | Hne].
    + rewrite get_set_same.
      destruct (Hu id u Hid) as [Hsame | [_ Hcracked]].
      * rewrite Hget in Hsame. injection Hsame as ->.
        right. split; [split; assumption | reflexivity].
      * rewrite Hget in Hcracked. injection Hcracked as ->.
        discriminate Hcr.
    + rewrite get_set_other by assumption. auto.
  - rewrite keys_set, <- Hk.
    apply get_Some_key in Hget. apply includes_In in Hget.
    rewrite Hget. reflexivity.
  - rewrite (crackedCount_set key union) by (assumption || reflexivity). lia.
Qed.

Lemma crackChecks_spec (st : RunState) :
  let s' := crackChecks st in
  (forall id u, Rec.get id (unions st) = Some u ->
     Rec.get id (crack_unions s') = Some u \/
     (rollsForCrack u /\
      Rec.get id (crack_unions s') = Some (withStatus u true false))) /\
  Rec.keys (crack_unions s') = Rec.keys (unions st) /\
  auditPenalty s'
    = 2 * (crackedCount (crack_unions s') - crackedCount (unions st)) /\
  legitimacyPenalty s' = - auditPenalty s' /\
  0 <= auditPenalty s'.
Proof.
  apply (crackLoop_spec (unions st) (Rec.keys (unions st))
           (mkCrackState (unions st) 0 0 (Rng.createRNG (rngCursor st))));
    cbn [crack_unions auditPenalty legitimacyPenalty]; auto; lia.
Qed.

(** The crack checks at the end of a cycle touch nothing but the status of
    unions.  The ids of the unions are kept, in their order; every union is
    either left as it was or, if it was licensed and not cracked, is now
    cracked and unlicensed with all its other fields kept.  With [n] the
    number of unions newly cracked, legitimacy is the old value plus the
    upkeep's decay minus 2n and audit risk the old value plus the upkeep's
    increase plus 2n, each held to [0,100]. *)
Theorem cycle_end_crack_checks :
  forall st : RunState,
    let st' := applyCycleEnd st in
    let n := crackedCount (unions st') - crackedCount (unions st) in
    Rec.keys (unions st') = Rec.keys (unions st) /\
    (forall id u, Rec.get id (unions st) = Some u ->
       Rec.get id (unions st') = Some u \/
       (UnionEntity.isLicensed u = true /\ UnionEntity.isCracked u = false /\
        Rec.get id (unions st') = Some (withStatus u true false))) /\
    0 <= n /\
    Resources.legitimacy (resources st')
      = clamp (Resources.legitimacy (resources st)
               + (orZero (ResourceEffects.legitimacy (calculateUpkeep st))
                  - 2 * n)) 0 100 /\
    Resources.auditRisk (resources st')
      = clamp (Resources.auditRisk (resources st)
               + (orZero (ResourceEffects.auditRisk (calculateUpkeep st))
                  + 2 * n)) 0 100.
Proof.
  intros st st' n.
  destruct (crackChecks_spec st) as (Hu & Hk & Ha & Hl & Hpos).
  assert (Hunions : unions st' = crack_unions (crackChecks st)) by reflexivity.
  assert (Hn : auditPenalty (crackChecks st) = 2 * n)
    by (unfold n; rewrite Hunions; exact Ha).
  split; [rewrite Hunions; exact Hk |].
  split.
  { intros id u Hid. rewrite Hunions.
    destruct (Hu id u Hid) as [H | [[H1 H2] H3]]; auto. }
  split; [lia |].
  split.
  - change (Resources.legitimacy (resources st'))
      with (clamp (Resources.legitimacy (resources st)
                   + (orZero (ResourceEffects.legitimacy (calculateUpkeep st))
                      + legitimacyPenalty (crackChecks st))) 0 100).
    rewrite Hl, Hn. f_equal; lia.
  - change (Resources.auditRisk (resources st'))
      with (clamp (Resources.auditRisk (resources st)
                   + (orZero (ResourceEffects.auditRisk (calculateUpkeep st))
                      + auditPenalty (crackChecks st))) 0 100).
    rewrite Hn. reflexivity.
Qed.

Lemma cycle_end_crack_checks_witness :
  Rec.get "union_1_2" (unions (applyCycleEnd crackState))
  = Some (sampleUnion "union_1_2" 55 65 45 false).
Proof.
  destruct (cycle_end_crack_checks crackState) as (_ & Hunions & _).
  destruct (Hunions "union_1_2"%string (sampleUnion "union_1_2" 55 65 45 false)
              eq_refl) as [Hsame | (Hlic & _)].
  - exact Hsame.
  - discriminate Hlic.
Defined.

Lemma round_aux_notNegative (mx ex : Z) (lx : location) :
  notNegative (binary_round_aux F64.prec F64.emax false mx ex lx).
Proof.
  unfold binary_round_aux.
  destruct (shr_fexp _ _ _ _ _) as [mrs' e'].
  destruct (shr_fexp _ _ _ _ _) as [mrs'' e''].
  destruct (shr_m mrs''); cbn; auto.
  destruct (_ <=? _); cbn; auto.
Qed.

Lemma of_Z_notNegative (n : Z) : 0 <= n -> notNegative (F64.of_Z n).
Proof.
  intros Hn. unfold F64.of_Z, binary_normalize.
  destruct n as [| m | m]; [exact I | | lia].
  unfold binary_round. destruct (shl_align _ _) as [mz ez].
  apply round_aux_notNegative.
Qed.

Lemma div_notNegative (x : spec_float) (m : positive) (e : Z) :
  notNegative x -> notNegative (F64.div x (S754_finite false m e)).
Proof.
  unfold F64.div, SFdiv. destruct x as [s | s | | s mx ex]; cbn [notNegative];
    try (intros _; exact I).
  destruct s; [intros [] | intros _].
  destruct (SFdiv_core_binary _ _ _ _ _ _) as [[mz ez] lz].
  apply round_aux_notNegative.
Qed.

Lemma floor_notNegative (x : spec_float) : notNegative x -> 0 <= F64.floor x.
Proof.
  destruct x as [s | s | | s m e]; cbn [F64.floor]; try lia.
  destruct s; [intros [] | intros _].
  destruct (Z.leb_spec 0 e).
  - pose proof (Z.pow_nonneg 2 e). lia.
  - apply Z.div_pos; [lia |]. apply Z.pow_pos_nonneg; lia.
Qed.

Lemma auditIncrease_nonneg (st : RunState) :
  0 <= orZero (ResourceEffects.auditRisk (calculateUpkeep st)).
Proof.
  unfold calculateUpkeep. cbn [ResourceEffects.auditRisk orZero].
  assert (0 <= F64.floor
            (F64.div (F64.of_Z (Z.of_nat (length (Rec.keys (unions st)))))
                     (F64.of_Z 5))).
  { apply floor_notNegative.
    change (F64.of_Z 5) with (S754_finite false 5629499534213120 (-50)).
    apply div_notNegative, of_Z_notNegative. lia. }
  lia.
Qed.

(** The upkeep at the end of a cycle, for a state with resources in their
    bounds and no negative delegate total: paperwork is reset to exactly 6
    whatever it was, patronage grows by 7 plus the recognized delegates
    (held at 20), street heat falls by 2 (held at 0), legitimacy does not
    rise and audit risk does not fall; the cycle counter advances by one,
    the generation flag is cleared, and the federations and the phase are
    left as they are. *)
Theorem cycle_end_upkeep :
  forall st : RunState,
    resourcesWithinBounds (resources st) ->
    0 <= getTotalDelegates st ->
    let st' := applyCycleEnd st in
    Resources.paperwork (resources st') = 6 /\
    Resources.patronage (resources st')
      = Z.min 20 (Resources.patronage (resources st) + 7 + getTotalDelegates st) /\
    Resources.streetHeat (resources st')
      = Z.max 0 (Resources.streetHeat (resources st) - 2) /\
    Resources.legitimacy (resources st') <= Resources.legitimacy (resources st) /\
    Resources.auditRisk (resources st) <= Resources.auditRisk (resources st') /\
    cycle st' = cycle st + 1 /\
    unionsGeneratedInCycle st' = false /\
    federations st' = federations st /\
    phase st' = phase st.
Proof.
  intros st (H1 & H2 & H3 & H4 & H5) Hd st'.
  destruct (crackChecks_spec st) as (_ & _ & _ & Hl & Hpos).
  assert (Hleg : Resources.legitimacy (resources st')
      = clamp (Resources.legitimacy (resources st)
               + (orZero (ResourceEffects.legitimacy (calculateUpkeep st))
                  + legitimacyPenalty (crackChecks st))) 0 100) by reflexivity.
  assert (Haud : Resources.auditRisk (resources st')
      = clamp (Resources.auditRisk (resources st)
               + (orZero (ResourceEffects.auditRisk (calculateUpkeep st))
                  + auditPenalty (crackChecks st))) 0 100) by reflexivity.
  pose proof (auditIncrease_nonneg st) as Hinc.
  assert (Hdecay : orZero (ResourceEffects.legitimacy (calculateUpkeep st)) <= 0).
  { unfold calculateUpkeep. cbn [ResourceEffects.legitimacy orZero].
    destruct (Z.ltb_spec 2 (Z.of_nat (length (filter isShell
                (Rec.values (unions st)))))); lia. }
  split.
  { change (Resources.paperwork (resources st'))
      with (clamp (Resources.paperwork (resources st)
                   + (6 - Resources.paperwork (resources st))) 0 10).
    unfold clamp. lia. }
  split.
  { change (Resources.patronage (resources st'))
      with (clamp (Resources.patronage (resources st)
                   + (7 + getTotalDelegates st * 1)) 0 20).
    unfold clamp. lia. }
  split.
  { change (Resources.streetHeat (resources st'))
      with (clamp (Resources.streetHeat (resources st)
                   + (if 0 <? Resources.streetHeat (resources st)
                      then -2 else 0)) 0 100).
    unfold clamp.
    destruct (Z.ltb_spec 0 (Resources.streetHeat (resources st))); lia. }
  split; [rewrite Hleg; unfold clamp; lia |].
  split; [rewrite Haud; unfold clamp; lia |].
  repeat split.
Qed.

Lemma cycle_end_upkeep_witness :
  Resources.paperwork (resources (applyCycleEnd crackState)) = 6 /\
  cycle (applyCycleEnd crackState) = 3.
Proof.
  destruct (cycle_end_upkeep crackState) as (Hp & _ & _ & _ & _ & Hc & _).
  - unfold resourcesWithinBounds; cbn; lia.
  - vm_compute. discriminate.
  - split; [exact Hp | exact Hc].
Defined.

(** ** Election night *)







(** ** Footnotes and the event history *)

Lemma includes_false (x : string) (xs : list string) :
  includes x xs = false <-> ~ In x xs.
Proof.
  rewrite <- includes_In. destruct (includes x xs); split; congruence.
Qed.

Lemma dedupFrom_spec (xs : list string) :
  forall seen : list string,
    NoDup (dedupFrom seen xs) /\
    forall x, In x (dedupFrom seen xs) <-> In x xs /\ ~ In x seen.
Proof.
  induction xs as [| a xs IH]; intros seen; cbn [dedupFrom].
  - split; [constructor | cbn; tauto].
  - destruct (includes a seen) eqn:Hinc.
    + apply includes_In in Hinc. destruct (IH seen) as [Hnd Hin].
      split; [exact Hnd |]. intros x. rewrite Hin. cbn [In].
      split; [tauto |]. intros [[-> | H] Hn]; tauto.
    + apply includes_false in Hinc. destruct (IH (a :: seen)) as [Hnd Hin].
      split.
      * constructor; [| exact Hnd]. rewrite Hin. cbn [In]. tauto.
      * intros x. cbn [In]. rewrite Hin. cbn [In].
        destruct (string_dec a x) as [-> | Hne]; tauto.
Qed.

Lemma dedupFrom_app (l xs : list string) :
  forall seen : list string,
    NoDup xs ->
    (forall x, In x xs -> ~ In x seen) ->
    exists seen',
      (forall y, In y seen' <-> In y seen \/ In y xs) /\
      dedupFrom seen (xs ++ l) = xs ++ dedupFrom seen' l.
Proof.
  induction xs as [| a xs IH]; intros seen Hnd Hdis; cbn [app dedupFrom].
  - exists seen. split; [cbn; tauto | reflexivity].
  - inversion Hnd as [| ? ? Ha Hnd']; subst.
    assert (Hinc : includes a seen = false)
      by (apply includes_false, Hdis; left; reflexivity).
    rewrite Hinc.
    destruct (IH (a :: seen) Hnd') as (seen' & Hseen & Heq).
    + intros x Hx [-> | Hs]; [exact (Ha Hx) |].
      exact (Hdis x (or_intror Hx) Hs).
    + exists seen'. split; [| rewrite Heq; reflexivity].
      intros y. rewrite Hseen. cbn [In]. tauto.
Qed.

Lemma dedup_app (old l : list string) :
  NoDup old ->
  exists added,
    dedup (old ++ l) = old ++ added /\
    NoDup (old ++ added) /\
    forall x, In x added <-> In x l /\ ~ In x old.
Proof.
  intros Hnd. unfold dedup.
  destruct (dedupFrom_app l old [] Hnd) as (seen' & Hseen & Heq);
    [intros x _ [] |].
  exists (dedupFrom seen' l).
  destruct (dedupFrom_spec l seen') as [Hnd' Hin].
  assert (Hadded : forall x, In x (dedupFrom seen' l) <-> In x l /\ ~ In x old).
  { intros x. rewrite Hin, Hseen. cbn [In]. tauto. }
  split; [exact Heq |]. split; [| exact Hadded].
  rewrite <- Heq. apply dedupFrom_spec.
Qed.

Lemma endCycle_footnotes (st : RunState) :
  unlockedFootnotes (endCycle st) = unlockedFootnotes st /\
  eventHistory (endCycle st) = eventHistory st /\
  currentEventId (endCycle st) = currentEventId st.
Proof. unfold endCycle. destruct (checkLoseCondition _); repeat split. Qed.

Lemma step_footnotes (st : RunState) (a : GameAction) (w : World)
    (st' : RunState) (w' : World) :
  gameReducer st a w = Some (st', w') ->
  unlockedFootnotes st' = unlockedFootnotes st \/
  unlockedFootnotes st' = [] \/
  exists l, unlockedFootnotes st' = dedup (unlockedFootnotes st ++ l).
Proof.
  intros Hred.
  destruct a;
    try (unfold gameReducer in Hred;
         repeat match type of Hred with
                | context [match ?x with _ => _ end] => destruct x
                end;
         try discriminate Hred; injection Hred as <- <-;
         left; reflexivity).
  - (* RUN_START *)
    unfold gameReducer in Hred.
    match type of Hred with
    | context [createInitialState ?sd ?tips ?v] =>
        assert (H0 : unlockedFootnotes (fst (createInitialState sd tips v)) = [])
          by (destruct sd; reflexivity);
        destruct (createInitialState sd tips v) as [s0 w0]
    end.
    injection Hred as <- <-. right; left; exact H0.
  - (* RUN_RESET *)
    cbn in Hred. injection Hred as <- <-. right; left; reflexivity.
  - (* TURN_ADVANCE *)
    unfold gameReducer in Hred.
    destruct (maxCycles st <=? cycle st); injection Hred as <- <-.
    + left; reflexivity.
    + left. apply endCycle_footnotes.
  - (* EVENT_CHOOSE *)
    unfold gameReducer in Hred.
    assert (Hgoal : forall s,
              unlockedFootnotes s
              = match unlocks with
                | Some l => dedup (unlockedFootnotes st ++ l)
                | None => unlockedFootnotes st
                end ->
              unlockedFootnotes s = unlockedFootnotes st \/
              unlockedFootnotes s = [] \/
              exists l, unlockedFootnotes s = dedup (unlockedFootnotes st ++ l)).
    { intros s Hs. destruct unlocks as [l |]; [right; right; eauto | auto]. }
    destruct (checkLoseCondition _);
      [injection Hred as <- <-; apply Hgoal; reflexivity |].
    destruct (_ <=? _); injection Hred as <- <-; apply Hgoal;
      [reflexivity |].
    destruct (endCycle_footnotes
                (with_currentEventId None
                   (with_eventHistory (eventHistory st ++ [eventId])
                      (with_unlockedFootnotes
                         match unlocks with
                         | Some l => dedup (unlockedFootnotes st ++ l)
                         | None => unlockedFootnotes st
                         end
                         (with_resources
                            (applyResourceEffects (resources st) effects) st)))))
      as (-> & _). reflexivity.
Qed.

Lemma reachable_footnotes_inv (st : RunState) :
  reachable st -> NoDup (unlockedFootnotes st).
Proof.
  apply (reachable_ind (fun s => NoDup (unlockedFootnotes s))).
  - intros sd tips w. destruct sd; cbn; constructor.
  - intros s a w s' w' Hinv Hred.
    destruct (step_footnotes _ _ _ _ _ Hred) as [-> | [-> | [l ->]]].
    + exact Hinv.
    + constructor.
    + apply dedupFrom_spec.
Qed.

(** Choosing an option of an event, in any state of a run: the event id is
    appended to the history and the current event is cleared; the unlocked
    footnotes keep their order and never hold a footnote twice; the
    footnotes the choice unlocks are appended, each once, leaving out those
    already unlocked; a choice without unlocks leaves the list as it is. *)
Theorem event_choice_unlocks_footnotes_once :
  forall (st : RunState) (eventId choiceId : string)
         (effects : ResourceEffects.t) (unlocks : option (list string))
         (w : World) (st' : RunState) (w' : World),
    reachable st ->
    gameReducer st (EVENT_CHOOSE eventId choiceId effects unlocks) w
      = Some (st', w') ->
    eventHistory st' = eventHistory st ++ [eventId] /\
    currentEventId st' = None /\
    NoDup (unlockedFootnotes st') /\
    exists added,
      unlockedFootnotes st' = unlockedFootnotes st ++ added /\
      forall x, In x added <->
                (exists l, unlocks = Some l /\ In x l) /\
                ~ In x (unlockedFootnotes st).
Proof.
  intros st eventId choiceId effects unlocks w st' w' Hreach Hred.
  pose proof (reachable_footnotes_inv st Hreach) as Hnd.
  set (mid := with_currentEventId None
                (with_eventHistory (eventHistory st ++ [eventId])
                   (with_unlockedFootnotes
                      match unlocks with
                      | Some l => dedup (unlockedFootnotes st ++ l)
                      | None => unlockedFootnotes st
                      end
                      (with_resources
                         (applyResourceEffects (resources st) effects) st)))).
  assert (Hfields : unlockedFootnotes st' = unlockedFootnotes mid /\
                    eventHistory st' = eventHistory mid /\
                    currentEventId st' = currentEventId mid).
  { unfold gameReducer in Hred. fold mid in Hred.
    destruct (checkLoseCondition mid);
      [injection Hred as <- <-; repeat split |].
    destruct (maxCycles mid <=? cycle mid); injection Hred as <- <-;
      [repeat split | apply endCycle_footnotes]. }
  destruct Hfields as (Hf & Hh & Hc).
  split; [rewrite Hh; reflexivity |].
  split; [rewrite Hc; reflexivity |].
  rewrite Hf. cbn [mid unlockedFootnotes with_currentEventId with_eventHistory
                   with_unlockedFootnotes].
  destruct unlocks as [l |].
  - destruct (dedup_app (unlockedFootnotes st) l Hnd) as (added & Heq & Hnd' & Hin).
    split; [rewrite Heq; exact Hnd' |].
    exists added. split; [exact Heq |].
    intros x. rewrite Hin. split.
    + intros [Hl Hn]. split; [exists l; auto | exact Hn].
    + intros [(l' & [= <-] & Hl) Hn]. auto.
  - split; [exact Hnd |]. exists []. split; [rewrite app_nil_r; reflexivity |].
    intros x. split; [intros [] |]. intros [(l & Hl & _) _]. discriminate Hl.
Qed.

Lemma event_choice_unlocks_footnotes_once_witness :
  exists (st' : RunState) (w' : World),
    gameReducer
      (with_phase playing (fst (createInitialState (Some 42) None sampleWorld)))
      (EVENT_CHOOSE "strike" "yield"
         (ResourceEffects.mk None None None None None)
         (Some ["fn_1"; "fn_2"; "fn_1"]%string)) sampleWorld
    = Some (st', w') /\
    unlockedFootnotes st' = ["fn_1"; "fn_2"]%string /\
    eventHistory st' = ["strike"%string].
Proof.
  eexists. eexists. split; [reflexivity |].
  match goal with
  | |- _ /\ eventHistory ?s = _ =>
      destruct (event_choice_unlocks_footnotes_once
                  (with_phase playing
                     (fst (createInitialState (Some 42) None sampleWorld)))
                  "strike" "yield" (ResourceEffects.mk None None None None None)
                  (Some ["fn_1"; "fn_2"; "fn_1"]%string) sampleWorld
                  s sampleWorld)
        as (Hh & _)
  end.
  - exists (Some 42), None, [], (sampleState [] []), sampleWorld, sampleWorld.
    reflexivity.
  - reflexivity.
  - split; [vm_compute; reflexivity | exact Hh].
Defined.

(** ** Event selection *)

Lemma below_spec (value : Z) (bound : option Z) :
  Content.below value bound = false <-> forall b, bound = Some b -> b <= value.
Proof.
  destruct bound as [b |]; cbn.
  - rewrite Z.ltb_ge. split; [intros H b' [= <-]; exact H | auto].
  - split; [intros _ b [=] | reflexivity].
Qed.

Lemma above_spec (value : Z) (bound : option Z) :
  Content.above value bound = false <-> forall b, bound = Some b -> value <= b.
Proof.
  destruct bound as [b |]; cbn.
  - rewrite Z.ltb_ge. split; [intros H b' [= <-]; exact H | auto].
  - split; [intros _ b [=] | reflexivity].
Qed.

Lemma guard_spec (b c : bool) :
  (if b then false else c) = true <-> b = false /\ c = true.
Proof. destruct b, c; intuition congruence. Qed.

Lemma checkConditions_spec (conditions : option EventConditions.t)
    (st : RunState) :
  Content.checkConditions conditions st = true <-> conditionsHold conditions st.
Proof.
  destruct conditions as [c |]; cbn [Content.checkConditions conditionsHold];
    [| tauto].
  cbv zeta. unfold withinBounds.
  rewrite !guard_spec, !below_spec, !above_spec.
  intuition (try discriminate; auto).
Qed.

Lemma getEligibleEvents_spec (events : list EventCard.t) (st : RunState)
    (card : EventCard.t) :
  In card (Content.getEligibleEvents events st) <->
  In card events /\ eligible card st.
Proof.
  unfold Content.getEligibleEvents, eligible. rewrite filter_In.
  destruct (Content.checkConditions (EventCard.conditions card) st) eqn:Hc;
    cbn [negb].
  - rewrite existsb_exists. unfold Content.checkChoiceConditions.
    apply checkConditions_spec in Hc.
    split.
    + intros [Hin (choice & Hch & Hok)]. apply checkConditions_spec in Hok.
      eauto.
    + intros [Hin [_ (choice & Hch & Hok)]]. apply checkConditions_spec in Hok.
      eauto.
  - split; [intros [_ [=]] |].
    intros [_ [Hok _]]. apply checkConditions_spec in Hok. congruence.
Qed.

(** Drawing an event never throws.  When it dispatches, the action is
    [EVENT_DRAW] with the id of an event of the content whose conditions
    hold in the state (every bound inclusive, absent bounds not
    constraining) and which offers at least one choice whose conditions
    hold, so the choices shown for it are never empty; when it dispatches
    nothing, no event of the content is eligible. *)
Theorem draw_dispatches_an_eligible_event :
  forall (events : list EventCard.t) (st : RunState),
    match Content.drawRandomEvent events st with
    | None => False
    | Some None => forall card, In card events -> ~ eligible card st
    | Some (Some action) =>
        exists card,
          action = EVENT_DRAW (EventCard.id card) /\
          In card events /\
          eligible card st /\
          Content.getEligibleChoices card st <> []
    end.
Proof.
  intros events st. unfold Content.drawRandomEvent.
  destruct (Content.getEligibleEvents events st) as [| d rest] eqn:Helig.
  - intros card Hin Hok.
    assert (H : In card (Content.getEligibleEvents events st))
      by (apply getEligibleEvents_spec; auto).
    rewrite Helig in H. exact H.
  - destruct (weightedPick_some d rest (map EventCard.weight (d :: rest))
                (Rng.createRNG (rngCursor st)))
      as (card & Hpick & Hin); [rewrite length_map; reflexivity |].
    cbv zeta. rewrite Hpick.
    rewrite <- Helig in Hin. apply getEligibleEvents_spec in Hin.
    destruct Hin as [Hin Hok].
    exists card. split; [reflexivity |]. split; [exact Hin |].
    split; [exact Hok |].
    destruct Hok as [_ (choice & Hch & Hcond)].
    assert (Hc : In choice (Content.getEligibleChoices card st)).
    { unfold Content.getEligibleChoices. apply filter_In.
      split; [exact Hch |]. apply checkConditions_spec. exact Hcond. }
    intros Hnil. rewrite Hnil in Hc. exact Hc.
Qed.

Lemma draw_dispatches_an_eligible_event_witness :
  let yield :=
    EventChoice.mk "yield" "Yield" None
      (ResourceEffects.mk None (Some (-1)) None None None) None None in
  let strike :=
    EventCard.mk "strike" cat_labor "Strike" "A strike" None 1
      (Some (EventConditions.mk None None (Some 50) None None None None None
               None None None None))
      [yield] in
  let quiet :=
    EventCard.mk "quiet" cat_general "Quiet" "A quiet week" None 1
      (Some (EventConditions.mk None None (Some 90) None None None None None
               None None None None))
      [yield] in
  exists card,
    Content.drawRandomEvent [quiet; strike] (sampleState [] [])
      = Some (Some (EVENT_DRAW (EventCard.id card))) /\
    eligible card (sampleState [] []) /\
    Content.getEligibleChoices card (sampleState [] []) <> [].
Proof.
  intros yield strike quiet.
  pose proof (draw_dispatches_an_eligible_event [quiet; strike]
                (sampleState [] [])) as H.
  assert (Hd : Content.drawRandomEvent [quiet; strike] (sampleState [] [])
               = Some (Some (EVENT_DRAW "strike")))
    by (vm_compute; reflexivity).
  rewrite Hd in H. destruct H as (card & Heq & _ & Hel & Hne).
  exists card. rewrite <- Heq. auto.
Defined.

(** ** Content sanity checks *)

Lemma app_eq_self {A} (l extra : list A) : l ++ extra = l -> extra = [].
Proof.
  intros H. apply (f_equal (@length A)) in H. rewrite length_app in H.
  destruct extra; [reflexivity | cbn in H; lia].
Qed.

Lemma checkChoiceIds_spec (eventId : string) (choices : list EventChoice.t) :
  forall choiceIds errors : list string,
    exists extra,
      snd (Content.checkChoiceIds eventId choices choiceIds errors)
        = errors ++ extra /\
      (extra = [] <->
       NoDup (map EventChoice.id choices) /\
       forall x, In x (map EventChoice.id choices) -> ~ In x choiceIds).
Proof.
  induction choices as [| choice rest IH]; intros seen errors;
    cbn [Content.checkChoiceIds map].
  - exists []. cbn. rewrite app_nil_r.
    split; [reflexivity |]. split; [intros _; split; [constructor | tauto] | auto].
  - destruct (includes (EventChoice.id choice) seen) eqn:Hinc.
    + apply includes_In in Hinc.
      destruct (IH (EventChoice.id choice :: seen)
                   (errors ++ [String.append "Duplicate choice ID in event "
                                 (String.append eventId
                                    (String.append ": "
                                       (EventChoice.id choice)))]))
        as (extra & Heq & _).
      eexists. split; [rewrite Heq, <- app_assoc; reflexivity |].
      cbn [app]. split; [discriminate |].
      intros [_ Hdis]. exfalso. apply (Hdis (EventChoice.id choice)); cbn; auto.
    + apply includes_false in Hinc.
      destruct (IH (EventChoice.id choice :: seen) errors)
        as (extra & Heq & Hiff).
      exists extra. split; [exact Heq |]. rewrite Hiff. cbn [In]. split.
      * intros [Hnd Hdis]. split.
        -- constructor; [| exact Hnd]. intros Hin. apply (Hdis _ Hin). auto.
        -- intros x [<- | Hx]; [exact Hinc |].
           intros Hs. apply (Hdis x Hx). auto.
      * intros [Hnd Hdis]. inversion Hnd as [| ? ? Hnot Hnd']; subst.
        split; [exact Hnd' |].
        intros x Hx [<- | Hs]; [exact (Hnot Hx) |].
        apply (Hdis x); auto.
Qed.

Lemma checkEventIds_spec (events : list EventCard.t) :
  forall eventIds errors : list string,
    exists extra,
      snd (Content.checkEventIds events eventIds errors) = errors ++ extra /\
      (extra = [] <->
       (NoDup (map EventCard.id events) /\
        forall x, In x (map EventCard.id events) -> ~ In x eventIds) /\
       forall card, In card events ->
                    NoDup (map EventChoice.id (EventCard.choices card))).
Proof.
  induction events as [| card rest IH]; intros seen errors;
    cbn [Content.checkEventIds map].
  - exists []. cbn. rewrite app_nil_r. split; [reflexivity |].
    split; [| auto]. intros _. repeat split; [constructor | tauto | tauto].
  - set (errors1 :=
           if includes (EventCard.id card) seen
           then errors ++ [String.append "Duplicate event ID: " (EventCard.id card)]
           else errors).
    destruct (checkChoiceIds_spec (EventCard.id card) (EventCard.choices card)
                [] errors1) as (extra1 & Heq1 & Hiff1).
    destruct (Content.checkChoiceIds (EventCard.id card)
                (EventCard.choices card) [] errors1) as [ids errors2].
    cbn [snd] in Heq1. subst errors2.
    destruct (IH (EventCard.id card :: seen) (errors1 ++ extra1))
      as (extra2 & Heq2 & Hiff2).
    assert (H0 : exists extra0,
               errors1 = errors ++ extra0 /\
               (extra0 = [] <-> ~ In (EventCard.id card) seen)).
    { unfold errors1. destruct (includes (EventCard.id card) seen) eqn:Hinc.
      - apply includes_In in Hinc. eexists. split; [reflexivity |].
        split; [discriminate | tauto].
      - apply includes_false in Hinc. exists []. rewrite app_nil_r.
        split; [reflexivity | tauto]. }
    destruct H0 as (extra0 & Heq0 & Hiff0).
    exists (extra0 ++ extra1 ++ extra2).
    split; [rewrite Heq2, Heq0, <- !app_assoc; reflexivity |].
    assert (Happ : extra0 ++ extra1 ++ extra2 = [] <->
                   extra0 = [] /\ extra1 = [] /\ extra2 = []).
    { split.
      - intros H. apply app_eq_nil in H. destruct H as [-> H].
        apply app_eq_nil in H. tauto.
      - intros (-> & -> & ->). reflexivity. }
    rewrite Happ, Hiff0, Hiff1, Hiff2. cbn [In]. split.
    + intros (Hnew & [Hc _] & [Hnd Hdis] & Hrest).
      split; [split |].
      * constructor; [| exact Hnd]. intros Hin. apply (Hdis _ Hin). auto.
      * intros x [<- | Hx]; [exact Hnew |].
        intros Hs. apply (Hdis x Hx). auto.
      * intros c [<- | Hin]; [exact Hc | auto].
    + intros [[Hnd Hdis] Hch]. inversion Hnd as [| ? ? Hnot Hnd']; subst.
      split; [apply Hdis; auto |].
      split; [split; [apply Hch; auto | intros x _ []] |].
      split; [split; [exact Hnd' |] | intros c Hc; apply Hch; auto].
      intros x Hx [<- | Hs]; [exact (Hnot Hx) |].
      apply (Hdis x); auto.
Qed.

Lemma checkFootnoteIds_spec (footnotes : list FootnoteCard.t) :
  forall footnoteIds errors : list string,
    exists extra,
      snd (Content.checkFootnoteIds footnotes footnoteIds errors)
        = errors ++ extra /\
      (forall x, In x (fst (Content.checkFootnoteIds footnotes footnoteIds errors))
                 <-> In x (map FootnoteCard.id footnotes) \/ In x footnoteIds) /\
      (extra = [] <->
       NoDup (map FootnoteCard.id footnotes) /\
       forall x, In x (map FootnoteCard.id footnotes) -> ~ In x footnoteIds).
Proof.
  induction footnotes as [| footnote rest IH]; intros seen errors;
    cbn [Content.checkFootnoteIds map].
  - exists []. cbn. rewrite app_nil_r. split; [reflexivity |].
    split; [tauto |]. split; [intros _; split; [constructor | tauto] | auto].
  - destruct (includes (FootnoteCard.id footnote) seen) eqn:Hinc.
    + apply includes_In in Hinc.
      destruct (IH (FootnoteCard.id footnote :: seen)
                   (errors ++ [String.append "Duplicate footnote ID: "
                                 (FootnoteCard.id footnote)]))
        as (extra & Heq & Hmem & _).
      eexists. split; [rewrite Heq, <- app_assoc; reflexivity |].
      split; [intros x; rewrite Hmem; cbn [In]; tauto |].
      cbn [app]. split; [discriminate |].
      intros [_ Hdis]. exfalso.
      apply (Hdis (FootnoteCard.id footnote)); cbn; auto.
    + apply includes_false in Hinc.
      destruct (IH (FootnoteCard.id footnote :: seen) errors)
        as (extra & Heq & Hmem & Hiff).
      exists extra. split; [exact Heq |].
      split; [intros x; rewrite Hmem; cbn [In]; tauto |].
      rewrite Hiff. cbn [In]. split.
      * intros [Hnd Hdis]. split.
        -- constructor; [| exact Hnd]. intros Hin. apply (Hdis _ Hin). auto.
        -- intros x [<- | Hx]; [exact Hinc |].
           intros Hs. apply (Hdis x Hx). auto.
      * intros [Hnd Hdis]. inversion Hnd as [| ? ? Hnot Hnd']; subst.
        split; [exact Hnd' |].
        intros x Hx [<- | Hs]; [exact (Hnot Hx) |].
        apply (Hdis x); auto.
Qed.

Lemma checkUnlockIds_spec (eventId choiceId : string)
    (footnoteIds unlocks : list string) :
  forall errors : list string,
    exists extra,
      Content.checkUnlockIds eventId choiceId unlocks footnoteIds errors
        = errors ++ extra /\
      (extra = [] <-> forall x, In x unlocks -> In x footnoteIds).
Proof.
  induction unlocks as [| unlockId rest IH]; intros errors;
    cbn [Content.checkUnlockIds].
  - exists []. rewrite app_nil_r. split; [reflexivity |].
    split; [intros _ x [] | reflexivity].
  - destruct (includes unlockId footnoteIds) eqn:Hinc; cbn [negb].
    + apply includes_In in Hinc. destruct (IH errors) as (extra & Heq & Hiff).
      exists extra. split; [exact Heq |]. rewrite Hiff. cbn [In]. split.
      * intros H x [<- | Hx]; auto.
      * intros H x Hx. auto.
    + apply includes_false in Hinc.
      match goal with
      | |- context [Content.checkUnlockIds _ _ _ _ (errors ++ [?msg])] =>
          destruct (IH (errors ++ [msg])) as (extra & Heq & _)
      end.
      eexists. split; [rewrite Heq, <- app_assoc; reflexivity |].
      cbn [app In]. split; [discriminate |].
      intros H. exfalso. apply Hinc, H. auto.
Qed.

Lemma checkChoiceUnlocks_spec (eventId : string) (footnoteIds : list string)
    (choices : list EventChoice.t) :
  forall errors : list string,
    exists extra,
      Content.checkChoiceUnlocks eventId choices footnoteIds errors
        = errors ++ extra /\
      (extra = [] <->
       forall choice l, In choice choices -> EventChoice.unlocks choice = Some l ->
                        forall x, In x l -> In x footnoteIds).
Proof.
  induction choices as [| choice rest IH]; intros errors;
    cbn [Content.checkChoiceUnlocks].
  - exists []. rewrite app_nil_r. split; [reflexivity |].
    split; [intros _ c l [] | reflexivity].
  - destruct (EventChoice.unlocks choice) as [unlocks |] eqn:Hun.
    + destruct (checkUnlockIds_spec eventId (EventChoice.id choice) footnoteIds
                  unlocks errors) as (extra1 & Heq1 & Hiff1).
      rewrite Heq1.
      destruct (IH (errors ++ extra1)) as (extra2 & Heq2 & Hiff2).
      exists (extra1 ++ extra2).
      split; [rewrite Heq2, <- app_assoc; reflexivity |].
      split.
      * intros H. apply app_eq_nil in H. destruct H as [H1 H2].
        pose proof (proj1 Hiff1 H1) as H1'. intros c l [<- | Hc] Hl.
        -- rewrite Hun in Hl. injection Hl as <-. exact H1'.
        -- exact (proj1 Hiff2 H2 c l Hc Hl).
      * intros H.
        assert (H1 : extra1 = [])
          by (apply Hiff1; exact (H choice unlocks (or_introl eq_refl) Hun)).
        assert (H2 : extra2 = [])
          by (apply Hiff2; intros c l Hc; exact (H c l (or_intror Hc))).
        rewrite H1, H2. reflexivity.
    + destruct (IH errors) as (extra & Heq & Hiff).
      exists extra. split; [exact Heq |]. rewrite Hiff. split.
      * intros H c l [<- | Hc] Hl; [congruence | eauto].
      * intros H c l Hc. exact (H c l (or_intror Hc)).
Qed.

Lemma checkEventUnlocks_spec (footnoteIds : list string)
    (events : list EventCard.t) :
  forall errors : list string,
    exists extra,
      Content.checkEventUnlocks events footnoteIds errors = errors ++ extra /\
      (extra = [] <->
       forall card choice l,
         In card events -> In choice (EventCard.choices card) ->
         EventChoice.unlocks choice = Some l ->
         forall x, In x l -> In x footnoteIds).
Proof.
  induction events as [| card rest IH]; intros errors;
    cbn [Content.checkEventUnlocks].
  - exists []. rewrite app_nil_r. split; [reflexivity |].
    split; [intros _ c ch l [] | reflexivity].
  - destruct (checkChoiceUnlocks_spec (EventCard.id card) footnoteIds
                (EventCard.choices card) errors) as (extra1 & Heq1 & Hiff1).
    rewrite Heq1.
    destruct (IH (errors ++ extra1)) as (extra2 & Heq2 & Hiff2).
    exists (extra1 ++ extra2).
    split; [rewrite Heq2, <- app_assoc; reflexivity |].
    split.
    + intros H. apply app_eq_nil in H. destruct H as [H1 H2].
      intros c ch l [<- | Hc].
      * exact (proj1 Hiff1 H1 ch l).
      * exact (proj1 Hiff2 H2 c ch l Hc).
    + intros H.
      assert (H1 : extra1 = [])
        by (apply Hiff1; intros ch l; exact (H card ch l (or_introl eq_refl))).
      assert (H2 : extra2 = [])
        by (apply Hiff2; intros c ch l Hc; exact (H c ch l (or_intror Hc))).
      rewrite H1, H2. reflexivity.
Qed.

(** The content checks report no error exactly when the event ids are
    distinct, the choice ids are distinct within every event, the footnote
    ids are distinct, and every footnote a choice unlocks is a footnote of
    the content. *)
Theorem content_checks_pass_exactly_when :
  forall (events : list EventCard.t) (footnotes : list FootnoteCard.t),
    Content.runContentSanityChecks events footnotes = [] <->
    NoDup (map EventCard.id events) /\
    (forall card, In card events ->
                  NoDup (map EventChoice.id (EventCard.choices card))) /\
    NoDup (map FootnoteCard.id footnotes) /\
    (forall card choice l,
       In card events -> In choice (EventCard.choices card) ->
       EventChoice.unlocks choice = Some l ->
       forall x, In x l -> In x (map FootnoteCard.id footnotes)).
Proof.
  intros events footnotes. unfold Content.runContentSanityChecks.
  destruct (checkEventIds_spec events [] []) as (extra1 & Heq1 & Hiff1).
  destruct (Content.checkEventIds events [] []) as [ids1 errors1].
  cbn [snd app] in Heq1. subst errors1.
  destruct (checkFootnoteIds_spec footnotes [] extra1)
    as (extra2 & Heq2 & Hmem & Hiff2).
  destruct (Content.checkFootnoteIds footnotes [] extra1) as [fids errors2].
  cbn [snd fst] in Heq2, Hmem. subst errors2.
  destruct (checkEventUnlocks_spec fids events (extra1 ++ extra2))
    as (extra3 & Heq3 & Hiff3).
  rewrite Heq3.
  assert (Happ : (extra1 ++ extra2) ++ extra3 = [] <->
                 extra1 = [] /\ extra2 = [] /\ extra3 = []).
  { split.
    - intros H. apply app_eq_nil in H. destruct H as [H ->].
      apply app_eq_nil in H. tauto.
    - intros (-> & -> & ->). reflexivity. }
  rewrite Happ, Hiff1, Hiff2, Hiff3. split.
  - intros ([[Hnd1 _] Hch] & [Hnd2 _] & Hun).
    split; [exact Hnd1 |]. split; [exact Hch |]. split; [exact Hnd2 |].
    intros card choice l Hc Hcc Hl x Hx.
    specialize (Hun card choice l Hc Hcc Hl x Hx).
    apply Hmem in Hun. cbn [In] in Hun. tauto.
  - intros (Hnd1 & Hch & Hnd2 & Hun).
    split; [split; [split; [exact Hnd1 | intros x _ []] | exact Hch] |].
    split; [split; [exact Hnd2 | intros x _ []] |].
    intros card choice l Hc Hcc Hl x Hx. apply Hmem. left.
    exact (Hun card choice l Hc Hcc Hl x Hx).
Qed.

Lemma content_checks_pass_exactly_when_witness :
  let yield :=
    EventChoice.mk "yield" "Yield" None
      (ResourceEffects.mk None (Some (-1)) None None None)
      (Some ["fn_1"%string]) None in
  let strike :=
    EventCard.mk "strike" cat_labor "Strike" "A strike" None 1 None [yield] in
  let note :=
    FootnoteCard.mk "fn_1" "Title" "Summary" "Content" "1950s" "1952" None in
  Content.runContentSanityChecks [strike] [note] = [] /\
  Content.runContentSanityChecks [strike; strike] [note] <> [].
Proof.
  intros yield strike note. split.
  - apply (content_checks_pass_exactly_when [strike] [note]).
    split; [repeat constructor; intros [] |].
    split; [intros card [<- | []]; repeat constructor; intros [] |].
    split; [repeat constructor; intros [] |].
    intros card choice l [<- | []] [<- | []] [= <-] x [<- | []].
    left; reflexivity.
  - intros Hok.
    apply (content_checks_pass_exactly_when [strike; strike] [note]) in Hok.
    destruct Hok as (Hnd & _). inversion Hnd as [| ? ? Hnot _].
    apply Hnot. left; reflexivity.
Defined.

(** ** Union ids never collide *)

Lemma runReaches_ind (P : RunState -> World -> Prop) :
  (forall sd tips w,
      P (with_phase playing (fst (createInitialState sd tips w)))
        (snd (createInitialState sd tips w))) ->
  (forall st a w st' w', P st w -> gameReducer st a w = Some (st', w') ->
                         P st' w') ->
  forall st w, runReaches st w -> P st w.
Proof.
  intros Hinit Hstep st' w' (sd & tips & actions & st & w & Hrun).
  cbn [dispatch] in Hrun.
  assert (Hfirst : gameReducer st (RUN_START sd tips) w
            = Some (with_phase playing (fst (createInitialState sd tips w)),
                    snd (createInitialState sd tips w))).
  { cbn. destruct sd; reflexivity. }
  rewrite Hfirst in Hrun.
  pose proof (Hinit sd tips w) as H0.
  revert Hrun H0.
  generalize (with_phase playing (fst (createInitialState sd tips w))).
  generalize (snd (createInitialState sd tips w)).
  clear Hfirst. induction actions as [| a rest IH]; intros w0 s0 Hrun H0.
  - cbn in Hrun. injection Hrun as <- <-. exact H0.
  - cbn [dispatch] in Hrun.
    destruct (gameReducer s0 a w0) as [[s1 w1] |] eqn:Hred; [| discriminate].
    exact (IH _ _ Hrun (Hstep _ _ _ _ _ H0 Hred)).
Qed.

Lemma runReaches_reachable (st : RunState) (w : World) :
  runReaches st w -> reachable st.
Proof.
  intros (sd & tips & actions & st0 & w0 & Hrun).
  exists sd, tips, actions, st0, w0, w. exact Hrun.
Qed.

Lemma unionId_counter (now1 n1 now2 n2 : N) :
  String.append "union_"
    (String.append (showN now1) (String.append "_" (showN n1)))
  = String.append "union_"
      (String.append (showN now2) (String.append "_" (showN n2))) ->
  n1 = n2.
Proof.
  cbn. intros Heq. injection Heq as Heq.
  apply digits_underscore_inj in Heq; try apply showN_digitsOnly.
  destruct Heq as [_ Heq]. apply showN_inj in Heq. exact Heq.
Qed.

Lemma idsBelow_le (m : Rec.t UnionEntity.t) (b b' : N) :
  (b <= b')%N -> idsBelow m b -> idsBelow m b'.
Proof.
  intros Hle H id Hin. destruct (H id Hin) as (now & n & Heq & Hn).
  exists now, n. split; [exact Heq | lia].
Qed.

Lemma idsBelow_keys (m m' : Rec.t UnionEntity.t) (b : N) :
  (forall id, In id (Rec.keys m') -> In id (Rec.keys m)) ->
  idsBelow m b -> idsBelow m' b.
Proof. intros Hsub H id Hin. exact (H id (Hsub id Hin)). Qed.

Lemma keys_remove_subset {V} (k : string) (m : Rec.t V) :
  forall id, In id (Rec.keys (Rec.remove k m)) -> In id (Rec.keys m).
Proof.
  unfold Rec.keys, Rec.remove. intros id.
  induction m as [| [k0 v0] m IH]; cbn; [auto |].
  destruct (negb (String.eqb k0 k)); cbn; tauto.
Qed.

Lemma keys_set_existing {V} (k : string) (u v : V) (m : Rec.t V) :
  Rec.get k m = Some u -> Rec.keys (Rec.set k v m) = Rec.keys m.
Proof.
  intros Hget. rewrite keys_set.
  apply get_Some_key, includes_In in Hget. rewrite Hget. reflexivity.
Qed.

(** The loop of [UNION_GENERATE]: every turn adds one union under an id
    whose counter is one more than the last, which no union held before. *)
Lemma generate_loop_fresh (n : nat) :
  forall (acc : Rec.t UnionEntity.t) (a : Z) (w : World)
         (acc' : Rec.t UnionEntity.t) (a' : Z) (w' : World),
    repeatM n generateInto acc (a, w) = Some (acc', (a', w')) ->
    idsBelow acc (idCounter w) ->
    exists newIds,
      Rec.keys acc' = Rec.keys acc ++ newIds /\
      length newIds = n /\
      idCounter w' = (idCounter w + N.of_nat n)%N /\
      idsBelow acc' (idCounter w') /\
      (forall id u, Rec.get id acc = Some u -> Rec.get id acc' = Some u).
Proof.
  induction n as [| n IH]; intros acc a w acc' a' w' Hloop Hids.
  - cbn in Hloop. injection Hloop as <- <- <-.
    exists []. rewrite app_nil_r, N.add_0_r. auto.
  - destruct (generateInto_spec acc a w)
      as (u & a1 & Hinto & Hid & _).
    rewrite repeatM_S, Hinto in Hloop.
    assert (Hw : idCounter (snd (Generator.generateId w)) = (idCounter w + 1)%N)
      by reflexivity.
    assert (Hnew : UnionEntity.id u
                   = String.append "union_"
                       (String.append (showN (fst (Date_now w)))
                          (String.append "_" (showN (idCounter w + 1)%N))))
      by (rewrite Hid; reflexivity).
    assert (Hfresh : ~ In (UnionEntity.id u) (Rec.keys acc)).
    { intros Hin. destruct (Hids _ Hin) as (now & k & Heq & Hk).
      rewrite Hnew in Heq. apply unionId_counter in Heq. lia. }
    assert (Hkeys : Rec.keys (Rec.set (UnionEntity.id u) u acc)
                    = Rec.keys acc ++ [UnionEntity.id u]).
    { rewrite keys_set. apply includes_false in Hfresh. rewrite Hfresh.
      reflexivity. }
    destruct (IH _ _ _ _ _ _ Hloop) as (newIds & Hk & Hlen & Hc & Hb & Hold).
    + intros id Hin. rewrite Hkeys in Hin. apply in_app_or in Hin.
      rewrite Hw. destruct Hin as [Hin | [<- | []]].
      * destruct (Hids id Hin) as (now & k & Heq & Hle).
        exists now, k. split; [exact Heq | lia].
      * exists (fst (Date_now w)), (idCounter w + 1)%N.
        split; [exact Hnew | lia].
    + exists (UnionEntity.id u :: newIds).
      split; [rewrite Hk, Hkeys, <- app_assoc; reflexivity |].
      split; [cbn [length]; rewrite Hlen; reflexivity |].
      split; [rewrite Hc, Hw; lia |].
      split; [exact Hb |].
      intros id v Hget. apply Hold.
      rewrite get_set_other; [exact Hget |].
      intros Heq. subst id. apply Hfresh. exact (get_Some_key _ _ _ Hget).
Qed.

Lemma crackChecks_keys (st : RunState) :
  Rec.keys (unions (endCycle st)) = Rec.keys (unions st).
Proof.
  rewrite endCycle_unions.
  destruct (crackChecks_spec st) as (_ & Hk & _). exact Hk.
Qed.

Lemma step_idsBelow (st : RunState) (a : GameAction) (w : World)
    (st' : RunState) (w' : World) :
  idsBelow (unions st) (idCounter w) ->
  gameReducer st a w = Some (st', w') ->
  idsBelow (unions st') (idCounter w').
Proof.
  intros Hids Hred.
  assert (Hnil : forall b, idsBelow [] b) by (intros b id []).
  destruct a.
  - (* RUN_START *)
    unfold gameReducer in Hred.
    match type of Hred with
    | context [createInitialState ?sd ?tips ?v] =>
        assert (H0 : unions (fst (createInitialState sd tips v)) = [])
          by (destruct sd; reflexivity);
        destruct (createInitialState sd tips v) as [s0 w0]
    end.
    injection Hred as <- <-. cbn [unions with_phase] in *. cbn [fst] in H0.
    rewrite H0. apply Hnil.
  - (* RUN_RESET *)
    cbn in Hred. injection Hred as <- <-. apply Hnil.
  - (* TURN_ADVANCE *)
    unfold gameReducer in Hred.
    destruct (maxCycles st <=? cycle st); injection Hred as <- <-;
      [exact Hids |].
    apply (idsBelow_keys (unions st)); [| exact Hids].
    intros id. rewrite crackChecks_keys. auto.
  - (* UNION_GENERATE *)
    unfold gameReducer in Hred.
    destruct (_ || _); [injection Hred as <- <-; exact Hids |].
    destruct (repeatM _ _ _ _) as [[us [rng w1]] |] eqn:Hloop; [| discriminate].
    injection Hred as <- <-.
    destruct (generate_loop_fresh _ _ _ _ _ _ _ Hloop Hids)
      as (newIds & _ & _ & _ & Hb & _).
    exact Hb.
  - (* UNION_LICENSE *)
    unfold gameReducer in Hred.
    destruct (Rec.get unionId (unions st)) as [u |] eqn:Hget;
      [| injection Hred as <- <-; exact Hids].
    destruct (_ || _); [injection Hred as <- <-; exact Hids |].
    destruct (_ <? _); [injection Hred as <- <-; exact Hids |].
    destruct (Rng.nextInt _ _ _) as [roll rng].
    destruct (roll <=? _); injection Hred as <- <-; [| exact Hids].
    apply (idsBelow_keys (unions st)); [| exact Hids].
    intros id. cbn [unions with_resources with_rngCursor with_unions].
    rewrite (keys_set_existing _ _ _ _ Hget). auto.
  - (* UNION_LICENSE_RESULT *)
    cbn in Hred. injection Hred as <- <-. exact Hids.
  - (* UNION_INCUBATE *)
    unfold gameReducer in Hred.
    destruct (Rec.get unionId (unions st)) as [u |] eqn:Hget;
      [| injection Hred as <- <-; exact Hids].
    destruct (_ || _); [injection Hred as <- <-; exact Hids |].
    destruct (_ <? _); injection Hred as <- <-; [exact Hids |].
    apply (idsBelow_keys (unions st)); [| exact Hids].
    intros id. cbn [unions with_resources with_unions].
    rewrite (keys_set_existing _ _ _ _ Hget). auto.
  - (* UNION_DISSOLVE *)
    unfold gameReducer in Hred.
    destruct (Rec.get unionId (unions st)) as [u |];
      [| injection Hred as <- <-; exact Hids].
    destruct (isInFederation st unionId); injection Hred as <- <-;
      [exact Hids |].
    apply (idsBelow_keys (unions st)); [| exact Hids].
    cbn [unions with_resources with_unions]. apply keys_remove_subset.
  - (* UNION_REASSIGN *)
    unfold gameReducer in Hred.
    destruct (Rec.get unionId (unions st)) as [u |];
      [| injection Hred as <- <-; exact Hids].
    destruct (isInFederation st unionId); injection Hred as <- <-;
      [exact Hids |].
    apply (idsBelow_keys (unions st)); [| exact Hids].
    cbn [unions with_resources with_unions]. apply keys_remove_subset.
  - (* FEDERATION_CREATE *)
    unfold gameReducer in Hred.
    destruct (length unionIds <? 2)%nat; [injection Hred as <- <-; exact Hids |].
    destruct (negb (Nat.eqb _ _)); [injection Hred as <- <-; exact Hids |].
    destruct (negb (forallb _ _)); [injection Hred as <- <-; exact Hids |].
    destruct (existsb _ _); [injection Hred as <- <-; exact Hids |].
    destruct (_ || _); [injection Hred as <- <-; exact Hids |].
    destruct (generateFederationName_total (lookupAll unionIds (unions st))
                (Rng.createRNG (rngCursor st)) w) as (name & a' & Hname).
    rewrite Hname in Hred. unfold Date_now in Hred.
    injection Hred as <- <-. exact Hids.
  - (* EVENT_DRAW *)
    cbn in Hred. injection Hred as <- <-. exact Hids.
  - (* EVENT_CHOOSE *)
    unfold gameReducer in Hred.
    destruct (checkLoseCondition _); [injection Hred as <- <-; exact Hids |].
    destruct (_ <=? _); injection Hred as <- <-; [exact Hids |].
    apply (idsBelow_keys (unions st)); [| exact Hids].
    intros id. rewrite crackChecks_keys. auto.
  - (* EVENT_DISMISS *)
    cbn in Hred. injection Hred as <- <-. exact Hids.
  - (* ELECTION_RESOLVE *)
    cbn in Hred. injection Hred as <- <-. exact Hids.
  - (* TUTORIAL_DISMISS *)
    cbn in Hred. injection Hred as <- <-. exact Hids.
  - (* SET_PHASE *)
    cbn in Hred. injection Hred as <- <-. exact Hids.
Qed.

Lemma runReaches_idsBelow (st : RunState) (w : World) :
  runReaches st w -> idsBelow (unions st) (idCounter w).
Proof.
  apply (runReaches_ind (fun s v => idsBelow (unions s) (idCounter v))).
  - intros sd tips v. destruct sd; intros id [].
  - intros s a v s' v' Hinv Hred. exact (step_idsBelow _ _ _ _ _ Hinv Hred).
Qed.

(** In a run, a generation that is paid for and is the first of its cycle
    adds exactly [count] unions, each under an id that no union of the
    state has: the ids of the unions are kept in their order with the new
    ones after them, no id occurs twice, every union the state had is
    still there unchanged, and the id counter has advanced by [count]. *)
Theorem generated_ids_are_fresh :
  forall (st : RunState) (w : World) (count : Z),
    runReaches st w ->
    unionsGeneratedInCycle st = false ->
    1 <= Resources.paperwork (resources st) ->
    exists (st' : RunState) (w' : World) (newIds : list string),
      gameReducer st (UNION_GENERATE count) w = Some (st', w') /\
      Rec.keys (unions st') = Rec.keys (unions st) ++ newIds /\
      length newIds = Z.to_nat count /\
      NoDup (Rec.keys (unions st')) /\
      (forall id u, Rec.get id (unions st) = Some u ->
                    Rec.get id (unions st') = Some u) /\
      idCounter w' = (idCounter w + N.of_nat (Z.to_nat count))%N.
Proof.
  intros st w count Hrun Hflag Hpay.
  pose proof (runReaches_idsBelow st w Hrun) as Hids.
  destruct (reachable_unions_inv st (runReaches_reachable st w Hrun))
    as [Hwf Hnd].
  destruct (generate_loop_total (Z.to_nat count) (unions st)
              (Rng.createRNG (rngCursor st)) w) as ([us [rng w1]] & Hloop).
  destruct (generate_loop_fresh _ _ _ _ _ _ _ Hloop Hids)
    as (newIds & Hk & Hlen & Hc & _ & Hold).
  destruct (generate_loop_well_formed _ _ _ _ _ Hloop Hwf Hnd) as [_ Hnd'].
  eexists. exists w1, newIds. split.
  - unfold gameReducer. rewrite Hflag.
    unfold COSTS.generateUnions_paperwork.
    destruct (Z.ltb_spec (Resources.paperwork (resources st)) 1); [lia |].
    cbn [orb]. rewrite Hloop. reflexivity.
  - cbn [unions with_resources with_unionsGeneratedInCycle with_rngCursor
         with_unions]. auto.
Qed.

Lemma generated_ids_are_fresh_witness :
  exists (st' : RunState) (w' : World) (newIds : list string),
    gameReducer
      (with_phase playing (fst (createInitialState (Some 42) None sampleWorld)))
      (UNION_GENERATE 3) sampleWorld = Some (st', w') /\
    length (Rec.keys (unions st')) = 3%nat /\
    idCounter w' = 3%N.
Proof.
  destruct (generated_ids_are_fresh
              (with_phase playing
                 (fst (createInitialState (Some 42) None sampleWorld)))
              sampleWorld 3)
    as (st' & w' & newIds & Hred & Hk & Hlen & _ & _ & Hc).
  - exists (Some 42), None, [], (sampleState [] []), sampleWorld. reflexivity.
  - reflexivity.
  - cbn; lia.
  - exists st', w', newIds. split; [exact Hred |]. split.
    + rewrite Hk, length_app, Hlen. reflexivity.
    + rewrite Hc. reflexivity.
Defined.

(** ** Choosing an option *)

Lemma find_by_id {A} (f : A -> string) (l : list A) (x : A) :
  NoDup (map f l) -> In x l ->
  find (fun y => String.eqb (f y) (f x)) l = Some x.
Proof.
  induction l as [| y l IH]; cbn [map find In]; [intros _ [] |].
  intros Hnd Hin. inversion Hnd as [| ? ? Hnot Hnd']; subst.
  destruct (String.eqb_spec (f y) (f x)) as [Heq | Hne].
  - destruct Hin as [-> | Hin]; [reflexivity |].
    exfalso. apply Hnot. rewrite Heq. apply in_map. exact Hin.
  - destruct Hin as [-> | Hin]; [contradiction |]. exact (IH Hnd' Hin).
Qed.

Lemma find_by_id_none {A} (f : A -> string) (l : list A) (k : string) :
  (forall y, In y l -> f y <> k) ->
  find (fun y => String.eqb (f y) k) l = None.
Proof.
  induction l as [| y l IH]; cbn [find In]; [reflexivity |].
  intros H. destruct (String.eqb_spec (f y) k) as [Heq | _].
  - exfalso. exact (H y (or_introl eq_refl) Heq).
  - apply IH. intros z Hz. apply H. auto.
Qed.

(** With distinct event ids and distinct choice ids within the event,
    choosing an option of an event of the content dispatches
    [EVENT_CHOOSE] with the effects and the unlocks of that very choice;
    with an event id or a choice id that the content does not have,
    nothing is dispatched. *)
Theorem choosing_dispatches_that_choice :
  forall (events : list EventCard.t) (card : EventCard.t)
         (choice : EventChoice.t),
    NoDup (map EventCard.id events) ->
    NoDup (map EventChoice.id (EventCard.choices card)) ->
    In card events ->
    In choice (EventCard.choices card) ->
    Content.chooseEventOption events (EventCard.id card) (EventChoice.id choice)
      = Some (EVENT_CHOOSE (EventCard.id card) (EventChoice.id choice)
                           (EventChoice.effects choice)
                           (EventChoice.unlocks choice)) /\
    (forall eventId choiceId,
       (forall e, In e events -> EventCard.id e <> eventId) ->
       Content.chooseEventOption events eventId choiceId = None) /\
    (forall choiceId,
       (forall c, In c (EventCard.choices card) -> EventChoice.id c <> choiceId) ->
       Content.chooseEventOption events (EventCard.id card) choiceId = None).
Proof.
  intros events card choice Hnd Hndc Hcard Hchoice.
  unfold Content.chooseEventOption.
  split; [| split].
  - rewrite (find_by_id EventCard.id events card Hnd Hcard).
    rewrite (find_by_id EventChoice.id (EventCard.choices card) choice
               Hndc Hchoice).
    reflexivity.
  - intros eventId choiceId Hno.
    rewrite (find_by_id_none EventCard.id events eventId Hno). reflexivity.
  - intros choiceId Hno.
    rewrite (find_by_id EventCard.id events card Hnd Hcard).
    rewrite (find_by_id_none EventChoice.id (EventCard.choices card) choiceId
               Hno).
    reflexivity.
Qed.

Lemma choosing_dispatches_that_choice_witness :
  let yield :=
    EventChoice.mk "yield" "Yield" None
      (ResourceEffects.mk None (Some (-1)) None None None) None None in
  let resist :=
    EventChoice.mk "resist" "Resist" None
      (ResourceEffects.mk None None (Some (-5)) None (Some 10)) None None in
  let strike :=
    EventCard.mk "strike" cat_labor "Strike" "A strike" None 1 None
      [yield; resist] in
  Content.chooseEventOption [strike] "strike" "resist"
  = Some (EVENT_CHOOSE "strike" "resist"
            (ResourceEffects.mk None None (Some (-5)) None (Some 10)) None).
Proof.
  intros yield resist strike.
  destruct (choosing_dispatches_that_choice [strike] strike resist)
    as (H & _).
  - repeat constructor. intros [].
  - repeat constructor; cbn; intuition discriminate.
  - left; reflexivity.
  - right; left; reflexivity.
  - exact H.
Defined.
